(** * Docxpro: a shallow embedding of the templating core

    The development follows the JavaScript sources of the repository:
    - [TagParser] (new-templater-core/src/parsers/TagParser.js), the cursor
      based tokenizer;
    - [TemplateParser] (src/core/TemplateParser.js), the tokenizer built on
      regular expressions, and [TemplateValidator], its [validate];
    - [ContextProcessor] (unnamed/part_000): placeholders, loops,
      conditionals;
    - [ModuleManager] (unnamed/part_001): the module registry and its run;
    - [DocxTemplaterPro] (unnamed/part_002): processing of one document
      part and the error list;
    - [ContextResolver] and [BaseModule]
      (new-templater-core/src/core/BaseModule.js), [NewTemplaterCore]
      (new-templater-core/src/core/NewTemplaterCore.js);
    - [ImageModule] (src/modules/SubtemplateModule.js, second class) and
      [QrCodeModule] (src/modules/QrCodeModule.js): the asset counters.

    Strings are sequences of code units below 256 ([Stdlib.Strings.String]);
    exceptions are an explicit [result] type; mutable fields are threaded as
    explicit state; what belongs to the language rather than to the
    repository (numbers, comparison operators, serialization, prototypes)
    is an interface, [Numbers] and [Host].  Part I holds the definitions,
    Part II the theorems. *)

From Stdlib Require Import String Ascii List ZArith Lia Bool Arith PeanoNat Sorted
  Permutation.
Import ListNotations.
Open Scope string_scope.

(* ================================================================== *)
(** * Part I.  Definitions                                             *)
(* ================================================================== *)

(** ** Exceptions *)

Inductive error : Type :=
| Error (message : string)
| TypeError (message : string).

Definition message_of (e : error) : string :=
  match e with Error m => m | TypeError m => m end.

Inductive result (A : Type) : Type :=
| Ok (a : A)
| Throw (e : error).
Arguments Ok {A} a.
Arguments Throw {A} e.

Definition bind {A B} (r : result A) (k : A -> result B) : result B :=
  match r with Ok a => k a | Throw e => Throw e end.

(** [try_catch r h] is [try { r } catch (error) { h error }]. *)
Definition try_catch {A} (r : result A) (h : error -> result A) : result A :=
  match r with Ok a => Ok a | Throw e => h e end.

Declare Scope js_scope.
Delimit Scope js_scope with js.
Notation "x <- r ;; k" := (bind r (fun x => k))
  (at level 61, r at next level, right associativity) : js_scope.

(** ** The string primitives of the host language used by the sources *)

Module JSString.

(** [s.indexOf(pat, from)]; [None] stands for [-1]. *)
Definition indexOf (s pat : string) (from : nat) : option nat :=
  String.index from pat s.

(** [s.substring(a, b)]: both ends are clamped to the length and swapped
    when [a > b]. *)
Definition substring (s : string) (a b : nat) : string :=
  let a' := Nat.min a (String.length s) in
  let b' := Nat.min b (String.length s) in
  String.substring (Nat.min a' b') (Nat.max a' b' - Nat.min a' b') s.

(** [s.substring(a)] *)
Definition substring_from (s : string) (a : nat) : string :=
  substring s a (String.length s).

(** [s.slice(a, b)] with possibly negative arguments. *)
Definition slice (s : string) (a b : Z) : string :=
  let len := Z.of_nat (String.length s) in
  let from := if (a <? 0)%Z then Z.max (len + a) 0 else Z.min a len in
  let to := if (b <? 0)%Z then Z.max (len + b) 0 else Z.min b len in
  String.substring (Z.to_nat from) (Z.to_nat (Z.max (to - from) 0)) s.

(** White space and line terminators below U+0100. *)
Definition is_space (c : ascii) : bool :=
  let n := nat_of_ascii c in
  ((n =? 9) || (n =? 10) || (n =? 11) || (n =? 12) || (n =? 13)
   || (n =? 32) || (n =? 160))%nat.

Fixpoint trimStart (s : string) : string :=
  match s with
  | EmptyString => EmptyString
  | String c s' => if is_space c then trimStart s' else s
  end.

Fixpoint trimEnd (s : string) : string :=
  match s with
  | EmptyString => EmptyString
  | String c s' =>
      match trimEnd s' with
      | EmptyString => if is_space c then EmptyString else String c EmptyString
      | t => String c t
      end
  end.

Definition trim (s : string) : string := trimEnd (trimStart s).

Definition startsWith (s p : string) : bool := String.prefix p s.

Definition endsWith (s p : string) : bool :=
  (String.length p <=? String.length s)%nat
  && String.eqb (String.substring (String.length s - String.length p)
                                  (String.length p) s) p.

Definition includes (s p : string) : bool :=
  match indexOf s p 0 with Some _ => true | None => false end.

Fixpoint chars (s : string) : list string :=
  match s with
  | EmptyString => []
  | String c s' => String c EmptyString :: chars s'
  end.

Fixpoint split_go (fuel : nat) (s sep : string) : list string :=
  match fuel with
  | O => [s]
  | S fuel' =>
      match indexOf s sep 0 with
      | None => [s]
      | Some i =>
          String.substring 0 i s
          :: split_go fuel' (substring_from s (i + String.length sep)) sep
      end
  end.

(** [s.split(sep)] for a string separator. *)
Definition split (s sep : string) : list string :=
  match sep with
  | EmptyString => chars s
  | _ => split_go (String.length s) s sep
  end.

Fixpoint repeat (s : string) (n : nat) : string :=
  match n with O => EmptyString | S n' => s ++ repeat s n' end.

Fixpoint concat (l : list string) : string :=
  match l with [] => EmptyString | s :: l' => s ++ concat l' end.

End JSString.

(** ** [TagParser] (new-templater-core/src/parsers/TagParser.js) *)

Module TagParser.
Import JSString.

Record delimiters := { d_start : string; d_end : string }.

Record options := {
  o_delimiters : delimiters;
  o_moduleDelimiters : delimiters;
  o_rawXmlDelimiter : delimiters
}.

(** The defaults of the constructor. *)
Definition default_options : options := {|
  o_delimiters := {| d_start := "{{"; d_end := "}}" |};
  o_moduleDelimiters := {| d_start := "{%"; d_end := "%}" |};
  o_rawXmlDelimiter := {| d_start := "{@"; d_end := "}" |}
|}.

(** The fields shared by every tag token. *)
Record tag := {
  value : string;
  fullMatch : string;
  start : nat;
  end_ : nat
}.

Inductive token : Type :=
| text (value : string)
| rawXml (t : tag)
| loop (tagType tagData : string) (t : tag)
| condition (tagType tagData : string) (t : tag)
| moduleTag (moduleName tagData : string) (t : tag)
| placeholder (t : tag).

Record tag_match := { m_value : string; m_fullMatch : string }.

Definition _matchTag (text : string) (d : delimiters) : option tag_match :=
  match indexOf text (d_start d) 0 with
  | None => None
  | Some startIndex =>
      match indexOf text (d_end d) (startIndex + String.length (d_start d)) with
      | None => None
      | Some endIndex =>
          Some {| m_value :=
                    substring text (startIndex + String.length (d_start d)) endIndex;
                  m_fullMatch :=
                    substring text startIndex (endIndex + String.length (d_end d)) |}
      end
  end.

(** [None] stands for [Infinity]. *)
Definition _findNextDelimiter (text startDelimiter : string) : option nat :=
  indexOf text startDelimiter 0.

(** [Math.min] over indices or [Infinity]. *)
Definition min_inf (a b : option nat) : option nat :=
  match a, b with
  | None, x => x
  | x, None => x
  | Some x, Some y => Some (Nat.min x y)
  end.

Record state := { tokens : list token; cursor : nat }.

Definition push (st : state) (t : token) (advance : nat) : state :=
  {| tokens := tokens st ++ [t]; cursor := cursor st + advance |}.

(** One iteration of the body of [while (cursor < content.length)]. *)
Definition parse_step (o : options) (content : string) (st : state) : state :=
  let remainingContent := substring_from content (cursor st) in
  match _matchTag remainingContent (o_rawXmlDelimiter o) with
  | Some rawXmlMatch =>
      let n := String.length (m_fullMatch rawXmlMatch) in
      push st (rawXml {| value := trim (m_value rawXmlMatch);
                         fullMatch := m_fullMatch rawXmlMatch;
                         start := cursor st;
                         end_ := cursor st + n |}) n
  | None =>
  match _matchTag remainingContent (o_moduleDelimiters o) with
  | Some moduleMatch =>
      let tagContent := trim (m_value moduleMatch) in
      let '(tagType, tagData) :=
        match indexOf tagContent " " 0 with
        | Some firstSpaceIndex =>
            (substring tagContent 0 firstSpaceIndex,
             trim (substring_from tagContent (firstSpaceIndex + 1)))
        | None => (tagContent, "")
        end in
      let n := String.length (m_fullMatch moduleMatch) in
      let t := {| value := m_value moduleMatch;
                  fullMatch := m_fullMatch moduleMatch;
                  start := cursor st;
                  end_ := cursor st + n |} in
      if startsWith tagType "loop" || startsWith tagType "endloop" then
        push st (loop tagType tagData t) n
      else if startsWith tagType "if" || startsWith tagType "endif"
              || startsWith tagType "else" then
        push st (condition tagType tagData t) n
      else
        push st (moduleTag tagType tagData t) n
  | None =>
  match _matchTag remainingContent (o_delimiters o) with
  | Some placeholderMatch =>
      let n := String.length (m_fullMatch placeholderMatch) in
      push st (placeholder {| value := trim (m_value placeholderMatch);
                              fullMatch := m_fullMatch placeholderMatch;
                              start := cursor st;
                              end_ := cursor st + n |}) n
  | None =>
      let nextTagIndex :=
        min_inf (_findNextDelimiter remainingContent (d_start (o_rawXmlDelimiter o)))
          (min_inf (_findNextDelimiter remainingContent (d_start (o_moduleDelimiters o)))
                   (_findNextDelimiter remainingContent (d_start (o_delimiters o)))) in
      match nextTagIndex with
      | None =>
          {| tokens := tokens st ++ [text remainingContent];
             cursor := String.length content |}
      | Some i => push st (text (substring remainingContent 0 i)) i
      end
  end end end.

(** The [while] loop, unrolled at most [fuel] times; [None] when the loop
    has not left after [fuel] iterations. *)
Fixpoint parse_loop (fuel : nat) (o : options) (content : string) (st : state)
  : option (list token) :=
  if (cursor st <? String.length content)%nat then
    match fuel with
    | O => None
    | S fuel' => parse_loop fuel' o content (parse_step o content st)
    end
  else Some (tokens st).

Definition parse (fuel : nat) (content : string) : option (list token) :=
  parse_loop fuel default_options content {| tokens := []; cursor := 0 |}.

(** The raw span of a token: the text of a text token, the full matched
    text of a tag token. *)
Definition raw_span (t : token) : string :=
  match t with
  | text v => v
  | rawXml t | placeholder t => fullMatch t
  | loop _ _ t | condition _ _ t | moduleTag _ _ t => fullMatch t
  end.

Definition reconstruct (ts : list token) : string :=
  JSString.concat (map raw_span ts).

End TagParser.

(** ** A backtracking matcher for the regular expressions of the sources

    Only the constructs that occur in [TemplateParser.patterns] and in the
    modules' tag patterns: literals, character classes, concatenation,
    greedy and lazy repetition, an optional non-capturing group and numbered
    capture groups.  Alternatives are tried in the order of a backtracking
    engine, so the first successful match is the one [RegExp.exec] returns. *)

Module Regex.

Inductive re : Type :=
| Chr (c : ascii)
| Cls (p : ascii -> bool)
| Eps
| Seq (r1 r2 : re)
| Star (greedy : bool) (r : re)
| Opt (r : re)
| Grp (n : nat) (r : re).

Definition captures := list (nat * string).

Fixpoint capture (n : nat) (c : captures) : option string :=
  match c with
  | [] => None
  | (k, s) :: c' => if (k =? n)%nat then Some s else capture n c'
  end.

Definition cont := string -> nat -> captures -> option (nat * captures).

Section Matcher.
Variable input : string.

(** [run r k rest pos c]: match [r] at offset [pos] (where [rest] is the
    input from [pos] on), then continue with [k]. *)
Fixpoint run (r : re) (k : cont) (rest : string) (pos : nat) (c : captures)
  {struct r} : option (nat * captures) :=
  match r with
  | Chr a =>
      match rest with
      | String b rest' => if Ascii.eqb a b then k rest' (S pos) c else None
      | EmptyString => None
      end
  | Cls p =>
      match rest with
      | String b rest' => if p b then k rest' (S pos) c else None
      | EmptyString => None
      end
  | Eps => k rest pos c
  | Seq r1 r2 => run r1 (run r2 k) rest pos c
  | Star greedy r' =>
      (fix star (fuel : nat) (rest : string) (pos : nat) (c : captures)
         {struct fuel} : option (nat * captures) :=
         match fuel with
         | O => k rest pos c
         | S fuel' =>
             if greedy then
               match run r' (fun rest' pos' c' =>
                               if (pos' <=? pos)%nat then None
                               else star fuel' rest' pos' c') rest pos c with
               | Some m => Some m
               | None => k rest pos c
               end
             else
               match k rest pos c with
               | Some m => Some m
               | None =>
                   run r' (fun rest' pos' c' =>
                             if (pos' <=? pos)%nat then None
                             else star fuel' rest' pos' c') rest pos c
               end
         end) (S (String.length rest)) rest pos c
  | Opt r' =>
      match run r' k rest pos c with
      | Some m => Some m
      | None => k rest pos c
      end
  | Grp n r' =>
      run r' (fun rest' pos' c' =>
                k rest' pos' ((n, String.substring pos (pos' - pos) input) :: c'))
          rest pos c
  end.

Definition match_at (r : re) (rest : string) (pos : nat)
  : option (nat * captures) :=
  run r (fun _ pos' c => Some (pos', c)) rest pos [].

(** The leftmost match starting at offset [pos] or later. *)
Fixpoint search (r : re) (rest : string) (pos : nat)
  : option (nat * nat * captures) :=
  match match_at r rest pos with
  | Some (e, c) => Some (pos, e, c)
  | None =>
      match rest with
      | EmptyString => None
      | String _ rest' => search r rest' (S pos)
      end
  end.
End Matcher.

(** What [exec] hands back: [index], [match[0]] and the groups. *)
Record regex_match := {
  rm_index : nat;
  rm_text : string;
  rm_groups : captures
}.

(** [regex.exec(s)] for a global regular expression whose [lastIndex] is
    [lastIndex]; the new [lastIndex] is the end of the match. *)
Definition exec (r : re) (s : string) (lastIndex : nat)
  : option (regex_match * nat) :=
  if (String.length s <? lastIndex)%nat then None
  else
    match search s r (JSString.substring_from s lastIndex) lastIndex with
    | Some (i, e, c) =>
        Some ({| rm_index := i; rm_text := String.substring i (e - i) s;
                 rm_groups := c |}, e)
    | None => None
    end.

(** The matches seen by [while ((match = regex.exec(s)) !== null)],
    unrolled at most [fuel] times. *)
Fixpoint exec_all (fuel : nat) (r : re) (s : string) (lastIndex : nat)
  : list regex_match :=
  match fuel with
  | O => []
  | S fuel' =>
      match exec r s lastIndex with
      | Some (m, e) => m :: exec_all fuel' r s e
      | None => []
      end
  end.

(** [regex.test(s)] for a regular expression without the global flag. *)
Definition test (r : re) (s : string) : bool :=
  match search s r s 0 with Some _ => true | None => false end.

(** Pattern notation. *)
Fixpoint lit (s : string) : re :=
  match s with
  | EmptyString => Eps
  | String c s' => Seq (Chr c) (lit s')
  end.

Fixpoint seq (l : list re) : re :=
  match l with
  | [] => Eps
  | r :: l' => Seq r (seq l')
  end.

Definition plus (greedy : bool) (r : re) : re := Seq r (Star greedy r).

Definition space : re := Cls JSString.is_space.                 (* \s *)
Definition word_char (c : ascii) : bool :=                      (* \w *)
  let n := nat_of_ascii c in
  ((48 <=? n) && (n <=? 57) || (65 <=? n) && (n <=? 90)
   || (97 <=? n) && (n <=? 122) || (n =? 95))%nat.
Definition word : re := Cls word_char.
Definition any : re := Cls (fun _ => true).                     (* . with the s flag *)
Definition not_char (a : ascii) : re :=                         (* [^a] *)
  Cls (fun b => negb (Ascii.eqb a b)).

End Regex.

(** ** Tokens of [TemplateParser], consumed by [ContextProcessor] *)

Module Template.

(** [index], [length] and [fullMatch] of a matched construct. *)
Record span := { index : nat; length : nat; fullMatch : string }.

Inductive token : Type :=
| text (content : string) (index : option nat)
| placeholder (variable : string) (m : span)
| loop (variable collection content : string) (m : span)
| conditional (condition ifContent elseContent : string) (m : span)
| module (moduleName data : string) (m : span)
| rawXml (variable : string) (m : span)
| paragraphPlaceholder (variable : string) (m : span).

Definition token_span (t : token) : option span :=
  match t with
  | text _ _ => None
  | placeholder _ m | rawXml _ m | paragraphPlaceholder _ m => Some m
  | loop _ _ _ m => Some m
  | conditional _ _ _ m => Some m
  | module _ _ m => Some m
  end.

(** [token.index] *)
Definition token_index (t : token) : nat :=
  match t with
  | text _ i => match i with Some i => i | None => 0 end
  | placeholder _ m | rawXml _ m | paragraphPlaceholder _ m => index m
  | loop _ _ _ m => index m
  | conditional _ _ _ m => index m
  | module _ _ m => index m
  end.

(** The text a token stands for in the input. *)
Definition raw_span (t : token) : string :=
  match t with
  | text c _ => c
  | placeholder _ m | rawXml _ m | paragraphPlaceholder _ m => fullMatch m
  | loop _ _ _ m => fullMatch m
  | conditional _ _ _ m => fullMatch m
  | module _ _ m => fullMatch m
  end.

Record parsed := { tokens : list token; originalContent : string }.

End Template.

(** ** [Array.prototype.sort] with a numeric key: a stable sort *)

Module JSArray.

Section Sort.
Context {A : Type} (key : A -> Z).

(** [x] goes behind every element whose key is not larger. *)
Fixpoint insert (x : A) (l : list A) : list A :=
  match l with
  | [] => [x]
  | y :: l' => if (key x <? key y)%Z then x :: l else y :: insert x l'
  end.

(** [l.sort((a, b) => key(a) - key(b))] *)
Definition sort (l : list A) : list A :=
  fold_left (fun acc x => insert x acc) l [].

(** The order the sort aims at. *)
Definition le_key (a b : A) : Prop := (key a <= key b)%Z.
End Sort.

End JSArray.

(** ** [TemplateParser] (src/core/TemplateParser.js) *)

Module TemplateParser.
Import Regex Template.

Definition ws : re := Star true space.          (* \s* *)
Definition ws1 : re := plus true space.         (* \s+ *)

(** [/\{\{([^}]+)\}\}/g] *)
Definition placeholder_re : re :=
  seq [lit "{{"; Grp 1 (plus true (not_char "}"%char)); lit "}}"].

(** [/\{%\s*loop\s+(\w+)\s+in\s+([^%]+)\s*%\}(.*?)\{%\s*endloop\s*%\}/gs] *)
Definition loop_re : re :=
  seq [lit "{%"; ws; lit "loop"; ws1; Grp 1 (plus true word); ws1; lit "in"; ws1;
       Grp 2 (plus true (not_char "%"%char)); ws; lit "%}";
       Grp 3 (Star false any);
       lit "{%"; ws; lit "endloop"; ws; lit "%}"].

(** [/\{%\s*if\s+([^%]+)\s*%\}(.*?)(?:\{%\s*else\s*%\}(.*?))?\{%\s*endif\s*%\}/gs] *)
Definition conditional_re : re :=
  seq [lit "{%"; ws; lit "if"; ws1; Grp 1 (plus true (not_char "%"%char)); ws; lit "%}";
       Grp 2 (Star false any);
       Opt (seq [lit "{%"; ws; lit "else"; ws; lit "%}"; Grp 3 (Star false any)]);
       lit "{%"; ws; lit "endif"; ws; lit "%}"].

(** [patterns.moduleTag]: the opening delimiter, optional white space, group 1
    a run of word characters, white space, group 2 a possibly empty run of
    characters other than the percent sign, optional white space, the
    closing delimiter (flag g). *)
Definition moduleTag_re : re :=
  seq [lit "{%"; ws; Grp 1 (plus true word); ws1;
       Grp 2 (Star true (not_char "%"%char)); ws; lit "%}"].

(** [/\{@([^}]+)\}/g] *)
Definition rawXml_re : re :=
  seq [lit "{@"; Grp 1 (plus true (not_char "}"%char)); lit "}"].

(** [/\{\{\?([^}]+)\}\}/g] *)
Definition paragraphPlaceholder_re : re :=
  seq [lit "{{?"; Grp 1 (plus true (not_char "}"%char)); lit "}}"].

(** [match[n]], with [undefined] read as the empty string where the source
    trims it or writes [match[3] || '']. *)
Definition group (m : regex_match) (n : nat) : string :=
  match capture n (rm_groups m) with Some s => s | None => "" end.

Definition span_of (m : regex_match) : span :=
  {| index := rm_index m; length := String.length (rm_text m);
     fullMatch := rm_text m |}.

Definition _isPartOfLargerConstruct (index_ : nat) (existingMatches : list token)
  : bool :=
  existsb (fun t => match token_span t with
                    | Some m => (index m <=? index_)%nat
                                && (index_ <? index m + length m)%nat
                    | None => false
                    end) existingMatches.

(** One [while ((match = pattern.exec(content)) !== null)] loop that pushes
    [mk match] unless the match starts inside an earlier one. *)
Definition collect (guarded : bool) (r : re) (mk : regex_match -> token)
    (content : string) (matches : list token) : list token :=
  fold_left
    (fun matches m =>
       if guarded && _isPartOfLargerConstruct (rm_index m) matches
       then matches else (matches ++ [mk m])%list)
    (exec_all (S (String.length content)) r content 0) matches.

Definition _findAllMatches (content : string) : list token :=
  let matches := [] in
  let matches :=
    collect false loop_re
      (fun m => loop (JSString.trim (group m 1)) (JSString.trim (group m 2))
                     (group m 3) (span_of m)) content matches in
  let matches :=
    collect false conditional_re
      (fun m => conditional (JSString.trim (group m 1)) (group m 2) (group m 3)
                            (span_of m)) content matches in
  let matches :=
    collect true moduleTag_re
      (fun m => module (JSString.trim (group m 1)) (JSString.trim (group m 2))
                       (span_of m)) content matches in
  let matches :=
    collect true placeholder_re
      (fun m => placeholder (JSString.trim (group m 1)) (span_of m))
      content matches in
  let matches :=
    collect true rawXml_re
      (fun m => rawXml (JSString.trim (group m 1)) (span_of m)) content matches in
  collect true paragraphPlaceholder_re
    (fun m => paragraphPlaceholder (JSString.trim (group m 1)) (span_of m))
    content matches.

(** The token-building loop of [parse]: [position] is the running offset. *)
Fixpoint build (content : string) (allMatches : list token) (tokens : list token)
    (position : nat) : list token * nat :=
  match allMatches with
  | [] => (tokens, position)
  | m :: rest =>
      let tokens :=
        if (position <? token_index m)%nat
        then (tokens ++ [text (JSString.substring content position (token_index m))
                              (Some position)])%list
        else tokens in
      build content rest (tokens ++ [m])%list
            (token_index m + match token_span m with
                             | Some s => length s
                             | None => 0
                             end)
  end.

Definition parse (content : string) : parsed :=
  let allMatches := _findAllMatches content in
  let allMatches := JSArray.sort (fun t => Z.of_nat (token_index t)) allMatches in
  let '(tokens, position) := build content allMatches [] 0 in
  let tokens :=
    if (position <? String.length content)%nat
    then (tokens ++ [text (JSString.substring_from content position) (Some position)])%list
    else tokens in
  {| tokens := tokens; originalContent := content |}.

Definition reconstruct (p : parsed) : string :=
  JSString.concat (map raw_span (tokens p)).

End TemplateParser.

(** ** Values of the host language

    Numbers are IEEE doubles in the host; the development keeps their
    carrier and the conversions between numbers and strings abstract
    ([Numbers]) and fixes them only in examples. *)

Class Numbers : Type := {
  number : Type;
  num_of_nat : nat -> number;         (* the integer-valued numbers *)
  num_to_string : number -> string;   (* String(n) *)
  num_truthy : number -> bool;        (* !!n *)
  isNaN_str : string -> bool;         (* isNaN(s) for a string s *)
  parseFloat : string -> number       (* parseFloat(s) *)
}.

Set Warnings "-register-all".

(** Context data.  Objects list their own properties in insertion order;
    [VFunction] stands for a built-in reached through a prototype. *)
Inductive value `{Numbers} : Type :=
| VUndefined
| VNull
| VBool (b : bool)
| VNumber (n : number)
| VString (s : string)
| VArray (items : list value)
| VObject (props : list (string * value))
| VFunction (name : string).

Inductive operator : Type := OpEq | OpNe | OpGe | OpLe | OpGt | OpLt.

Definition operator_text (op : operator) : string :=
  match op with
  | OpEq => "==" | OpNe => "!=" | OpGe => ">=" | OpLe => "<="
  | OpGt => ">" | OpLt => "<"
  end.

(** What the sources take from the language itself. *)
Class Host `{Numbers} : Type := {
  (* [l op r] for the six comparison operators *)
  js_compare : operator -> value -> value -> result bool;
  (* [JSON.stringify(v)] for an object or an array *)
  JSON_stringify : value -> string;
  (* the property [key] of [v] found on its prototype chain, if any *)
  inherited : value -> string -> option value;
  (* string conversion of an object, an array or a function *)
  ToString_object : value -> result string;
  (* the call [f.call(this, arg)] of a built-in [f] *)
  call_function : string -> value -> string -> result value
}.

Module JSValue.
Section WithNumbers.
Context `{N : Numbers}.

Definition typeof (v : value) : string :=
  match v with
  | VUndefined => "undefined"
  | VNull | VArray _ | VObject _ => "object"
  | VBool _ => "boolean"
  | VNumber _ => "number"
  | VString _ => "string"
  | VFunction _ => "function"
  end.

(** [!!v] *)
Definition truthy (v : value) : bool :=
  match v with
  | VUndefined | VNull => false
  | VBool b => b
  | VNumber n => num_truthy n
  | VString s => negb (String.eqb s "")
  | VArray _ | VObject _ | VFunction _ => true
  end.

Definition isArray (v : value) : bool :=
  match v with VArray _ => true | _ => false end.

Fixpoint assoc (key : string) (props : list (string * value)) : option value :=
  match props with
  | [] => None
  | (k, v) :: props' => if String.eqb k key then Some v else assoc key props'
  end.

(** Assignment [o[key] = v] on a property list. *)
Fixpoint obj_set (key : string) (v : value) (props : list (string * value))
  : list (string * value) :=
  match props with
  | [] => [(key, v)]
  | (k, w) :: props' =>
      if String.eqb k key then (k, v) :: props'
      else (k, w) :: obj_set key v props'
  end.

Definition is_digit (c : ascii) : bool :=
  let n := nat_of_ascii c in ((48 <=? n) && (n <=? 57))%nat.

Fixpoint digits_value (s : string) (acc : nat) : option nat :=
  match s with
  | EmptyString => Some acc
  | String c s' =>
      if is_digit c then digits_value s' (10 * acc + (nat_of_ascii c - 48))
      else None
  end.

(** The array index a property key denotes: a decimal numeral without
    leading zero. *)
Definition array_index (key : string) : option nat :=
  match key with
  | EmptyString => None
  | String "0" EmptyString => Some 0
  | String "0" _ => None
  | _ => digits_value key 0
  end.

(** The own property [key] of [v]. *)
Definition own_property (v : value) (key : string) : option value :=
  match v with
  | VObject props => assoc key props
  | VArray items =>
      if String.eqb key "length" then Some (VNumber (num_of_nat (List.length items)))
      else match array_index key with
           | Some i => nth_error items i
           | None => None
           end
  | _ => None
  end.

Fixpoint Z_digits (fuel : nat) (n : nat) (acc : string) : string :=
  match fuel with
  | O => acc
  | S fuel' =>
      let acc' := String (ascii_of_nat (48 + n mod 10)) acc in
      if (n <? 10)%nat then acc' else Z_digits fuel' (n / 10) acc'
  end.

(** The decimal numeral of an array index. *)
Definition index_key (n : nat) : string := Z_digits (S n) n "".

Fixpoint indexed (i : nat) (items : list value) : list (string * value) :=
  match items with
  | [] => []
  | v :: items' => (index_key i, v) :: indexed (S i) items'
  end.

(** The properties copied by the spread [{...v}]. *)
Definition own_enumerable (v : value) : list (string * value) :=
  match v with
  | VObject props => props
  | VArray items => indexed 0 items
  | VString s => indexed 0 (map VString (JSString.chars s))
  | _ => []
  end.
End WithNumbers.

Section WithHost.
Context `{H : Host}.

(** [key in v] for an object or array [v]. *)
Definition has_property (v : value) (key : string) : bool :=
  match own_property v key with
  | Some _ => true
  | None => match inherited v key with Some _ => true | None => false end
  end.

(** [v[key]] for an object or array [v]. *)
Definition get_property (v : value) (key : string) : value :=
  match own_property v key with
  | Some x => x
  | None => match inherited v key with Some x => x | None => VUndefined end
  end.

(** String conversion, as in [String(v)] or [s += v]. *)
Definition ToString (v : value) : result string :=
  match v with
  | VUndefined => Ok "undefined"
  | VNull => Ok "null"
  | VBool true => Ok "true"
  | VBool false => Ok "false"
  | VNumber n => Ok (num_to_string n)
  | VString s => Ok s
  | VArray _ | VObject _ | VFunction _ => ToString_object v
  end.
End WithHost.
End JSValue.

(** ** [TemplateParser.validate] (src/core/TemplateParser.js) *)

Module TemplateValidator.
Import Regex.

(** [/\{%\s*loop\s+/g] and [/\{%\s*endloop\s*%\}/g] *)
Definition loopStart_re : re :=
  seq [lit "{%"; TemplateParser.ws; lit "loop"; TemplateParser.ws1].
Definition loopEnd_re : re :=
  seq [lit "{%"; TemplateParser.ws; lit "endloop"; TemplateParser.ws; lit "%}"].

(** [/\{%\s*if\s+/g] and [/\{%\s*endif\s*%\}/g] *)
Definition ifStart_re : re :=
  seq [lit "{%"; TemplateParser.ws; lit "if"; TemplateParser.ws1].
Definition ifEnd_re : re :=
  seq [lit "{%"; TemplateParser.ws; lit "endif"; TemplateParser.ws; lit "%}"].

Definition none_of (excluded : list ascii) : re :=
  Cls (fun c => negb (existsb (Ascii.eqb c) excluded)).

(** The two alternatives of the pattern for malformed placeholders: an
    opening brace followed by a character other than an opening brace, a
    percent sign and an at sign; a character other than a closing brace, a
    percent sign and an at sign followed by a closing brace. *)
Definition opened_re : re :=
  Seq (Chr "{") (none_of ["{"; "%"; "@"]%char).
Definition closed_re : re :=
  Seq (none_of ["}"; "%"; "@"]%char) (Chr "}").

(** The leftmost match of [r1|r2] at offset [pos] or later; at each offset
    the first alternative is tried first. *)
Fixpoint search_either (input : string) (r1 r2 : re) (rest : string) (pos : nat)
  : option (nat * nat) :=
  match match_at input r1 rest pos with
  | Some (e, _) => Some (pos, e)
  | None =>
      match match_at input r2 rest pos with
      | Some (e, _) => Some (pos, e)
      | None =>
          match rest with
          | EmptyString => None
          | String _ rest' => search_either input r1 r2 rest' (S pos)
          end
      end
  end.

(** [s.match(/r1|r2/g)], the texts matched from [lastIndex] on; the empty
    list stands for [null]. *)
Fixpoint match_either (fuel : nat) (r1 r2 : re) (s : string) (lastIndex : nat)
  : list string :=
  match fuel with
  | O => []
  | S fuel' =>
      if (String.length s <? lastIndex)%nat then []
      else
        match search_either s r1 r2 (JSString.substring_from s lastIndex)
                            lastIndex with
        | Some (i, e) => String.substring i (e - i) s :: match_either fuel' r1 r2 s e
        | None => []
        end
  end.

(** [(content.match(r) || []).length] *)
Definition count (r : re) (content : string) : nat :=
  List.length (exec_all (S (String.length content)) r content 0).

(** [a.join(sep)] *)
Fixpoint join (sep : string) (a : list string) : string :=
  match a with
  | [] => ""
  | [s] => s
  | s :: a' => s ++ sep ++ join sep a'
  end.

Record validation_error := { type_ : string; message : string }.

Definition syntax (message_ : string) : validation_error :=
  {| type_ := "syntax"; message := message_ |}.

Definition validate (content : string) : list validation_error :=
  let loopStarts := count loopStart_re content in
  let loopEnds := count loopEnd_re content in
  let ifStarts := count ifStart_re content in
  let ifEnds := count ifEnd_re content in
  let malformedPlaceholders :=
    match_either (S (String.length content)) opened_re closed_re content 0 in
  ((if (loopStarts =? loopEnds)%nat then []
    else [syntax ("Unmatched loop tags: " ++ JSValue.index_key loopStarts
                  ++ " starts, " ++ JSValue.index_key loopEnds ++ " ends")])
   ++ (if (ifStarts =? ifEnds)%nat then []
       else [syntax ("Unmatched conditional tags: " ++ JSValue.index_key ifStarts
                     ++ " starts, " ++ JSValue.index_key ifEnds ++ " ends")])
   ++ (match malformedPlaceholders with
       | [] => []
       | _ => [syntax ("Malformed placeholders found: "
                       ++ join ", " malformedPlaceholders)]
       end))%list.

End TemplateValidator.

(** ** [ContextProcessor] (unnamed/part_000) *)

Module ContextProcessor.
Import JSString JSValue Template.
Local Open Scope js_scope.

Record options := {
  nullGetter : unit -> string;
  errorOnMissingData : bool
}.

(** The defaults of the constructor. *)
Definition default_options : options :=
  {| nullGetter := fun _ => ""; errorOnMissingData := false |}.

Definition dquote : string := String (ascii_of_nat 34) EmptyString.
Definition squote : string := "'".

Definition operators : list operator := [OpEq; OpNe; OpGe; OpLe; OpGt; OpLt].

Definition _parseContent (content : string) : parsed :=
  {| tokens := [text content None]; originalContent := content |}.

Definition _removeParagraph (token_ : token) : string := "".

Section WithHost.
Context `{H : Host}.

(** The loop of [_getValue] over the keys of the path. *)
Fixpoint get_keys (keys : list string) (value_ : value) : result value :=
  match keys with
  | [] => Ok value_
  | key :: keys' =>
      match value_ with
      | VNull =>
          Throw (Error ("Cannot access property '" ++ key ++ "' of null"))
      | VUndefined =>
          Throw (Error ("Cannot access property '" ++ key ++ "' of undefined"))
      | _ =>
          if String.eqb (typeof value_) "object" && has_property value_ key
          then get_keys keys' (get_property value_ key)
          else Throw (Error ("Property '" ++ key ++ "' not found in context"))
      end
  end.

Definition _getValue (path : string) (context : value) : result value :=
  get_keys (split path ".") context.

Definition _parseValue (value_ : string) (context : value) : value :=
  if (startsWith value_ dquote && endsWith value_ dquote)
     || (startsWith value_ squote && endsWith value_ squote)
  then VString (slice value_ 1 (-1))
  else if negb (isNaN_str value_) then VNumber (parseFloat value_)
  else if String.eqb value_ "true" then VBool true
  else if String.eqb value_ "false" then VBool false
  else match _getValue value_ context with
       | Ok v => v
       | Throw _ => VString value_
       end.

(** The [for (const op of operators)] loop, then the truthiness check. *)
Fixpoint evaluate_operators (ops : list operator) (condition : string)
    (context : value) : result bool :=
  match ops with
  | [] =>
      value_ <- _getValue condition context ;;
      Ok (truthy value_)
  | op :: ops' =>
      if includes condition (operator_text op) then
        match map trim (split condition (operator_text op)) with
        | left_ :: right_ :: _ =>
            leftValue <- _getValue left_ context ;;
            js_compare op leftValue (_parseValue right_ context)
        | [left_] =>
            _ <- _getValue left_ context ;;
            Throw (TypeError "Cannot read properties of undefined")
        | [] => Throw (TypeError "Cannot read properties of undefined")
        end
      else evaluate_operators ops' condition context
  end.

Definition _evaluateCondition (condition : string) (context : value)
  : result bool :=
  try_catch (evaluate_operators operators condition context)
            (fun _ => Ok false).

Definition _formatValue (o : options) (value_ : value) : result string :=
  match value_ with
  | VNull | VUndefined => Ok (nullGetter o tt)
  | VArray _ | VObject _ => Ok (JSON_stringify value_)
  | _ => ToString value_
  end.

Definition _processPlaceholder (o : options) (variable : string)
    (context : value) : result string :=
  try_catch
    (value_ <- _getValue variable context ;; _formatValue o value_)
    (fun _ =>
       if errorOnMissingData o
       then Throw (Error ("Missing data for placeholder: " ++ variable))
       else Ok (nullGetter o tt)).

(** [_processRawXml] hands back [value || '']; the caller converts it. *)
Definition _processRawXml (o : options) (variable : string) (context : value)
  : result value :=
  try_catch
    (value_ <- _getValue variable context ;;
     Ok (if truthy value_ then value_ else VString ""))
    (fun error =>
       if errorOnMissingData o then Throw error else Ok (VString "")).

Definition _processParagraphPlaceholder (o : options) (token_ : token)
    (variable : string) (context : value) : result string :=
  try_catch
    (value_ <- _getValue variable context ;;
     match value_ with
     | VNull | VUndefined => Ok (_removeParagraph token_)
     | VString EmptyString => Ok (_removeParagraph token_)
     | _ => _formatValue o value_
     end)
    (fun error =>
       if errorOnMissingData o then Throw error
       else Ok (_removeParagraph token_)).

(** The object literal
    [{...context, [variable]: item, $index, $first, $last, $length}]. *)
Definition loopContext (context : value) (variable : string) (item : value)
    (i n : nat) : value :=
  VObject
    (obj_set "$length" (VNumber (num_of_nat n))
    (obj_set "$last" (VBool (i =? n - 1)%nat)
    (obj_set "$first" (VBool (i =? 0)%nat)
    (obj_set "$index" (VNumber (num_of_nat i))
    (obj_set variable item (own_enumerable context)))))).

(** The methods below call back into [process]; [self] stands for
    [this.process]. *)
Section Open.
Variable self : parsed -> value -> result string.

(** The [for] loop of [_processLoop] from index [i] on. *)
Fixpoint loop_items (content variable : string) (context : value) (n i : nat)
    (items : list value) (acc : string) : result string :=
  match items with
  | [] => Ok acc
  | item :: items' =>
      piece <- self (_parseContent content)
                    (loopContext context variable item i n) ;;
      loop_items content variable context n (S i) items' (acc ++ piece)
  end.

Definition _processLoop (o : options) (variable collection content : string)
    (context : value) : result string :=
  try_catch
    (collection_ <- _getValue collection context ;;
     match collection_ with
     | VArray items =>
         loop_items content variable context (List.length items) 0 items ""
     | _ =>
         if errorOnMissingData o
         then Throw (Error ("Loop collection is not an array: " ++ collection))
         else Ok ""
     end)
    (fun error => if errorOnMissingData o then Throw error else Ok "").

(** In the lenient [catch] branch the source returns the object built
    by [_parseContent], which the caller's [+=] turns into text. *)
Definition _processConditional (o : options)
    (condition ifContent elseContent : string) (context : value)
  : result string :=
  try_catch
    (conditionResult <- _evaluateCondition condition context ;;
     let contentToProcess :=
       if conditionResult : bool then ifContent else elseContent in
     if negb (String.eqb contentToProcess "")
     then self (_parseContent contentToProcess) context
     else Ok "")
    (fun error =>
       if errorOnMissingData o then Throw error
       else Ok (if negb (String.eqb elseContent "")
                then "[object Object]" else "")).

Definition process_token (o : options) (t : token) (context : value)
  : result string :=
  match t with
  | text content _ => Ok content
  | placeholder variable _ => _processPlaceholder o variable context
  | loop variable collection content _ =>
      _processLoop o variable collection content context
  | conditional condition ifContent elseContent _ =>
      _processConditional o condition ifContent elseContent context
  | rawXml variable _ =>
      v <- _processRawXml o variable context ;; ToString v
  | paragraphPlaceholder variable _ =>
      _processParagraphPlaceholder o t variable context
  | module _ _ m => Ok (fullMatch m)
  end.

Fixpoint process_tokens (o : options) (ts : list token) (context : value)
    (acc : string) : result string :=
  match ts with
  | [] => Ok acc
  | t :: ts' =>
      piece <- process_token o t context ;;
      process_tokens o ts' context (acc ++ piece)
  end.

Definition process_with (o : options) (parsedTemplate : parsed)
    (context : value) : result string :=
  process_tokens o (tokens parsedTemplate) context "".
End Open.

(** [process] on the token lists built by [_parseContent], which hold a
    single text token and lead to no further call. *)
Definition process_nested (o : options) : parsed -> value -> result string :=
  process_with (fun _ _ => Ok "") o.

(** [process(parsedTemplate, context)] *)
Definition process (o : options) : parsed -> value -> result string :=
  process_with (process_nested o) o.
End WithHost.
End ContextProcessor.

(** ** [ModuleManager] (unnamed/part_001) *)

Module ModuleManager.
Section WithNumbers.
Context `{N : Numbers}.

(** The object handed to [process]; [_processXmlContent] builds it with
    [context], [documentType] and [zip] only, so that [content] and
    [errorOnMissingData] are [undefined] there. *)
Record pcontext := {
  context : value;
  documentType : string;
  content : option string;
  errorOnMissingData : bool
}.

(** A module object.  [priority], [supportedTypes], [hasTagsToProcess]
    and [process] may be missing. *)
Record module_ := {
  name : string;
  priority : option Z;
  supportedTypes : option (list string);
  hasTagsToProcess : option (string -> bool);
  process_ : option (string -> pcontext -> result string)
}.

Record manager := {
  modules : list (string * module_);   (* a Map, in insertion order *)
  processingOrder : list string
}.

(** [new ModuleManager()] *)
Definition constructor : manager := {| modules := []; processingOrder := [] |}.

Fixpoint map_get (key : string) (m : list (string * module_)) : option module_ :=
  match m with
  | [] => None
  | (k, v) :: m' => if String.eqb k key then Some v else map_get key m'
  end.

Fixpoint map_set (key : string) (v : module_) (m : list (string * module_))
  : list (string * module_) :=
  match m with
  | [] => [(key, v)]
  | (k, w) :: m' =>
      if String.eqb k key then (k, v) :: m' else (k, w) :: map_set key v m'
  end.

Definition map_delete (key : string) (m : list (string * module_))
  : list (string * module_) :=
  filter (fun kv => negb (String.eqb (fst kv) key)) m.

(** [module.priority || 100] *)
Definition priority_or_100 (p : option Z) : Z :=
  match p with
  | None => 100
  | Some p => if (p =? 0)%Z then 100 else p
  end.

(** The search for [insertIndex]: the first position whose module has a
    larger priority, the length when there is none. *)
Fixpoint find_insertIndex (mods : list (string * module_)) (priority_ : Z)
    (order : list string) (i : nat) : result nat :=
  match order with
  | [] => Ok i
  | existing :: order' =>
      match map_get existing mods with
      | None => Throw (TypeError "Cannot read properties of undefined")
      | Some existingModule =>
          if (priority_ <? priority_or_100 (priority existingModule))%Z
          then Ok i
          else find_insertIndex mods priority_ order' (S i)
      end
  end.

(** [a.splice(i, 0, x)] *)
Definition splice_insert {A} (i : nat) (x : A) (a : list A) : list A :=
  firstn i a ++ x :: skipn i a.

Definition register (module : module_) (self : manager) : result manager :=
  if String.eqb (name module) "" then
    Throw (Error "Module must have a name property")
  else
    match process_ module with
    | None => Throw (Error "Module must have a process method")
    | Some _ =>
        let modules' := map_set (name module) module (modules self) in
        if existsb (String.eqb (name module)) (processingOrder self) then
          Ok {| modules := modules'; processingOrder := processingOrder self |}
        else
          match find_insertIndex modules' (priority_or_100 (priority module))
                                 (processingOrder self) 0 with
          | Throw e => Throw e
          | Ok insertIndex =>
              Ok {| modules := modules';
                    processingOrder :=
                      splice_insert insertIndex (name module)
                                    (processingOrder self) |}
          end
    end.

Fixpoint remove_first (x : string) (l : list string) : list string :=
  match l with
  | [] => []
  | y :: l' => if String.eqb y x then l' else y :: remove_first x l'
  end.

Definition unregister (moduleName : string) (self : manager) : manager :=
  {| modules := map_delete moduleName (modules self);
     processingOrder := remove_first moduleName (processingOrder self) |}.

Definition _shouldProcessModule (module : module_) (ctx : pcontext) : bool :=
  match supportedTypes module with
  | Some types =>
      if negb (existsb (String.eqb (documentType ctx)) types) then false
      else match hasTagsToProcess module with
           | Some f => f (match content ctx with Some c => c | None => "" end)
           | None => true
           end
  | None =>
      match hasTagsToProcess module with
      | Some f => f (match content ctx with Some c => c | None => "" end)
      | None => true
      end
  end.

(** The outcome of a run: the returned text or the raised error, what
    [console.warn] printed, and the modules that were called, in order
    (the last is a ghost field). *)
Record run := {
  output : result string;
  console : list string;
  calls : list string
}.

Definition failed (moduleName : string) (error_ : error) : string :=
  "Module " ++ moduleName ++ " failed: " ++ message_of error_.

(** The [for (const moduleName of this.processingOrder)] loop. *)
Fixpoint process_loop (mods : list (string * module_)) (order : list string)
    (processedContent : string) (ctx : pcontext)
    (console_ calls_ : list string) : run :=
  match order with
  | [] => {| output := Ok processedContent; console := console_; calls := calls_ |}
  | moduleName :: order' =>
      match map_get moduleName mods with
      | None => process_loop mods order' processedContent ctx console_ calls_
      | Some module =>
          if _shouldProcessModule module ctx then
            let outcome :=
              match process_ module with
              | Some f => f processedContent ctx
              | None => Throw (TypeError "module.process is not a function")
              end in
            match outcome with
            | Ok processedContent' =>
                process_loop mods order' processedContent' ctx console_
                             (calls_ ++ [moduleName])
            | Throw error_ =>
                if errorOnMissingData ctx then
                  {| output := Throw (Error (failed moduleName error_));
                     console := console_;
                     calls := calls_ ++ [moduleName] |}
                else
                  process_loop mods order' processedContent ctx
                               (console_ ++ [failed moduleName error_])
                               (calls_ ++ [moduleName])
            end
          else process_loop mods order' processedContent ctx console_ calls_
      end
  end.

Definition process (self : manager) (content_ : string) (ctx : pcontext) : run :=
  process_loop (modules self) (processingOrder self) content_ ctx [] [].

(** Registering a list of modules one after the other. *)
Fixpoint register_all (ms : list module_) (self : manager) : result manager :=
  match ms with
  | [] => Ok self
  | m :: ms' =>
      match register m self with
      | Ok self' => register_all ms' self'
      | Throw e => Throw e
      end
  end.

(** [getModule(moduleName)]; [None] stands for [null]. *)
Definition getModule (moduleName : string) (self : manager) : option module_ :=
  map_get moduleName (modules self).

(** [getAllModules()]: the values of the map, in insertion order. *)
Definition getAllModules (self : manager) : list module_ :=
  map snd (modules self).

(** [processWithModule(moduleName, content, context)]: the module is
    called whatever its document types are, and its error is not caught. *)
Definition processWithModule (moduleName content_ : string) (ctx : pcontext)
    (self : manager) : result string :=
  match map_get moduleName (modules self) with
  | None => Throw (Error ("Module " ++ moduleName ++ " not found"))
  | Some module =>
      match process_ module with
      | Some f => f content_ ctx
      | None => Throw (TypeError "module.process is not a function")
      end
  end.

(** The object returned by [getStats()].  [modules.size] is the number of
    entries of the list, which [map_set] keeps at one per key. *)
Record stats := {
  totalModules : nat;
  moduleNames : list string;
  s_processingOrder : list string
}.

Definition getStats (self : manager) : stats :=
  {| totalModules := List.length (modules self);
     moduleNames := map fst (modules self);
     s_processingOrder := processingOrder self |}.

(** [clear()] *)
Definition clear (self : manager) : manager :=
  {| modules := []; processingOrder := [] |}.
End WithNumbers.
End ModuleManager.

(** ** [DocxTemplaterPro] (unnamed/part_002) *)

Module DocxTemplaterPro.
Section WithHost.
Context `{H : Host}.

(** An entry of [this.errors]. *)
Record error_entry := {
  message : string;
  location : string;
  e_documentType : string
}.

Record templater := {
  options : ContextProcessor.options;
  moduleManager : ModuleManager.manager;
  context : value;
  errors : list error_entry
}.

(** [new DocxTemplaterPro(options)], where the given options replace the
    defaults. *)
Definition constructor (o : ContextProcessor.options) : templater :=
  {| options := o;
     moduleManager := ModuleManager.constructor;
     context := VObject [];
     errors := [] |}.

(** [setContext(context)], with [context || {}]. *)
Definition setContext (c : value) (self : templater) : templater :=
  {| options := options self;
     moduleManager := moduleManager self;
     context := if JSValue.truthy c then c else VObject [];
     errors := errors self |}.

Definition attachModule (m : ModuleManager.module_) (self : templater)
  : result templater :=
  match ModuleManager.register m (moduleManager self) with
  | Ok mm => Ok {| options := options self; moduleManager := mm;
                   context := context self; errors := errors self |}
  | Throw e => Throw e
  end.

(** The text returned (or the error raised), the object after the call,
    and what was printed. *)
Record outcome := {
  returned : result string;
  after : templater;
  printed : list string
}.

Definition push_error (self : templater) (e : error) (documentType : string)
  : templater :=
  {| options := options self;
     moduleManager := moduleManager self;
     context := context self;
     errors := errors self
               ++ [{| message := message_of e;
                      location := "XML processing";
                      e_documentType := documentType |}] |}.

(** The [catch] block of [_processXmlContent]. *)
Definition caught (self : templater) (xmlContent documentType : string)
    (e : error) (printed_ : list string) : outcome :=
  {| returned := if ContextProcessor.errorOnMissingData (options self)
                 then Throw e else Ok xmlContent;
     after := push_error self e documentType;
     printed := printed_ |}.

Definition _processXmlContent (self : templater) (xmlContent documentType : string)
  : outcome :=
  let parsedContent := TemplateParser.parse xmlContent in
  match ContextProcessor.process (options self) parsedContent (context self) with
  | Throw e => caught self xmlContent documentType e []
  | Ok processedContent =>
      let r := ModuleManager.process (moduleManager self) processedContent
                 {| ModuleManager.context := context self;
                    ModuleManager.documentType := documentType;
                    ModuleManager.content := None;
                    ModuleManager.errorOnMissingData := false |} in
      match ModuleManager.output r with
      | Ok processedContent' =>
          {| returned := Ok processedContent'; after := self;
             printed := ModuleManager.console r |}
      | Throw e =>
          caught self xmlContent documentType e (ModuleManager.console r)
      end
  end.
End WithHost.
End DocxTemplaterPro.

(** ** [ContextResolver] (new-templater-core/src/core/BaseModule.js, second class) *)

Module ContextResolver.
Import JSValue.
Section WithHost.
Context `{H : Host}.

(** The call [current.hasOwnProperty(part)]: the method is looked up on
    [current] itself first, so an own property of that name hides the
    built-in. *)
Definition call_hasOwnProperty (current : value) (part : string) : result bool :=
  match own_property current "hasOwnProperty" with
  | Some (VFunction f) =>
      match call_function f current part with
      | Ok r => Ok (truthy r)
      | Throw e => Throw e
      end
  | Some _ => Throw (TypeError "current.hasOwnProperty is not a function")
  | None =>
      Ok (match own_property current part with Some _ => true | None => false end)
  end.

(** The [for] loop over the parts of the path. *)
Fixpoint traverse (parts : list string) (current defaultValue : value)
  : result value :=
  match parts with
  | [] => Ok current
  | part :: parts' =>
      match current with
      | VArray _ | VObject _ =>
          match call_hasOwnProperty current part with
          | Throw e => Throw e
          | Ok false => Ok defaultValue
          | Ok true => traverse parts' (get_property current part) defaultValue
          end
      | _ => Ok defaultValue
      end
  end.

(** [ContextResolver.resolve(context, path, defaultValue = undefined)];
    [path] is any value the caller passes. *)
Definition resolve (context path : value) (defaultValue : option value)
  : result value :=
  let defaultValue :=
    match defaultValue with Some d => d | None => VUndefined end in
  if negb (truthy context) then Ok defaultValue
  else match path with
       | VString p =>
           if (String.length p =? 0)%nat then Ok defaultValue
           else traverse (JSString.split p ".") context defaultValue
       | _ => Ok defaultValue
       end.
End WithHost.
End ContextResolver.

(** ** [BaseModule] and [NewTemplaterCore] (new-templater-core/src/core) *)

Module BaseModule.
Section WithNumbers.
Context `{N : Numbers}.

(** An instance of (a subclass of) [BaseModule]; the methods a subclass
    may override are fields. *)
Record t := {
  name : string;
  tags : list string;
  supportedFileTypes : list string;
  priority : Z;
  shouldProcess : string -> string -> bool;
  preparse : string -> string -> result string;
  render : string -> value -> string -> result string;
  postrender : string -> string -> result string
}.

(** The pattern [shouldProcess] builds from a tag made of word
    characters. *)
Definition tagPattern (tag : string) : Regex.re :=
  Regex.seq [Regex.lit "{%"; Regex.Star true Regex.space; Regex.lit tag;
             Regex.plus true Regex.space;
             Regex.Star true (Regex.not_char "%"%char); Regex.lit "%}"].

(** [BaseModule.prototype.shouldProcess] *)
Definition default_shouldProcess (tags_ supported : list string)
    (content fileType : string) : bool :=
  if negb (existsb (String.eqb fileType) supported) then false
  else existsb (fun tag => Regex.test (tagPattern tag) content) tags_.
End WithNumbers.
End BaseModule.

Module NewTemplaterCore.
Section WithNumbers.
Context `{N : Numbers}.

Record core := {
  modules : list BaseModule.t;
  context : value;
  fileType : string
}.

(** What a caller may pass to [attachModule]. *)
Inductive attachable : Type :=
| not_a_BaseModule
| instance (m : BaseModule.t).

Definition attachModule (moduleInstance : attachable) (self : core) : result core :=
  match moduleInstance with
  | not_a_BaseModule =>
      Throw (Error "Attached module must be an instance of BaseModule.")
  | instance m =>
      Ok {| modules := JSArray.sort BaseModule.priority (modules self ++ [m]);
            context := context self;
            fileType := fileType self |}
  end.

Fixpoint attach_all (ms : list BaseModule.t) (self : core) : result core :=
  match ms with
  | [] => Ok self
  | m :: ms' =>
      match attachModule (instance m) self with
      | Ok self' => attach_all ms' self'
      | Throw e => Throw e
      end
  end.

(** One [for (const module of this.modules)] loop of [render]: every
    module that accepts the current text transforms it; an error is not
    caught.  The second component lists the modules called. *)
Fixpoint run_phase (phase : BaseModule.t -> string -> result string)
    (fileType_ : string) (ms : list BaseModule.t) (xmlContent : string)
    (calls : list string) : result string * list string :=
  match ms with
  | [] => (Ok xmlContent, calls)
  | module :: ms' =>
      if BaseModule.shouldProcess module xmlContent fileType_ then
        match phase module xmlContent with
        | Ok xmlContent' =>
            run_phase phase fileType_ ms' xmlContent'
                      (calls ++ [BaseModule.name module])%list
        | Throw e => (Throw e, (calls ++ [BaseModule.name module])%list)
        end
      else run_phase phase fileType_ ms' xmlContent calls
  end.
End WithNumbers.
End NewTemplaterCore.

(** ** [ImageModule] (src/modules/SubtemplateModule.js, second class)

    The counter logic is modelled as written; reading the image, writing
    the archive and building the markup are collaborators. *)

Module ImageModule.
Import JSString JSValue.

(** What the module relies on besides its counter. *)
Class Collaborators `{H : Host} : Type := {
  buffer : Type;
  zip : Type;
  dimensions : Type;
  _getImageBuffer : value -> result buffer;
  _getImageExtension : value -> string;
  (* the archive after the call, and the error when the call fails *)
  _addImageToDocument : zip -> string -> buffer -> string -> zip * option error;
  _calculateDimensions : value -> value -> buffer -> dimensions;
  (* the first argument is [this.imageCounter] *)
  _createDocxImageXml : nat -> string -> dimensions -> value -> string;
  _createPptxImageXml : nat -> string -> dimensions -> value -> string;
  (* [s.replace(pattern, replacement)] for a string pattern *)
  replace : string -> string -> string -> string
}.

Section WithCollaborators.
Context `{C : Collaborators}.

Record image_module := {
  name : string;
  priority : Z;
  supportedTypes : list string;
  imageCounter : nat
}.

Definition constructor : image_module :=
  {| name := "image"; priority := 60; supportedTypes := ["docx"; "pptx"];
     imageCounter := 1 |}.

Record pcontext := { context : value; documentType : string }.

(** The module, the archive, the console, and the names and relationship
    identifiers handed to [_addImageToDocument] so far (a ghost field). *)
Record world := {
  this : image_module;
  archive : zip;
  console : list string;
  allocated : list (string * string)
}.

Definition with_counter (m : image_module) (n : nat) : image_module :=
  {| name := name m; priority := priority m;
     supportedTypes := supportedTypes m; imageCounter := n |}.

(** [/\{%\s*image\s+([^%]+)\s*%\}/g] *)
Definition imagePattern : Regex.re :=
  Regex.seq [Regex.lit "{%"; Regex.Star true Regex.space; Regex.lit "image";
             Regex.plus true Regex.space;
             Regex.Grp 1 (Regex.plus true (Regex.not_char "%"%char));
             Regex.Star true Regex.space; Regex.lit "%}"].

Definition hasTagsToProcess (content : string) : bool :=
  Regex.test imagePattern content.

Fixpoint walk (keys : list string) (value_ : value) : option value :=
  match keys with
  | [] => Some value_
  | key :: keys' =>
      if truthy value_ && String.eqb (typeof value_) "object"
         && has_property value_ key
      then walk keys' (get_property value_ key)
      else None
  end.

(** [None] stands for [null]. *)
Definition _getImageData (variableName : string) (context_ : value)
  : option value :=
  match walk (split variableName ".") context_ with
  | Some (VString s) => Some (VObject [("src", VString s)])
  | Some (VArray items) =>
      if truthy (get_property (VArray items) "src")
      then Some (VArray items) else None
  | Some (VObject props) =>
      if truthy (get_property (VObject props) "src")
      then Some (VObject props) else None
  | _ => None
  end.

Definition warn (w : world) (line : string) : world :=
  {| this := this w; archive := archive w;
     console := console w ++ [line]; allocated := allocated w |}.

Definition _createImageXml (imageData : value) (ctx : pcontext) (w : world)
  : string * world :=
  let src := get_property imageData "src" in
  let width := get_property imageData "width" in
  let height := get_property imageData "height" in
  let alt := match get_property imageData "alt" with
             | VUndefined => VString ""
             | a => a
             end in
  match _getImageBuffer src with
  | Throw e => ("", warn w ("Failed to process image: " ++ message_of e))
  | Ok imageBuffer =>
      let imageExtension := _getImageExtension src in
      let imageName :=
        "image" ++ index_key (imageCounter (this w)) ++ "." ++ imageExtension in
      let relationshipId := "rId" ++ index_key (1000 + imageCounter (this w)) in
      let '(archive', failure) :=
        _addImageToDocument (archive w) imageName imageBuffer relationshipId in
      let w' := {| this := this w; archive := archive'; console := console w;
                   allocated := allocated w ++ [(imageName, relationshipId)] |} in
      match failure with
      | Some e => ("", warn w' ("Failed to process image: " ++ message_of e))
      | None =>
          let dimensions_ := _calculateDimensions width height imageBuffer in
          if String.eqb (documentType ctx) "docx" then
            (_createDocxImageXml (imageCounter (this w)) relationshipId
                                 dimensions_ alt, w')
          else if String.eqb (documentType ctx) "pptx" then
            (_createPptxImageXml (imageCounter (this w)) relationshipId
                                 dimensions_ alt, w')
          else
            ("", {| this := with_counter (this w') (S (imageCounter (this w')));
                    archive := archive w'; console := console w';
                    allocated := allocated w' |})
      end
  end.

(** The body of the [while] loop of [process] for one match. *)
Definition process_match (ctx : pcontext) (acc : string * world)
    (m : Regex.regex_match) : string * world :=
  let '(processedContent, w) := acc in
  let variableName := trim (TemplateParser.group m 1) in
  match _getImageData variableName (context ctx) with
  | Some imageData =>
      let '(imageXml, w') := _createImageXml imageData ctx w in
      (replace processedContent (Regex.rm_text m) imageXml, w')
  | None => (replace processedContent (Regex.rm_text m) "", w)
  end.

Definition process (content : string) (ctx : pcontext) (w : world)
  : string * world :=
  fold_left (process_match ctx)
            (Regex.exec_all (S (String.length content)) imagePattern content 0)
            (content, w).
End WithCollaborators.
End ImageModule.

(** ** [QrCodeModule] (src/modules/QrCodeModule.js) *)

Module QrCodeModule.
Import JSString JSValue.

(** What the module relies on besides its counter. *)
Class Collaborators `{H : Host} : Type := {
  buffer : Type;
  zip : Type;
  dimensions : Type;
  (* [QRCode.toBuffer(text, options)], the options being read off [qrData] *)
  QRCode_toBuffer : value -> value -> result buffer;
  (* the archive after the call, and the error when the call fails *)
  _addQrCodeToDocument : zip -> string -> buffer -> string -> zip * option error;
  _calculateDimensions : value -> value -> dimensions;
  (* the first argument is [this.qrCounter] *)
  _createDocxQrCodeXml : nat -> string -> dimensions -> value -> string;
  _createPptxQrCodeXml : nat -> string -> dimensions -> value -> string;
  (* [s.replace(pattern, replacement)] for a string pattern *)
  replace : string -> string -> string -> string
}.

Section WithCollaborators.
Context `{C : Collaborators}.

Record qr_module := {
  name : string;
  priority : Z;
  supportedTypes : list string;
  qrCounter : nat
}.

Definition constructor : qr_module :=
  {| name := "qrcode"; priority := 70; supportedTypes := ["docx"; "pptx"];
     qrCounter := 1 |}.

Record pcontext := { context : value; documentType : string }.

Record world := {
  this : qr_module;
  archive : zip;
  console : list string;
  allocated : list (string * string)
}.

Definition with_counter (m : qr_module) (n : nat) : qr_module :=
  {| name := name m; priority := priority m;
     supportedTypes := supportedTypes m; qrCounter := n |}.

(** [/\{%\s*qrcode\s+([^%]+)\s*%\}/g] *)
Definition qrPattern : Regex.re :=
  Regex.seq [Regex.lit "{%"; Regex.Star true Regex.space; Regex.lit "qrcode";
             Regex.plus true Regex.space;
             Regex.Grp 1 (Regex.plus true (Regex.not_char "%"%char));
             Regex.Star true Regex.space; Regex.lit "%}"].

Definition hasTagsToProcess (content : string) : bool :=
  Regex.test qrPattern content.

Fixpoint walk (keys : list string) (value_ : value) : option value :=
  match keys with
  | [] => Some value_
  | key :: keys' =>
      if truthy value_ && String.eqb (typeof value_) "object"
         && has_property value_ key
      then walk keys' (get_property value_ key)
      else None
  end.

Definition _getQrData (variableName : string) (context_ : value)
  : option value :=
  match walk (split variableName ".") context_ with
  | Some (VString s) => Some (VObject [("text", VString s)])
  | Some (VArray items) =>
      if truthy (get_property (VArray items) "text")
      then Some (VArray items) else None
  | Some (VObject props) =>
      if truthy (get_property (VObject props) "text")
      then Some (VObject props) else None
  | _ => None
  end.

Definition warn (w : world) (line : string) : world :=
  {| this := this w; archive := archive w;
     console := console w ++ [line]; allocated := allocated w |}.

Definition _createQrCodeXml (qrData : value) (ctx : pcontext) (w : world)
  : string * world :=
  let text := get_property qrData "text" in
  let size := match get_property qrData "size" with
              | VUndefined => VNumber (num_of_nat 200)
              | s => s
              end in
  match QRCode_toBuffer text qrData with
  | Throw e => ("", warn w ("Failed to generate QR code: " ++ message_of e))
  | Ok qrBuffer =>
      let imageName := "qrcode" ++ index_key (qrCounter (this w)) ++ ".png" in
      let relationshipId := "rId" ++ index_key (2000 + qrCounter (this w)) in
      let '(archive', failure) :=
        _addQrCodeToDocument (archive w) imageName qrBuffer relationshipId in
      let w' := {| this := this w; archive := archive'; console := console w;
                   allocated := allocated w ++ [(imageName, relationshipId)] |} in
      match failure with
      | Some e => ("", warn w' ("Failed to generate QR code: " ++ message_of e))
      | None =>
          let dimensions_ := _calculateDimensions size size in
          if String.eqb (documentType ctx) "docx" then
            (_createDocxQrCodeXml (qrCounter (this w)) relationshipId
                                  dimensions_ text, w')
          else if String.eqb (documentType ctx) "pptx" then
            (_createPptxQrCodeXml (qrCounter (this w)) relationshipId
                                  dimensions_ text, w')
          else
            ("", {| this := with_counter (this w') (S (qrCounter (this w')));
                    archive := archive w'; console := console w';
                    allocated := allocated w' |})
      end
  end.

Definition process_match (ctx : pcontext) (acc : string * world)
    (m : Regex.regex_match) : string * world :=
  let '(processedContent, w) := acc in
  let variableName := trim (TemplateParser.group m 1) in
  match _getQrData variableName (context ctx) with
  | Some qrData =>
      let '(qrImageXml, w') := _createQrCodeXml qrData ctx w in
      (replace processedContent (Regex.rm_text m) qrImageXml, w')
  | None => (replace processedContent (Regex.rm_text m) "", w)
  end.

Definition process (content : string) (ctx : pcontext) (w : world)
  : string * world :=
  fold_left (process_match ctx)
            (Regex.exec_all (S (String.length content)) qrPattern content 0)
            (content, w).
End WithCollaborators.
End QrCodeModule.

(** ** A host for the examples

    Numbers are the integers; the conversions agree with the language on
    integer numerals, the comparisons on two numbers, two strings or two
    booleans, and serialization on data without special characters.  The
    general theorems do not depend on this instance. *)

Module IntegerHost.
Import JSString JSValue.

Definition Z_to_string (z : Z) : string :=
  if (z <? 0)%Z then "-" ++ index_key (Z.to_nat (- z))
  else index_key (Z.to_nat z).

Definition unsigned (s : string) : string :=
  match s with
  | String "-" s' => s'
  | String "+" s' => s'
  | _ => s
  end.

Definition is_integer_numeral (s : string) : bool :=
  match unsigned s with
  | EmptyString => false
  | d => match digits_value d 0 with Some _ => true | None => false end
  end.

Definition integer_value (s : string) : Z :=
  match digits_value (unsigned s) 0 with
  | Some n => match s with
              | String "-" _ => (- Z.of_nat n)%Z
              | _ => Z.of_nat n
              end
  | None => 0%Z
  end.

#[export] Instance numbers : Numbers := {|
  number := Z;
  num_of_nat := Z.of_nat;
  num_to_string := Z_to_string;
  num_truthy := fun z => negb (z =? 0)%Z;
  isNaN_str := fun s => negb (is_integer_numeral (trim s));
  parseFloat := fun s => integer_value (trim s)
|}.

Fixpoint string_ltb (a b : string) : bool :=
  match a, b with
  | _, EmptyString => false
  | EmptyString, String _ _ => true
  | String x a', String y b' =>
      (nat_of_ascii x <? nat_of_ascii y)%nat
      || ((nat_of_ascii x =? nat_of_ascii y)%nat && string_ltb a' b')
  end.

Definition equal (l r : value) : option bool :=
  match l, r with
  | VNumber a, VNumber b => Some (a =? b)%Z
  | VString a, VString b => Some (String.eqb a b)
  | VBool a, VBool b => Some (Bool.eqb a b)
  | (VNull | VUndefined), (VNull | VUndefined) => Some true
  | _, _ => None
  end.

Definition less (l r : value) : option bool :=
  match l, r with
  | VNumber a, VNumber b => Some (a <? b)%Z
  | VString a, VString b => Some (string_ltb a b)
  | _, _ => None
  end.

Definition compare (op : operator) (l r : value) : result bool :=
  let answer :=
    match op with
    | OpEq => equal l r
    | OpNe => option_map negb (equal l r)
    | OpLt => less l r
    | OpGt => less r l
    | OpLe => option_map negb (less r l)
    | OpGe => option_map negb (less l r)
    end in
  match answer with
  | Some b => Ok b
  | None => Throw (TypeError "comparison outside the example host")
  end.

Definition quote (s : string) : string :=
  ContextProcessor.dquote ++ s ++ ContextProcessor.dquote.

Fixpoint join (sep : string) (l : list string) : string :=
  match l with
  | [] => ""
  | [s] => s
  | s :: l' => s ++ sep ++ join sep l'
  end.

Fixpoint stringify (v : value) : string :=
  match v with
  | VUndefined | VNull | VFunction _ => "null"
  | VBool true => "true"
  | VBool false => "false"
  | VNumber n => Z_to_string n
  | VString s => quote s
  | VArray items => "[" ++ join "," (map stringify items) ++ "]"
  | VObject props =>
      "{" ++ join ","
               (flat_map (fun kv =>
                            let member := quote (fst kv) ++ ":" ++ stringify (snd kv) in
                            match snd kv with
                            | VUndefined | VFunction _ => []
                            | _ => [member]
                            end) props) ++ "}"
  end.

Definition prototype_members : list string :=
  ["constructor"; "hasOwnProperty"; "isPrototypeOf"; "propertyIsEnumerable";
   "toLocaleString"; "toString"; "valueOf"].

Definition from_prototype (v : value) (key : string) : option value :=
  match v with
  | VArray _ | VObject _ =>
      if existsb (String.eqb key) prototype_members
      then Some (VFunction key) else None
  | _ => None
  end.

Fixpoint to_string (v : value) : string :=
  match v with
  | VUndefined => "undefined"
  | VNull => "null"
  | VBool true => "true"
  | VBool false => "false"
  | VNumber n => Z_to_string n
  | VString s => s
  | VArray items =>
      join "," (map (fun x => match x with
                              | VUndefined | VNull => ""
                              | _ => to_string x
                              end) items)
  | VObject _ => "[object Object]"
  | VFunction f => "function " ++ f ++ "() { [native code] }"
  end.

#[export] Instance host : Host := {|
  js_compare := compare;
  JSON_stringify := stringify;
  inherited := from_prototype;
  ToString_object := fun v => Ok (to_string v);
  call_function := fun f this_ arg =>
    if String.eqb f "hasOwnProperty"
    then Ok (VBool (match own_property this_ arg with
                    | Some _ => true | None => false end))
    else Ok VUndefined
|}.

(** Number literals of the examples. *)
Definition num (z : Z) : value := VNumber z.

End IntegerHost.

(** ** Notions used to state the theorems *)

Module Notions.
Import JSString JSValue.

Section WithNumbers.
Context `{N : Numbers}.

(** Following a path through own properties only; [None] when a segment is
    not an own property of the value reached so far (a missing key, a
    value that is neither object nor array, an index outside an array). *)
Fixpoint own_path (parts : list string) (current : value) : option value :=
  match parts with
  | [] => Some current
  | part :: parts' =>
      match own_property current part with
      | Some next => own_path parts' next
      | None => None
      end
  end.


(** The caller's default, [undefined] when omitted. *)
Definition default_of (d : option value) : value :=
  match d with Some v => v | None => VUndefined end.

Definition empty_like (v : value) : bool :=
  match v with
  | VNull | VUndefined => true
  | VString EmptyString => true
  | _ => false
  end.
End WithNumbers.




(** The priority a module declares, 100 when it declares none. *)
Definition declared_priority `{N : Numbers} (m : ModuleManager.module_) : Z :=
  match ModuleManager.priority m with Some p => p | None => 100%Z end.

(** Whether the module registered under [moduleName] takes part in a run. *)
Definition applicable `{N : Numbers} (mods : list (string * ModuleManager.module_))
    (ctx : ModuleManager.pcontext) (moduleName : string) : bool :=
  match ModuleManager.map_get moduleName mods with
  | Some module => ModuleManager._shouldProcessModule module ctx
  | None => false
  end.

(** The priority [register] compares: [module.priority || 100]. *)
Definition effective `{N : Numbers} (m : ModuleManager.module_) : Z :=
  ModuleManager.priority_or_100 (ModuleManager.priority m).

(** What holds after the modules [done] have been registered, in that
    order. *)
Record registered `{N : Numbers} (mgr : ModuleManager.manager)
    (done : list ModuleManager.module_) : Prop := {
  order_sorted :
    ModuleManager.processingOrder mgr
    = map ModuleManager.name (JSArray.sort effective done);
  modules_stored :
    forall x, In x done ->
      ModuleManager.map_get (ModuleManager.name x) (ModuleManager.modules mgr)
      = Some x
}.


(** [w'] continues [w]: the image counter has not gone down, what was
    allocated is still there, and the first new allocation, if any, carries
    the counter value of [w]. *)
Definition image_continues `{C : ImageModule.Collaborators}
    (w w' : ImageModule.world) : Prop :=
  ImageModule.imageCounter (ImageModule.this w)
  <= ImageModule.imageCounter (ImageModule.this w')
  /\ exists new,
       ImageModule.allocated w' = (ImageModule.allocated w ++ new)%list
       /\ (new = [] ->
           ImageModule.imageCounter (ImageModule.this w')
           = ImageModule.imageCounter (ImageModule.this w))
       /\ forall imageName relationshipId rest,
            new = (imageName, relationshipId) :: rest ->
            relationshipId
            = "rId" ++ index_key (1000 + ImageModule.imageCounter (ImageModule.this w))
            /\ exists extension,
                 imageName
                 = "image" ++ index_key (ImageModule.imageCounter (ImageModule.this w))
                   ++ "." ++ extension.

Definition qr_continues `{C : QrCodeModule.Collaborators}
    (w w' : QrCodeModule.world) : Prop :=
  QrCodeModule.qrCounter (QrCodeModule.this w)
  <= QrCodeModule.qrCounter (QrCodeModule.this w')
  /\ exists new,
       QrCodeModule.allocated w' = (QrCodeModule.allocated w ++ new)%list
       /\ (new = [] ->
           QrCodeModule.qrCounter (QrCodeModule.this w')
           = QrCodeModule.qrCounter (QrCodeModule.this w))
       /\ forall imageName relationshipId rest,
            new = (imageName, relationshipId) :: rest ->
            relationshipId
            = "rId" ++ index_key (2000 + QrCodeModule.qrCounter (QrCodeModule.this w))
            /\ imageName
               = "qrcode" ++ index_key (QrCodeModule.qrCounter (QrCodeModule.this w))
                 ++ ".png".

(** The registry is consistent: the map holds one entry per name, every
    module is stored under its own name, and [processingOrder] lists the
    names of the map, each of them once. *)
Definition consistent `{N : Numbers} (mgr : ModuleManager.manager) : Prop :=
  NoDup (map fst (ModuleManager.modules mgr))
  /\ NoDup (ModuleManager.processingOrder mgr)
  /\ (forall n, In n (ModuleManager.processingOrder mgr)
                <-> In n (map fst (ModuleManager.modules mgr)))
  /\ (forall n m, In (n, m) (ModuleManager.modules mgr) -> ModuleManager.name m = n).

(** A construct read off [content]: it has a span that starts inside the
    text, and its full match is the text found there. *)
Definition read_off (content : string) (t : Template.token) : Prop :=
  exists s,
    Template.token_span t = Some s
    /\ Template.index s <= String.length content
    /\ Template.length s = String.length (Template.fullMatch s)
    /\ Template.fullMatch s
       = String.substring (Template.index s) (Template.length s) content.

(** [token.length], as the loop of [parse] reads it. *)
Definition token_length (t : Template.token) : nat :=
  match Template.token_span t with
  | Some s => Template.length s
  | None => 0
  end.

(** The constructs [ms], taken in order, lie apart: each of them starts at
    or behind [position], the end of the one before. *)
Fixpoint apart (position : nat) (ms : list Template.token) : bool :=
  match ms with
  | [] => true
  | m :: ms' =>
      (position <=? Template.token_index m)%nat
      && apart (Template.token_index m + token_length m) ms'
  end.

Section Registry.
Context `{N : Numbers}.
(** The registries that calls of [register], [unregister] and [clear] lead
    to, from a new one. *)
Inductive reachable : ModuleManager.manager -> Prop :=
| reach_new : reachable ModuleManager.constructor
| reach_register (m : ModuleManager.module_) (mgr mgr' : ModuleManager.manager) :
    reachable mgr -> ModuleManager.register m mgr = Ok mgr' -> reachable mgr'
| reach_unregister (moduleName : string) (mgr : ModuleManager.manager) :
    reachable mgr -> reachable (ModuleManager.unregister moduleName mgr)
| reach_clear (mgr : ModuleManager.manager) :
    reachable mgr -> reachable (ModuleManager.clear mgr).
End Registry.

(** [w'] repeats the identifiers of [w]: the image counter is the same,
    and every allocation that [w'] adds carries the relationship identifier
    built from it. *)
Definition image_ids_repeat `{C : ImageModule.Collaborators}
    (w w' : ImageModule.world) : Prop :=
  ImageModule.imageCounter (ImageModule.this w')
  = ImageModule.imageCounter (ImageModule.this w)
  /\ exists new,
       ImageModule.allocated w' = (ImageModule.allocated w ++ new)%list
       /\ Forall (fun a => snd a = "rId" ++ index_key
                                     (1000 + ImageModule.imageCounter (ImageModule.this w)))
                 new.

(** Likewise for the QR module, where the file name is built from the
    counter alone. *)
Definition qr_ids_repeat `{C : QrCodeModule.Collaborators}
    (w w' : QrCodeModule.world) : Prop :=
  QrCodeModule.qrCounter (QrCodeModule.this w')
  = QrCodeModule.qrCounter (QrCodeModule.this w)
  /\ exists new,
       QrCodeModule.allocated w' = (QrCodeModule.allocated w ++ new)%list
       /\ Forall (fun a =>
                    a = ("qrcode" ++ index_key (QrCodeModule.qrCounter (QrCodeModule.this w))
                         ++ ".png",
                         "rId" ++ index_key
                                    (2000 + QrCodeModule.qrCounter (QrCodeModule.this w))))
                 new.

End Notions.

(** ** Example data *)

Module Examples.
Import IntegerHost.

Definition hello : string := "Hello {{name}}!".
Definition unclosed : string := "Text with {{unclosed tag".
Definition nested_blocks : string := "{%loop x in xs%}{%if a%}b{%endif%}{%endloop%}".

Definition scenario2 : string := "{%loop x in items%}{{x}},{%endloop%}".
Definition scenario2_context : value :=
  VObject [("items", VArray [num 1; num 2; num 3])].

Definition scenario6 : string :=
  "{%loop a in b%}{%loop c in a%}{{c}}{%endloop%}{%endloop%}".
Definition scenario6_context : value :=
  VObject [("b", VArray [VArray [num 1; num 2]; VArray [num 3]])].

Definition lenient : ContextProcessor.options := ContextProcessor.default_options.
Definition strict : ContextProcessor.options :=
  {| ContextProcessor.nullGetter := fun _ => "";
     ContextProcessor.errorOnMissingData := true |}.

(** [new DocxTemplaterPro(o).setContext(c)] *)
Definition templater (o : ContextProcessor.options) (c : value)
  : DocxTemplaterPro.templater :=
  DocxTemplaterPro.setContext c (DocxTemplaterPro.constructor o).

(** A module whose [process] always throws, and one that appends a mark. *)
Definition failing_module : ModuleManager.module_ :=
  {| ModuleManager.name := "boom";
     ModuleManager.priority := Some 10%Z;
     ModuleManager.supportedTypes := None;
     ModuleManager.hasTagsToProcess := None;
     ModuleManager.process_ := Some (fun _ _ => Throw (Error "no luck")) |}.

Definition marking_module : ModuleManager.module_ :=
  {| ModuleManager.name := "mark";
     ModuleManager.priority := Some 20%Z;
     ModuleManager.supportedTypes := Some ["docx"];
     ModuleManager.hasTagsToProcess := None;
     ModuleManager.process_ := Some (fun c _ => Ok (c ++ "!")) |}.

(** [t.attachModule(m)], leaving [t] as it is when the call throws. *)
Definition attach (m : ModuleManager.module_) (t : DocxTemplaterPro.templater)
  : DocxTemplaterPro.templater :=
  match DocxTemplaterPro.attachModule m t with
  | Ok t' => t'
  | Throw _ => t
  end.

Definition faulty_templater : DocxTemplaterPro.templater :=
  attach marking_module (attach failing_module (templater lenient (VObject []))).

Definition docx_context : ModuleManager.pcontext :=
  {| ModuleManager.context := VObject [];
     ModuleManager.documentType := "docx";
     ModuleManager.content := None;
     ModuleManager.errorOnMissingData := false |}.

(** A module that leaves the text as it is. *)
Definition plain_module (name_ : string) (priority_ : Z) : ModuleManager.module_ :=
  {| ModuleManager.name := name_;
     ModuleManager.priority := Some priority_;
     ModuleManager.supportedTypes := None;
     ModuleManager.hasTagsToProcess := None;
     ModuleManager.process_ := Some (fun c _ => Ok c) |}.

(** The modules of the test "should attach a module and sort by priority". *)
Definition base_module (name_ : string) (priority_ : Z) : BaseModule.t :=
  {| BaseModule.name := name_;
     BaseModule.tags := [];
     BaseModule.supportedFileTypes := ["docx"; "pptx"; "xlsx"];
     BaseModule.priority := priority_;
     BaseModule.shouldProcess :=
       BaseModule.default_shouldProcess [] ["docx"; "pptx"; "xlsx"];
     BaseModule.preparse := fun c _ => Ok c;
     BaseModule.render := fun c _ _ => Ok c;
     BaseModule.postrender := fun c _ => Ok c |}.

Definition empty_core : NewTemplaterCore.core :=
  {| NewTemplaterCore.modules := [];
     NewTemplaterCore.context := VObject [];
     NewTemplaterCore.fileType := "docx" |}.

(** [s.replace(pattern, replacement)] for strings without a dollar sign. *)
Definition replace_first (s pattern replacement : string) : string :=
  match JSString.indexOf s pattern 0 with
  | None => s
  | Some i =>
      String.substring 0 i s ++ replacement
      ++ JSString.substring_from s (i + String.length pattern)
  end.

(** Collaborators that always succeed and emit a short marker. *)
#[export] Instance image_collaborators : ImageModule.Collaborators := {|
  ImageModule.buffer := unit;
  ImageModule.zip := unit;
  ImageModule.dimensions := unit;
  ImageModule._getImageBuffer := fun _ => Ok tt;
  ImageModule._getImageExtension := fun _ => "png";
  ImageModule._addImageToDocument := fun z _ _ _ => (z, None);
  ImageModule._calculateDimensions := fun _ _ _ => tt;
  ImageModule._createDocxImageXml := fun _ rid _ _ => "<pic " ++ rid ++ "/>";
  ImageModule._createPptxImageXml := fun _ rid _ _ => "<pic " ++ rid ++ "/>";
  ImageModule.replace := replace_first
|}.

#[export] Instance qr_collaborators : QrCodeModule.Collaborators := {|
  QrCodeModule.buffer := unit;
  QrCodeModule.zip := unit;
  QrCodeModule.dimensions := unit;
  QrCodeModule.QRCode_toBuffer := fun _ _ => Ok tt;
  QrCodeModule._addQrCodeToDocument := fun z _ _ _ => (z, None);
  QrCodeModule._calculateDimensions := fun _ _ => tt;
  QrCodeModule._createDocxQrCodeXml := fun _ rid _ _ => "<qr " ++ rid ++ "/>";
  QrCodeModule._createPptxQrCodeXml := fun _ rid _ _ => "<qr " ++ rid ++ "/>";
  QrCodeModule.replace := replace_first
|}.

Definition pictures : value :=
  VObject [("pic", VString "logo.png"); ("code", VString "https://example.org")].

(** A fresh image module in an empty world, and a fresh QR module. *)
Definition image_world : ImageModule.world :=
  {| ImageModule.this := ImageModule.constructor;
     ImageModule.archive := tt;
     ImageModule.console := [];
     ImageModule.allocated := [] |}.

Definition qr_world : QrCodeModule.world :=
  {| QrCodeModule.this := QrCodeModule.constructor;
     QrCodeModule.archive := tt;
     QrCodeModule.console := [];
     QrCodeModule.allocated := [] |}.

(** A registry that holds two modules. *)
Definition two_modules : ModuleManager.manager :=
  {| ModuleManager.modules :=
       [("a", plain_module "a" 10); ("b", plain_module "b" 20)];
     ModuleManager.processingOrder := ["a"; "b"] |}.

End Examples.

(* ================================================================== *)
(** * Part II.  Theorems                                               *)
(* ================================================================== *)

(** ** Strings *)

Module StringFacts.

Lemma append_nil_r (s : string) : s ++ "" = s.
Proof. induction s as [|c s IH]; simpl; [reflexivity | now rewrite IH]. Qed.

Lemma append_assoc (a b c : string) : (a ++ b) ++ c = a ++ (b ++ c).
Proof. induction a as [|x a IH]; simpl; [reflexivity | now rewrite IH]. Qed.

End StringFacts.

(** ** The cursor based tokenizer *)

Module TagParserFacts.
Import TagParser Examples.

Lemma parse_step_unclosed_stuck (toks : list token) :
  parse_step default_options unclosed {| tokens := toks; cursor := 10 |}
  = {| tokens := toks ++ [text ""]; cursor := 10 |}.
Proof. reflexivity. Qed.

Lemma parse_loop_unclosed_stuck (fuel : nat) :
  forall toks,
    parse_loop fuel default_options unclosed {| tokens := toks; cursor := 10 |}
    = None.
Proof.
  induction fuel as [|fuel IH]; intros toks.
  - reflexivity.
  - change (parse_loop (S fuel) default_options unclosed
              {| tokens := toks; cursor := 10 |})
      with (parse_loop fuel default_options unclosed
              (parse_step default_options unclosed
                 {| tokens := toks; cursor := 10 |})).
    rewrite parse_step_unclosed_stuck. apply IH.
Qed.

(** C1.  [TagParser.parse] searches each tag anywhere in the
    rest of the input instead of at the cursor.  On "Hello {{name}}!" it
    returns, for every number of iterations allowed from two on, the
    placeholder followed by the text "name}}!", whose raw spans concatenate
    to "{{name}}name}}!" and not to the input; on
    "Text with {{unclosed tag" the loop never ends: at cursor 10 each
    iteration pushes an empty text token and leaves the cursor where it is. *)
Theorem TagParser_parse_loses_input_and_diverges :
  (forall fuel, 2 <= fuel ->
     parse fuel hello
     = Some [placeholder {| value := "name"; fullMatch := "{{name}}";
                            start := 0; end_ := 8 |};
             text "name}}!"])
  /\ (forall ts, parse 2 hello = Some ts ->
        reconstruct ts = "{{name}}name}}!" /\ reconstruct ts <> hello)
  /\ (forall fuel, parse fuel unclosed = None).
Proof.
  split; [|split].
  - intros [|[|fuel]] Hf; try lia.
    destruct fuel; reflexivity.
  - intros ts Hts. vm_compute in Hts. injection Hts as <-.
    split; [reflexivity | discriminate].
  - intros [|fuel]; [reflexivity|].
    change (parse (S fuel) unclosed)
      with (parse_loop fuel default_options unclosed
              {| tokens := [text "Text with "]; cursor := 10 |}).
    apply parse_loop_unclosed_stuck.
Qed.

End TagParserFacts.

(** ** The regular-expression tokenizer *)

Module TemplateParserFacts.
Import TemplateParser Examples.

(** A conditional inside a loop is matched twice, once within the loop's
    match and once on its own, so the spans of the tokens overlap. *)
Lemma TemplateParser_parse_overlaps :
  reconstruct (parse nested_blocks)
  = nested_blocks ++ "{%if a%}b{%endif%}{%endloop%}"
  /\ reconstruct (parse nested_blocks) <> nested_blocks.
Proof. split; [vm_compute; reflexivity | vm_compute; discriminate]. Qed.

(** The paragraph placeholder is shadowed by the placeholder pattern. *)
Lemma paragraph_tag_is_read_as_placeholder :
  Template.tokens (parse "{{?bio}}")
  = [Template.placeholder "?bio"
       {| Template.index := 0; Template.length := 8;
          Template.fullMatch := "{{?bio}}" |}].
Proof. reflexivity. Qed.

End TemplateParserFacts.

(** ** The context processor *)

Module ContextProcessorFacts.
Import JSString JSValue Template ContextProcessor Notions.

Section WithHost.
Context `{H : Host}.

Lemma process_nested_parseContent (o : options) (c : string) (ctx : value) :
  process_nested o (_parseContent c) ctx = Ok c.
Proof. reflexivity. Qed.

(** With the nested call answering [content], the loop appends it once
    per item. *)
Lemma loop_items_repeat (self : parsed -> value -> result string)
    (content variable : string) (ctx : value) (n : nat) :
  (forall c, self (_parseContent content) c = Ok content) ->
  forall items i acc,
    loop_items self content variable ctx n i items acc
    = Ok (acc ++ JSString.repeat content (List.length items)).
Proof.
  intros Hself. induction items as [|item items IH]; intros i acc; simpl.
  - now rewrite StringFacts.append_nil_r.
  - rewrite Hself. simpl. rewrite IH. now rewrite StringFacts.append_assoc.
Qed.

Lemma assoc_obj_set_same (key : string) (v : value) (props : list (string * value)) :
  assoc key (obj_set key v props) = Some v.
Proof.
  induction props as [|[k w] props IH]; simpl.
  - now rewrite String.eqb_refl.
  - destruct (String.eqb k key) eqn:Hk; simpl; rewrite Hk; [reflexivity | exact IH].
Qed.

Lemma assoc_obj_set_other (key key' : string) (v : value)
    (props : list (string * value)) :
  key' <> key -> assoc key' (obj_set key v props) = assoc key' props.
Proof.
  intros Hne. induction props as [|[k w] props IH]; simpl.
  - destruct (String.eqb_spec key key'); [congruence | reflexivity].
  - destruct (String.eqb_spec k key) as [->|Hk]; simpl.
    + destruct (String.eqb_spec key key'); [congruence | reflexivity].
    + destruct (String.eqb k key'); [reflexivity | exact IH].
Qed.

(** The context built for an iteration binds the loop variable and the
    four loop fields, and keeps the other properties of the outer
    context. *)
Lemma loopContext_bindings (ctx : value) (variable : string) (item : value)
    (i n : nat) :
  ~ In variable ["$index"; "$first"; "$last"; "$length"] ->
  own_property (loopContext ctx variable item i n) variable = Some item
  /\ own_property (loopContext ctx variable item i n) "$index"
     = Some (VNumber (num_of_nat i))
  /\ own_property (loopContext ctx variable item i n) "$first"
     = Some (VBool (i =? 0)%nat)
  /\ own_property (loopContext ctx variable item i n) "$last"
     = Some (VBool (i =? n - 1)%nat)
  /\ own_property (loopContext ctx variable item i n) "$length"
     = Some (VNumber (num_of_nat n))
  /\ forall key,
       ~ In key [variable; "$index"; "$first"; "$last"; "$length"] ->
       own_property (loopContext ctx variable item i n) key
       = assoc key (own_enumerable ctx).
Proof.
  intros Hvar. unfold loopContext. cbn [own_property].
  repeat split.
  - rewrite !assoc_obj_set_other by (intros ->; apply Hvar; simpl; intuition).
    apply assoc_obj_set_same.
  - rewrite !assoc_obj_set_other by discriminate. apply assoc_obj_set_same.
  - rewrite !assoc_obj_set_other by discriminate. apply assoc_obj_set_same.
  - rewrite !assoc_obj_set_other by discriminate. apply assoc_obj_set_same.
  - apply assoc_obj_set_same.
  - intros key Hkey.
    rewrite !assoc_obj_set_other by (intros ->; apply Hkey; simpl; intuition).
    reflexivity.
Qed.

(** What [_processLoop] does on an array: the raw body, once per element. *)
Lemma _processLoop_repeats_content (o : options)
    (variable collection content : string) (ctx : value) (items : list value) :
  _getValue collection ctx = Ok (VArray items) ->
  _processLoop (process_nested o) o variable collection content ctx
  = Ok (JSString.repeat content (List.length items)).
Proof.
  intros Hc. unfold _processLoop. rewrite Hc. simpl.
  rewrite loop_items_repeat by (intros; apply process_nested_parseContent).
  reflexivity.
Qed.

(** Two callbacks that agree on the results of [_parseContent] give the
    same rendering. *)
Lemma loop_items_ext (f g : parsed -> value -> result string)
    (content variable : string) (ctx : value) (n : nat) :
  (forall c x, f (_parseContent c) x = g (_parseContent c) x) ->
  forall items i acc,
    loop_items f content variable ctx n i items acc
    = loop_items g content variable ctx n i items acc.
Proof.
  intros Hfg. induction items as [|item items IH]; intros i acc; simpl.
  - reflexivity.
  - rewrite Hfg. destruct (g _ _); simpl; [apply IH | reflexivity].
Qed.

Lemma process_token_ext (f g : parsed -> value -> result string) (o : options)
    (t : token) (ctx : value) :
  (forall c x, f (_parseContent c) x = g (_parseContent c) x) ->
  process_token f o t ctx = process_token g o t ctx.
Proof.
  intros Hfg. destruct t; simpl; try reflexivity.
  - unfold _processLoop. destruct (_getValue collection ctx) as [v|e]; simpl;
      [|reflexivity].
    destruct v; try reflexivity. now rewrite (loop_items_ext f g).
  - unfold _processConditional.
    destruct (_evaluateCondition condition ctx) as [b|e]; simpl; [|reflexivity].
    destruct (negb _); [|reflexivity]. now rewrite Hfg.
Qed.

Lemma process_tokens_ext (f g : parsed -> value -> result string) (o : options) :
  (forall c x, f (_parseContent c) x = g (_parseContent c) x) ->
  forall ts ctx acc,
    process_tokens f o ts ctx acc = process_tokens g o ts ctx acc.
Proof.
  intros Hfg. induction ts as [|t ts IH]; intros ctx acc; simpl.
  - reflexivity.
  - rewrite (process_token_ext f g) by assumption.
    destruct (process_token g o t ctx); simpl; [apply IH | reflexivity].
Qed.

(** [process] satisfies the recursive equation of the source: the calls
    made by [_processLoop] and [_processConditional] go to [process]
    itself. *)
Lemma process_unfold (o : options) (p : parsed) (ctx : value) :
  process_with (process o) o p ctx = process o p ctx.
Proof.
  unfold process at 2, process_with. apply process_tokens_ext.
  intros c x. reflexivity.
Qed.

End WithHost.
End ContextProcessorFacts.

(** ** Rendering one document part *)

Module PipelineFacts.

Lemma parse_missing :
  TemplateParser.parse "{{missing}}"
  = {| Template.tokens :=
         [Template.placeholder "missing"
            {| Template.index := 0; Template.length := 11;
               Template.fullMatch := "{{missing}}" |}];
       Template.originalContent := "{{missing}}" |}.
Proof. reflexivity. Qed.

Section WithHost.
Context `{H : Host}.

Lemma get_keys_absent (key : string) (keys : list string) (v : value) :
  JSValue.has_property v key = false ->
  exists e, ContextProcessor.get_keys (key :: keys) v = Throw e.
Proof.
  intros Hk. destruct v; simpl; rewrite ?Hk, ?andb_false_r; eauto.
Qed.

Lemma process_loop_no_modules (mods : list (string * ModuleManager.module_))
    (c : string) (ctx : ModuleManager.pcontext) :
  ModuleManager.process_loop mods [] c ctx [] []
  = {| ModuleManager.output := Ok c; ModuleManager.console := [];
       ModuleManager.calls := [] |}.
Proof. reflexivity. Qed.

(** C5.  For a templater without modules whose context has no
    property "missing": in lenient mode the part "{{missing}}" renders as what
    [nullGetter] returns and the error list is left as it was; in strict
    mode the call raises "Missing data for placeholder: missing" and that
    one error is appended to the list. *)
Theorem missing_placeholder_lenient_quiet_strict_raises
    (t : DocxTemplaterPro.templater) (documentType : string) :
  ModuleManager.processingOrder (DocxTemplaterPro.moduleManager t) = [] ->
  JSValue.has_property (DocxTemplaterPro.context t) "missing" = false ->
  (ContextProcessor.errorOnMissingData (DocxTemplaterPro.options t) = false ->
   DocxTemplaterPro.returned
     (DocxTemplaterPro._processXmlContent t "{{missing}}" documentType)
   = Ok (ContextProcessor.nullGetter (DocxTemplaterPro.options t) tt)
   /\ DocxTemplaterPro.errors
        (DocxTemplaterPro.after
           (DocxTemplaterPro._processXmlContent t "{{missing}}" documentType))
      = DocxTemplaterPro.errors t)
  /\ (ContextProcessor.errorOnMissingData (DocxTemplaterPro.options t) = true ->
      DocxTemplaterPro.returned
        (DocxTemplaterPro._processXmlContent t "{{missing}}" documentType)
      = Throw (Error "Missing data for placeholder: missing")
      /\ DocxTemplaterPro.errors
           (DocxTemplaterPro.after
              (DocxTemplaterPro._processXmlContent t "{{missing}}" documentType))
         = (DocxTemplaterPro.errors t
            ++ [{| DocxTemplaterPro.message := "Missing data for placeholder: missing";
                   DocxTemplaterPro.location := "XML processing";
                   DocxTemplaterPro.e_documentType := documentType |}])%list).
Proof.
  intros Horder Hmissing.
  destruct (get_keys_absent "missing" [] _ Hmissing) as [e He].
  unfold DocxTemplaterPro._processXmlContent. rewrite parse_missing.
  unfold ContextProcessor.process, ContextProcessor.process_with,
    ContextProcessor.process_tokens, ContextProcessor.process_token,
    ContextProcessor._processPlaceholder, ContextProcessor._getValue.
  cbn [Template.tokens].
  change (JSString.split "missing" ".") with ["missing"].
  rewrite He. cbn [bind try_catch].
  split; intros Hmode; rewrite Hmode; cbn [bind].
  - unfold ModuleManager.process. rewrite Horder, process_loop_no_modules.
    cbn. split; reflexivity.
  - unfold DocxTemplaterPro.caught. rewrite Hmode. cbn. split; reflexivity.
Qed.

End WithHost.

End PipelineFacts.

(** ** Paragraph placeholders *)

Module ParagraphFacts.
Import JSString JSValue Template ContextProcessor Notions.

Section WithHost.
Context `{H : Host}.

(** What [_processParagraphPlaceholder] does with a token that is handed
    to it: when the path resolves to [null], [undefined] or the empty
    string, or (in lenient mode) does not resolve, the text is empty; when
    it resolves to another value that formats to [s], the text is [s],
    which is also what an ordinary placeholder token with the same path
    renders to. *)
Lemma paragraph_placeholder_renders_text_only
    (o : options) (variable src : string) (m : span) (ctx : value) :
  let paragraph := {| tokens := [paragraphPlaceholder variable m];
                      originalContent := src |} in
  let ordinary := {| tokens := [placeholder variable m];
                     originalContent := src |} in
  (forall v, _getValue variable ctx = Ok v -> empty_like v = true ->
             process o paragraph ctx = Ok "")
  /\ (forall e, _getValue variable ctx = Throw e -> errorOnMissingData o = false ->
                process o paragraph ctx = Ok "")
  /\ (forall v s, _getValue variable ctx = Ok v -> empty_like v = false ->
                  _formatValue o v = Ok s ->
                  process o paragraph ctx = Ok s /\ process o ordinary ctx = Ok s).
Proof.
  cbv zeta. unfold process, process_with, process_tokens, process_token,
    _processParagraphPlaceholder, _processPlaceholder, _removeParagraph.
  cbn [tokens]. split; [|split].
  - intros v Hv He. rewrite Hv. cbn [bind try_catch].
    destruct v as [| | | |s| | |]; try discriminate; try reflexivity.
    destruct s; [reflexivity | discriminate].
  - intros e Hv Hmode. rewrite Hv, Hmode. reflexivity.
  - intros v s Hv Hne Hs. rewrite Hv. cbn [bind try_catch]. split.
    + destruct v as [| | | |s0| | |]; try discriminate;
        try (rewrite Hs; reflexivity).
      destruct s0; [discriminate|]. rewrite Hs. reflexivity.
    + rewrite Hs. reflexivity.
Qed.

End WithHost.
End ParagraphFacts.

(** ** The stable sort *)

Module SortFacts.
Import JSArray.
Local Open Scope list_scope.

Section Sort.
Context {A : Type} (key : A -> Z).
Local Abbreviation le_key := (JSArray.le_key key).

Lemma sort_snoc (l : list A) (x : A) :
  sort key (l ++ [x]) = insert key x (sort key l).
Proof. unfold sort. now rewrite fold_left_app. Qed.

Lemma in_insert (x y : A) (l : list A) :
  In y (insert key x l) <-> y = x \/ In y l.
Proof.
  induction l as [|a l IH]; simpl.
  - intuition.
  - destruct (key x <? key a)%Z; simpl; [intuition | rewrite IH; intuition].
Qed.

Lemma in_sort (y : A) (l : list A) : In y (sort key l) <-> In y l.
Proof.
  induction l as [|x l IH] using rev_ind; [reflexivity|].
  rewrite sort_snoc, in_insert, IH, in_app_iff. simpl. intuition.
Qed.

Lemma Forall_insert (P : A -> Prop) (x : A) (l : list A) :
  P x -> Forall P l -> Forall P (insert key x l).
Proof.
  intros Hx Hl. apply Forall_forall. intros y Hy.
  apply in_insert in Hy as [-> | Hy]; [assumption|].
  now apply (proj1 (Forall_forall P l) Hl).
Qed.

Lemma insert_sorted (x : A) (l : list A) :
  StronglySorted le_key l -> StronglySorted le_key (insert key x l).
Proof.
  induction 1 as [|a l Hl IH Ha]; simpl.
  - repeat constructor.
  - destruct (key x <? key a)%Z eqn:Hlt.
    + apply Z.ltb_lt in Hlt. constructor; [now constructor|].
      constructor; [unfold le_key; lia|].
      eapply Forall_impl; [|exact Ha]. unfold le_key. intros; lia.
    + apply Z.ltb_ge in Hlt. constructor; [exact IH|].
      now apply Forall_insert.
Qed.

(** The result is in ascending order of the key. *)
Lemma sort_sorted (l : list A) : StronglySorted le_key (sort key l).
Proof.
  induction l as [|x l IH] using rev_ind; [constructor|].
  rewrite sort_snoc. now apply insert_sorted.
Qed.

Lemma filter_none (l : list A) (k : Z) :
  Forall (fun y => key y <> k) l -> filter (fun y => (key y =? k)%Z) l = [].
Proof.
  induction 1 as [|a l Ha Hl IH]; simpl; [reflexivity|].
  destruct (key a =? k)%Z eqn:Hak; [apply Z.eqb_eq in Hak; contradiction|].
  exact IH.
Qed.

Lemma insert_filter (x : A) (l : list A) (k : Z) :
  StronglySorted le_key l ->
  filter (fun y => (key y =? k)%Z) (insert key x l)
  = filter (fun y => (key y =? k)%Z) l ++ (if (key x =? k)%Z then [x] else []).
Proof.
  induction 1 as [|a l Hl IH Ha]; simpl.
  - destruct (key x =? k)%Z; reflexivity.
  - destruct (key x <? key a)%Z eqn:Hlt.
    + apply Z.ltb_lt in Hlt. cbn [filter].
      destruct (key x =? k)%Z eqn:Hk; [|now rewrite app_nil_r].
      apply Z.eqb_eq in Hk.
      assert (Hnone : filter (fun y => (key y =? k)%Z) l = []).
      { apply filter_none. eapply Forall_impl; [|exact Ha].
        unfold le_key. intros; lia. }
      rewrite Hnone.
      destruct (key a =? k)%Z eqn:Hak; [apply Z.eqb_eq in Hak; lia|].
      reflexivity.
    + cbn [filter]. rewrite IH. now destruct (key a =? k)%Z.
Qed.

(** Elements with the same key keep the order they came in. *)
Lemma sort_stable (l : list A) (k : Z) :
  filter (fun y => (key y =? k)%Z) (sort key l)
  = filter (fun y => (key y =? k)%Z) l.
Proof.
  induction l as [|x l IH] using rev_ind; [reflexivity|].
  rewrite sort_snoc, insert_filter by apply sort_sorted.
  rewrite IH, filter_app. reflexivity.
Qed.

Lemma insert_last (x : A) (l : list A) :
  Forall (fun y => le_key y x) l -> insert key x l = l ++ [x].
Proof.
  induction 1 as [|a l Ha Hl IH]; simpl; [reflexivity|].
  unfold le_key in Ha.
  destruct (key x <? key a)%Z eqn:Hlt; [apply Z.ltb_lt in Hlt; lia|].
  now rewrite IH.
Qed.

Lemma sorted_snoc_inv (l : list A) (x : A) :
  StronglySorted le_key (l ++ [x]) ->
  StronglySorted le_key l /\ Forall (fun y => le_key y x) l.
Proof.
  induction l as [|a l IH]; simpl; intros Hs.
  - split; constructor.
  - apply StronglySorted_inv in Hs as [Hs Ha].
    destruct (IH Hs) as [Hl Hx]. split.
    + constructor; [assumption|].
      apply Forall_app in Ha. apply Ha.
    + constructor; [|assumption].
      apply Forall_app in Ha as [_ Ha]. now apply Forall_inv in Ha.
Qed.

(** Sorting a sorted array changes nothing. *)
Lemma sort_sorted_id (l : list A) : StronglySorted le_key l -> sort key l = l.
Proof.
  induction l as [|x l IH] using rev_ind; [reflexivity|].
  intros Hs. apply sorted_snoc_inv in Hs as [Hl Hx].
  rewrite sort_snoc, IH by assumption. now apply insert_last.
Qed.

End Sort.

Lemma insert_ext {A : Type} (key1 key2 : A -> Z) (x : A) (l : list A) :
  (forall y, In y (x :: l) -> key1 y = key2 y) ->
  insert key1 x l = insert key2 x l.
Proof.
  induction l as [|a l IH]; intros Hk; simpl; [reflexivity|].
  rewrite (Hk x), (Hk a) by (simpl; auto).
  destruct (key2 x <? key2 a)%Z; [reflexivity|].
  rewrite IH; [reflexivity|]. intros y [-> | Hy]; apply Hk; simpl; auto.
Qed.

Lemma sort_ext {A : Type} (key1 key2 : A -> Z) (l : list A) :
  (forall y, In y l -> key1 y = key2 y) -> sort key1 l = sort key2 l.
Proof.
  induction l as [|x l IH] using rev_ind; intros Hk; [reflexivity|].
  assert (Hl : sort key1 l = sort key2 l)
    by (apply IH; intros y Hy; apply Hk, in_app_iff; auto).
  rewrite !sort_snoc, Hl.
  apply insert_ext. intros y [-> | Hy].
  - apply Hk, in_app_iff. simpl; auto.
  - apply Hk, in_app_iff. left. exact (proj1 (in_sort key2 y l) Hy).
Qed.

End SortFacts.

(** ** The module manager *)

Module ModuleManagerFacts.
Import ModuleManager Notions.

Section WithNumbers.
Context `{N : Numbers}.

(** In lenient mode a run never raises, and it calls every applicable
    module, in the order of [processingOrder]. *)
Lemma process_loop_lenient (mods : list (string * module_)) (ctx : pcontext) :
  errorOnMissingData ctx = false ->
  forall order c console_ calls_,
    (exists s, output (process_loop mods order c ctx console_ calls_) = Ok s)
    /\ calls (process_loop mods order c ctx console_ calls_)
       = (calls_ ++ filter (applicable mods ctx) order)%list.
Proof.
  intros Hmode. induction order as [|moduleName order IH];
    intros c console_ calls_; cbn [process_loop filter].
  - split; [eexists; reflexivity | now rewrite app_nil_r].
  - unfold applicable at 1.
    destruct (map_get moduleName mods) as [module|]; [|apply IH].
    destruct (_shouldProcessModule module ctx); [|apply IH].
    assert (Hsnoc : forall l, ((calls_ ++ [moduleName]) ++ l
                               = calls_ ++ moduleName :: l)%list)
      by (intros l; now rewrite <- app_assoc).
    destruct (match process_ module with
              | Some f => f c ctx
              | None => Throw (TypeError "module.process is not a function")
              end) as [c'|e].
    + specialize (IH c' console_ (calls_ ++ [moduleName])%list).
      rewrite Hsnoc in IH. exact IH.
    + rewrite Hmode.
      specialize (IH c (console_ ++ [failed moduleName e])%list
                     (calls_ ++ [moduleName])%list).
      rewrite Hsnoc in IH. exact IH.
Qed.

(** One step of the loop at a module whose [process] throws. *)
Lemma process_loop_failure_step
    (mods : list (string * module_)) (moduleName : string) (order : list string)
    (module : module_) (f : string -> pcontext -> result string)
    (c : string) (ctx : pcontext) (console_ calls_ : list string) (e : error) :
  map_get moduleName mods = Some module ->
  _shouldProcessModule module ctx = true ->
  process_ module = Some f ->
  f c ctx = Throw e ->
  process_loop mods (moduleName :: order) c ctx console_ calls_
  = if errorOnMissingData ctx
    then {| output := Throw (Error (failed moduleName e));
            console := console_;
            calls := (calls_ ++ [moduleName])%list |}
    else process_loop mods order c ctx
           (console_ ++ [failed moduleName e])%list
           (calls_ ++ [moduleName])%list.
Proof.
  intros Hget Hshould Hf He. cbn [process_loop].
  rewrite Hget, Hshould, Hf, He. reflexivity.
Qed.

(** *** Registration *)

Lemma map_get_set_same (k : string) (v : module_) (m : list (string * module_)) :
  map_get k (map_set k v m) = Some v.
Proof.
  induction m as [|[k' w] m IH]; simpl.
  - now rewrite String.eqb_refl.
  - destruct (String.eqb k' k) eqn:Hk; simpl; rewrite Hk; [reflexivity | exact IH].
Qed.

Lemma map_get_set_other (k k' : string) (v : module_) (m : list (string * module_)) :
  k' <> k -> map_get k' (map_set k v m) = map_get k' m.
Proof.
  intros Hne. induction m as [|[k0 w] m IH]; simpl.
  - destruct (String.eqb_spec k k'); [congruence | reflexivity].
  - destruct (String.eqb_spec k0 k) as [->|Hk0]; simpl.
    + destruct (String.eqb_spec k k'); [congruence | reflexivity].
    + destruct (String.eqb k0 k'); [reflexivity | exact IH].
Qed.

(** The index found by the search is where the stable insertion puts the
    new module. *)
Lemma find_insertIndex_insert (mods : list (string * module_)) (m : module_) :
  forall L i0,
    (forall x, In x L -> map_get (name x) mods = Some x) ->
    exists k,
      find_insertIndex mods (effective m) (map name L) i0 = Ok (i0 + k)
      /\ splice_insert k (name m) (map name L)
         = map name (JSArray.insert effective m L).
Proof.
  induction L as [|a L IH]; intros i0 Hmods; simpl.
  - exists 0. now rewrite Nat.add_0_r.
  - rewrite (Hmods a) by (simpl; auto). fold (effective a).
    destruct (effective m <? effective a)%Z.
    + exists 0. now rewrite Nat.add_0_r.
    + destruct (IH (S i0)) as (k & Hfind & Hsplice);
        [intros x Hx; apply Hmods; simpl; auto|].
      exists (S k). rewrite Hfind. split; [f_equal; lia|].
      unfold splice_insert in *. simpl. now rewrite Hsplice.
Qed.

Lemma existsb_name_absent (n : string) (l : list string) :
  ~ In n l -> existsb (String.eqb n) l = false.
Proof.
  intros Hn. destruct (existsb (String.eqb n) l) eqn:He; [|reflexivity].
  apply existsb_exists in He as (x & Hx & Heq).
  apply String.eqb_eq in Heq. subst. contradiction.
Qed.

Lemma register_step (mgr : manager) (done : list module_) (m : module_) :
  registered mgr done ->
  name m <> "" -> process_ m <> None -> ~ In (name m) (map name done) ->
  exists mgr', register m mgr = Ok mgr' /\ registered mgr' (done ++ [m])%list.
Proof.
  intros [Horder Hstored] Hname Hproc Hfresh. unfold register.
  destruct (String.eqb_spec (name m) "") as [|_]; [contradiction|].
  destruct (process_ m) as [f|] eqn:Hf; [|contradiction].
  assert (Hother : forall x, In x done -> name x <> name m).
  { intros x Hx Heq. apply Hfresh. rewrite <- Heq. now apply in_map. }
  assert (Habsent : existsb (String.eqb (name m)) (processingOrder mgr) = false).
  { apply existsb_name_absent. rewrite Horder. intros Hin.
    apply in_map_iff in Hin as (x & Heq & Hx).
    apply SortFacts.in_sort in Hx. now apply (Hother x). }
  rewrite Habsent, Horder.
  destruct (find_insertIndex_insert (map_set (name m) m (modules mgr)) m
              (JSArray.sort effective done) 0) as (k & Hfind & Hsplice).
  { intros x Hx. apply SortFacts.in_sort in Hx.
    rewrite map_get_set_other by now apply Hother. now apply Hstored. }
  unfold effective in Hfind at 1. rewrite Hfind. simpl Nat.add.
  eexists. split; [reflexivity|]. constructor; simpl.
  - now rewrite Hsplice, SortFacts.sort_snoc.
  - intros x Hx. apply in_app_iff in Hx as [Hx | [<- | []]].
    + rewrite map_get_set_other by now apply Hother. now apply Hstored.
    + apply map_get_set_same.
Qed.

Lemma register_all_registered (ms : list module_) :
  forall done mgr,
    registered mgr done ->
    Forall (fun m => name m <> "" /\ process_ m <> None) ms ->
    NoDup (map name (done ++ ms)%list) ->
    exists mgr', register_all ms mgr = Ok mgr' /\ registered mgr' (done ++ ms)%list.
Proof.
  induction ms as [|m ms IH]; intros done mgr Hreg Hok Hnodup; simpl.
  - exists mgr. now rewrite app_nil_r.
  - apply Forall_cons_iff in Hok as [[Hname Hproc] Hok].
    assert (Hfresh : ~ In (name m) (map name done)).
    { rewrite map_app in Hnodup. simpl in Hnodup.
      apply NoDup_remove_2 in Hnodup. intros Hin. apply Hnodup.
      apply in_app_iff. now left. }
    destruct (register_step mgr done m Hreg Hname Hproc Hfresh)
      as (mgr1 & -> & Hreg1).
    replace (done ++ m :: ms)%list with ((done ++ [m]) ++ ms)%list
      by now rewrite <- app_assoc.
    apply IH; [assumption | assumption |].
    now rewrite <- app_assoc.
Qed.

(** Registering under a name that is already in the order. *)
Lemma register_again (mgr : manager) (m : module_) :
  In (name m) (processingOrder mgr) -> name m <> "" -> process_ m <> None ->
  exists mgr',
    register m mgr = Ok mgr'
    /\ processingOrder mgr' = processingOrder mgr
    /\ map_get (name m) (modules mgr') = Some m.
Proof.
  intros Hin Hname Hproc. unfold register.
  destruct (String.eqb_spec (name m) "") as [|_]; [contradiction|].
  destruct (process_ m) as [f|]; [|contradiction].
  assert (Hex : existsb (String.eqb (name m)) (processingOrder mgr) = true).
  { apply existsb_exists. exists (name m). split; [exact Hin|].
    apply String.eqb_refl. }
  rewrite Hex. eexists. split; [reflexivity|]. split; [reflexivity|].
  apply map_get_set_same.
Qed.

(** *** Attaching to [NewTemplaterCore] *)

Lemma attach_all_sorted (bs : list BaseModule.t) :
  forall done core,
    NewTemplaterCore.modules core = JSArray.sort BaseModule.priority done ->
    exists core',
      NewTemplaterCore.attach_all bs core = Ok core'
      /\ NewTemplaterCore.modules core'
         = JSArray.sort BaseModule.priority (done ++ bs)%list.
Proof.
  induction bs as [|b bs IH]; intros done core Hcore; simpl.
  - exists core. now rewrite app_nil_r.
  - replace (done ++ b :: bs)%list with ((done ++ [b]) ++ bs)%list
      by now rewrite <- app_assoc.
    apply IH. simpl. rewrite Hcore, !SortFacts.sort_snoc.
    rewrite SortFacts.sort_sorted_id by apply SortFacts.sort_sorted.
    reflexivity.
Qed.

(** C7.  Modules registered under pairwise distinct names,
    none with priority 0, are kept by [ModuleManager] in ascending order
    of the priority they declare (100 when they declare none), modules of
    equal priority in the order of registration; a lenient run calls the
    applicable ones in exactly that order.  Registering a name again
    replaces the module and leaves the order as it is.
    [NewTemplaterCore.attachModule] keeps its modules in ascending order of
    priority, equal priorities in the order of attachment. *)
Theorem modules_run_by_priority_then_registration
    (ms : list module_) (bs : list BaseModule.t) :
  Forall (fun m => name m <> "" /\ process_ m <> None /\ priority m <> Some 0%Z) ms ->
  NoDup (map name ms) ->
  (exists mgr,
      register_all ms constructor = Ok mgr
      /\ processingOrder mgr = map name (JSArray.sort declared_priority ms)
      /\ forall c ctx,
           errorOnMissingData ctx = false ->
           calls (process mgr c ctx)
           = filter (applicable (modules mgr) ctx)
                    (map name (JSArray.sort declared_priority ms)))
  /\ StronglySorted (fun a b => (declared_priority a <= declared_priority b)%Z)
                    (JSArray.sort declared_priority ms)
  /\ (forall p, filter (fun m => (declared_priority m =? p)%Z)
                       (JSArray.sort declared_priority ms)
                = filter (fun m => (declared_priority m =? p)%Z) ms)
  /\ (forall core,
        NewTemplaterCore.modules core = [] ->
        exists core',
          NewTemplaterCore.attach_all bs core = Ok core'
          /\ NewTemplaterCore.modules core' = JSArray.sort BaseModule.priority bs)
  /\ StronglySorted (fun a b => (BaseModule.priority a <= BaseModule.priority b)%Z)
                    (JSArray.sort BaseModule.priority bs)
  /\ (forall p, filter (fun b => (BaseModule.priority b =? p)%Z)
                       (JSArray.sort BaseModule.priority bs)
                = filter (fun b => (BaseModule.priority b =? p)%Z) bs)
  /\ (forall mgr m,
        In (name m) (processingOrder mgr) -> name m <> "" -> process_ m <> None ->
        exists mgr',
          register m mgr = Ok mgr'
          /\ processingOrder mgr' = processingOrder mgr
          /\ map_get (name m) (modules mgr') = Some m).
Proof.
  intros Hok Hnodup.
  assert (Hkey : forall m, In m ms -> effective m = declared_priority m).
  { intros m Hm. apply (proj1 (Forall_forall _ _) Hok) in Hm as (_ & _ & Hp).
    unfold effective, declared_priority, priority_or_100.
    destruct (priority m) as [p|]; [|reflexivity].
    destruct (Z.eqb_spec p 0) as [->|_]; [contradiction | reflexivity]. }
  assert (Hsort : JSArray.sort effective ms = JSArray.sort declared_priority ms)
    by now apply SortFacts.sort_ext.
  split; [|split; [|split; [|split; [|split; [|split]]]]].
  - destruct (register_all_registered ms [] constructor) as (mgr & Hmgr & Hreg).
    + constructor; [reflexivity | intros x []].
    + eapply Forall_impl; [|exact Hok]. intros m (Hn & Hp & _). now split.
    + exact Hnodup.
    + destruct Hreg as [Horder _]. simpl in Horder. rewrite Hsort in Horder.
      exists mgr. split; [exact Hmgr | split; [exact Horder|]].
      intros c ctx Hmode. unfold process.
      rewrite (proj2 (process_loop_lenient (modules mgr) ctx Hmode
                        (processingOrder mgr) c [] [])).
      now rewrite Horder.
  - apply (SortFacts.sort_sorted declared_priority).
  - intros p. apply SortFacts.sort_stable.
  - intros core Hcore. apply (attach_all_sorted bs [] core). now rewrite Hcore.
  - apply (SortFacts.sort_sorted BaseModule.priority).
  - intros p. apply SortFacts.sort_stable.
  - intros mgr m Hin Hname Hproc. apply register_again; assumption.
Qed.

End WithNumbers.
End ModuleManagerFacts.

(** ** Failing modules *)

Module ModuleFailureFacts.
Import Notions.

Section WithHost.
Context `{H : Host}.

(** C8.  When the [process] of an applicable module throws, the manager
    catches the error at that module.  In lenient mode it prints the
    warning "Module NAME failed: MESSAGE", goes on with the remaining modules
    on the text as it was before that module, and the run returns
    normally; when [context.errorOnMissingData] is set it raises an error
    with that message and calls no further module.  A lenient templater
    whose context processing succeeded returns normally and leaves its
    error list as it was, whatever its modules do. *)
Theorem module_failure_is_warned_or_raised
    (mods : list (string * ModuleManager.module_)) (moduleName : string)
    (order : list string) (module : ModuleManager.module_)
    (f : string -> ModuleManager.pcontext -> result string)
    (c : string) (ctx : ModuleManager.pcontext) (console_ calls_ : list string)
    (e : error) (t : DocxTemplaterPro.templater)
    (xmlContent documentType processed : string) :
  ModuleManager.map_get moduleName mods = Some module ->
  ModuleManager._shouldProcessModule module ctx = true ->
  ModuleManager.process_ module = Some f ->
  f c ctx = Throw e ->
  (ModuleManager.errorOnMissingData ctx = false ->
   ModuleManager.process_loop mods (moduleName :: order) c ctx console_ calls_
   = ModuleManager.process_loop mods order c ctx
       (console_ ++ ["Module " ++ moduleName ++ " failed: " ++ message_of e])
       (calls_ ++ [moduleName])
   /\ exists s,
        ModuleManager.output
          (ModuleManager.process_loop mods (moduleName :: order) c ctx
             console_ calls_) = Ok s)
  /\ (ModuleManager.errorOnMissingData ctx = true ->
      ModuleManager.process_loop mods (moduleName :: order) c ctx console_ calls_
      = {| ModuleManager.output :=
             Throw (Error ("Module " ++ moduleName ++ " failed: " ++ message_of e));
           ModuleManager.console := console_;
           ModuleManager.calls := (calls_ ++ [moduleName])%list |})
  /\ (ContextProcessor.errorOnMissingData (DocxTemplaterPro.options t) = false ->
      ContextProcessor.process (DocxTemplaterPro.options t)
        (TemplateParser.parse xmlContent) (DocxTemplaterPro.context t)
      = Ok processed ->
      DocxTemplaterPro.errors
        (DocxTemplaterPro.after
           (DocxTemplaterPro._processXmlContent t xmlContent documentType))
      = DocxTemplaterPro.errors t
      /\ exists s,
           DocxTemplaterPro.returned
             (DocxTemplaterPro._processXmlContent t xmlContent documentType)
           = Ok s).
Proof.
  intros Hget Hshould Hf He.
  pose proof (ModuleManagerFacts.process_loop_failure_step mods moduleName order
                module f c ctx console_ calls_ e Hget Hshould Hf He) as Hstep.
  split; [|split].
  - intros Hmode. rewrite Hmode in Hstep. split; [exact Hstep|].
    apply (ModuleManagerFacts.process_loop_lenient mods ctx Hmode).
  - intros Hmode. rewrite Hmode in Hstep. exact Hstep.
  - intros _ Hprocessed. unfold DocxTemplaterPro._processXmlContent.
    rewrite Hprocessed. unfold ModuleManager.process.
    match goal with
    | |- context [ModuleManager.process_loop ?m ?o ?x ?k [] []] =>
        destruct (proj1 (ModuleManagerFacts.process_loop_lenient m k eq_refl
                           o x [] [])) as [s Hs]
    end.
    rewrite Hs. split; [reflexivity | eexists; reflexivity].
Qed.

End WithHost.
End ModuleFailureFacts.

(** ** The context resolver *)

Module ContextResolverFacts.
Import JSString JSValue Notions ContextResolver.



Section WithNumbers.
Context `{N : Numbers}.






(** The three ways of not finding a segment. *)
Lemma own_property_of_scalar (v : value) (key : string) :
  (forall items, v <> VArray items) -> (forall props, v <> VObject props) ->
  own_property v key = None.
Proof.
  intros Ha Ho. destruct v; try reflexivity.
  - now destruct (Ha items).
  - now destruct (Ho props).
Qed.

Lemma own_property_missing_key (props : list (string * value)) (key : string) :
  assoc key props = None -> own_property (VObject props) key = None.
Proof. intros Hk. exact Hk. Qed.

Lemma own_property_out_of_range (items : list value) (key : string) (i : nat) :
  array_index key = Some i -> List.length items <= i ->
  own_property (VArray items) key = None.
Proof.
  intros Hi Hle. simpl.
  destruct (String.eqb_spec key "length") as [->|_]; [discriminate|].
  rewrite Hi. now apply nth_error_None.
Qed.

Lemma own_path_stops (keys : list string) (key : string) (rest : list string) :
  forall context current,
    own_path keys context = Some current ->
    own_property current key = None ->
    own_path (keys ++ key :: rest) context = None.
Proof.
  induction keys as [|k keys IH]; intros context current; simpl.
  - intros [= ->] Hk. now rewrite Hk.
  - destruct (own_property context k); [apply IH | discriminate].
Qed.
End WithNumbers.

Section WithHost.
Context `{H : Host}.





(** C10.  [resolve] returns the default, [undefined] when none
    is given, whenever the path is the empty string or not a string, or the
    context is [null] or [undefined]; whatever the context holds, also
    under the empty key. *)
Theorem resolve_guard_returns_default (context path : value) (d : option value) :
  path = VString "" \/ (forall s, path <> VString s)
  \/ context = VNull \/ context = VUndefined ->
  resolve context path d = Ok (default_of d).
Proof.
  intros [-> | [Hpath | [-> | ->]]]; unfold resolve, default_of; try reflexivity.
  - destruct (negb (truthy context)); reflexivity.
  - destruct (negb (truthy context)); [reflexivity|].
    destruct path; try reflexivity. now destruct (Hpath s).
Qed.

End WithHost.
End ContextResolverFacts.

(** ** Conditions *)

Module ConditionFacts.
Import JSString JSValue ContextProcessor Notions.
Local Open Scope js_scope.



Section WithHost.
Context `{H : Host}.





End WithHost.
End ConditionFacts.

(** ** The asset counters *)

Module AssetCounterFacts.
Import Notions.

Section Image.
Context `{C : ImageModule.Collaborators}.
Import ImageModule.

Lemma image_continues_refl (w : world) : image_continues w w.
Proof.
  split; [lia|]. exists []. rewrite app_nil_r.
  repeat split; try reflexivity; discriminate.
Qed.

Lemma image_continues_trans (w0 w1 w2 : world) :
  image_continues w0 w1 -> image_continues w1 w2 -> image_continues w0 w2.
Proof.
  intros (Hle1 & new1 & Ha1 & Hsame1 & Hhead1) (Hle2 & new2 & Ha2 & Hsame2 & Hhead2).
  split; [lia|]. exists (new1 ++ new2)%list. split; [|split].
  - now rewrite Ha2, Ha1, app_assoc.
  - intros Hnil. apply app_eq_nil in Hnil as [-> ->].
    now rewrite Hsame2, Hsame1.
  - intros imageName relationshipId rest Hnew.
    destruct new1 as [|x new1].
    + simpl in Hnew. rewrite <- (Hsame1 eq_refl). eapply Hhead2. exact Hnew.
    + simpl in Hnew. injection Hnew as -> _. eapply Hhead1. reflexivity.
Qed.

Ltac image_step :=
  split; [simpl; lia|]; eexists; split; [reflexivity|];
  split; [intros Hnil; try discriminate Hnil; reflexivity|];
  intros ? ? ? [= <- <- _]; split; [reflexivity | eexists; reflexivity].

Lemma createImageXml_continues (imageData : value) (ctx : pcontext) (w : world) :
  image_continues w (snd (_createImageXml imageData ctx w)).
Proof.
  unfold _createImageXml.
  destruct (_getImageBuffer (JSValue.get_property imageData "src")) as [imageBuffer|e].
  - destruct (_addImageToDocument _ _ _ _) as [archive' [e|]].
    + image_step.
    + destruct (String.eqb (documentType ctx) "docx"); [image_step|].
      destruct (String.eqb (documentType ctx) "pptx"); image_step.
  - split; [simpl; lia|]. exists []. simpl. rewrite app_nil_r.
    repeat split; try reflexivity; discriminate.
Qed.

Lemma image_process_match_continues (ctx : pcontext) (acc : string * world)
    (m : Regex.regex_match) :
  image_continues (snd acc) (snd (process_match ctx acc m)).
Proof.
  destruct acc as [processedContent w]. unfold process_match.
  destruct (_getImageData _ _) as [imageData|]; [|apply image_continues_refl].
  pose proof (createImageXml_continues imageData ctx w) as Hstep.
  destruct (_createImageXml imageData ctx w) as [imageXml w']. exact Hstep.
Qed.

Lemma image_fold_continues (ctx : pcontext) (ms : list Regex.regex_match) :
  forall acc,
    image_continues (snd acc) (snd (fold_left (process_match ctx) ms acc)).
Proof.
  induction ms as [|m ms IH]; intros acc; simpl; [apply image_continues_refl|].
  eapply image_continues_trans; [apply image_process_match_continues | apply IH].
Qed.

(** [process] continues the world it is given. *)
Lemma image_process_continues (content : string) (ctx : pcontext) (w : world) :
  image_continues w (snd (process content ctx w)).
Proof. unfold process. apply (image_fold_continues ctx _ (content, w)). Qed.

End Image.

Section Qr.
Context `{C : QrCodeModule.Collaborators}.
Import QrCodeModule.

Lemma qr_continues_refl (w : world) : qr_continues w w.
Proof.
  split; [lia|]. exists []. rewrite app_nil_r.
  repeat split; try reflexivity; discriminate.
Qed.

Lemma qr_continues_trans (w0 w1 w2 : world) :
  qr_continues w0 w1 -> qr_continues w1 w2 -> qr_continues w0 w2.
Proof.
  intros (Hle1 & new1 & Ha1 & Hsame1 & Hhead1) (Hle2 & new2 & Ha2 & Hsame2 & Hhead2).
  split; [lia|]. exists (new1 ++ new2)%list. split; [|split].
  - now rewrite Ha2, Ha1, app_assoc.
  - intros Hnil. apply app_eq_nil in Hnil as [-> ->].
    now rewrite Hsame2, Hsame1.
  - intros imageName relationshipId rest Hnew.
    destruct new1 as [|x new1].
    + simpl in Hnew. rewrite <- (Hsame1 eq_refl). eapply Hhead2. exact Hnew.
    + simpl in Hnew. injection Hnew as -> _. eapply Hhead1. reflexivity.
Qed.

Ltac qr_step :=
  split; [simpl; lia|]; eexists; split; [reflexivity|];
  split; [intros Hnil; try discriminate Hnil; reflexivity|];
  intros ? ? ? [= <- <- _]; split; reflexivity.

Lemma createQrCodeXml_continues (qrData : value) (ctx : pcontext) (w : world) :
  qr_continues w (snd (_createQrCodeXml qrData ctx w)).
Proof.
  unfold _createQrCodeXml.
  destruct (QRCode_toBuffer (JSValue.get_property qrData "text") qrData)
    as [qrBuffer|e].
  - destruct (_addQrCodeToDocument _ _ _ _) as [archive' [e|]].
    + qr_step.
    + destruct (String.eqb (documentType ctx) "docx"); [qr_step|].
      destruct (String.eqb (documentType ctx) "pptx"); qr_step.
  - split; [simpl; lia|]. exists []. simpl. rewrite app_nil_r.
    repeat split; try reflexivity; discriminate.
Qed.

Lemma qr_process_match_continues (ctx : pcontext) (acc : string * world)
    (m : Regex.regex_match) :
  qr_continues (snd acc) (snd (process_match ctx acc m)).
Proof.
  destruct acc as [processedContent w]. unfold process_match.
  destruct (_getQrData _ _) as [qrData|]; [|apply qr_continues_refl].
  pose proof (createQrCodeXml_continues qrData ctx w) as Hstep.
  destruct (_createQrCodeXml qrData ctx w) as [qrImageXml w']. exact Hstep.
Qed.

Lemma qr_fold_continues (ctx : pcontext) (ms : list Regex.regex_match) :
  forall acc,
    qr_continues (snd acc) (snd (fold_left (process_match ctx) ms acc)).
Proof.
  induction ms as [|m ms IH]; intros acc; simpl; [apply qr_continues_refl|].
  eapply qr_continues_trans; [apply qr_process_match_continues | apply IH].
Qed.

Lemma qr_process_continues (content : string) (ctx : pcontext) (w : world) :
  qr_continues w (snd (process content ctx w)).
Proof. unfold process. apply (qr_fold_continues ctx _ (content, w)). Qed.

End Qr.

Section Both.
Context `{H : Host}.
Context {CI : ImageModule.Collaborators} {CQ : QrCodeModule.Collaborators}.

(** C9.  The image and QR counters are fields of the module
    instance.  The constructors set them to 1; [process] never resets or
    lowers them, keeps what was allocated before, and gives its first new
    allocation the name and relationship identifier built from the value
    the field had when the call began.  So an invocation starts from what
    the previous invocation on the same instance left in the field. *)
Theorem asset_counters_are_instance_state :
  ImageModule.imageCounter ImageModule.constructor = 1
  /\ QrCodeModule.qrCounter QrCodeModule.constructor = 1
  /\ (forall content ctx w,
        image_continues w (snd (ImageModule.process content ctx w)))
  /\ (forall content ctx w,
        qr_continues w (snd (QrCodeModule.process content ctx w))).
Proof.
  split; [reflexivity | split; [reflexivity | split]].
  - intros. apply image_process_continues.
  - intros. apply qr_process_continues.
Qed.

End Both.
End AssetCounterFacts.

(** ** Text without tags *)

Module PlainTextFacts.
Import JSString.

Lemma substring_whole (s : string) : String.substring 0 (String.length s) s = s.
Proof. induction s as [|c s IH]; simpl; [reflexivity | now rewrite IH]. Qed.

Lemma substring_from_start (s : string) : substring_from s 0 = s.
Proof.
  unfold substring_from, substring. rewrite Nat.min_id. simpl Nat.min.
  simpl Nat.max. rewrite Nat.sub_0_r. apply substring_whole.
Qed.

(** A string without the opening brace holds no pattern that starts with
    it. *)
Lemma indexOf_brace_pattern (p s : string) :
  indexOf s "{" 0 = None -> indexOf s (String "{" p) 0 = None.
Proof.
  unfold indexOf. induction s as [|b s IH]; [reflexivity|].
  cbn [String.index String.prefix].
  destruct (ascii_dec "{" b) as [_|_].
  - replace (String.prefix "" s) with true by (destruct s; reflexivity).
    discriminate.
  - destruct (String.index 0 "{" s); [discriminate|].
    intros _. now rewrite IH.
Qed.

Lemma _matchTag_plain (s : string) (d : TagParser.delimiters) (p : string) :
  indexOf s "{" 0 = None -> TagParser.d_start d = String "{" p ->
  TagParser._matchTag s d = None.
Proof.
  intros Hs Hd. unfold TagParser._matchTag. rewrite Hd.
  now rewrite indexOf_brace_pattern.
Qed.

Section Search.
Variable input : string.

Lemma match_at_needs_brace (r1 r2 : Regex.re) (rest : string) (pos : nat) :
  match rest with String "{" _ => False | _ => True end ->
  Regex.match_at input (Regex.Seq (Regex.Seq (Regex.Chr "{") r1) r2) rest pos = None.
Proof.
  unfold Regex.match_at. cbn [Regex.run].
  destruct rest as [|b rest]; [reflexivity|].
  destruct (Ascii.eqb_spec "{"%char b) as [<-|_]; [contradiction | reflexivity].
Qed.

Lemma search_plain (r1 r2 : Regex.re) (rest : string) :
  indexOf rest "{" 0 = None ->
  forall pos,
    Regex.search input (Regex.Seq (Regex.Seq (Regex.Chr "{") r1) r2) rest pos = None.
Proof.
  unfold indexOf. induction rest as [|b rest IH]; intros Hrest pos.
  - cbn [Regex.search]. now rewrite match_at_needs_brace.
  - cbn [String.index String.prefix] in Hrest. cbn [Regex.search].
    destruct (ascii_dec "{" b) as [<-|Hb].
    + replace (String.prefix "" rest) with true in Hrest
        by (destruct rest; reflexivity).
      discriminate.
    + rewrite match_at_needs_brace.
      * apply IH. destruct (String.index 0 "{" rest); [discriminate | reflexivity].
      * destruct b as [[] [] [] [] [] [] [] []]; try exact I. now destruct Hb.
Qed.
End Search.

Lemma exec_all_plain (r1 r2 : Regex.re) (s : string) (fuel : nat) :
  indexOf s "{" 0 = None ->
  Regex.exec_all fuel (Regex.Seq (Regex.Seq (Regex.Chr "{") r1) r2) s 0 = [].
Proof.
  intros Hs. destruct fuel as [|fuel]; [reflexivity|].
  cbn [Regex.exec_all]. unfold Regex.exec.
  change (String.length s <? 0)%nat with false. cbn iota.
  rewrite substring_from_start, search_plain by assumption. reflexivity.
Qed.

Lemma test_plain (r1 r2 : Regex.re) (s : string) :
  indexOf s "{" 0 = None ->
  Regex.test (Regex.Seq (Regex.Seq (Regex.Chr "{") r1) r2) s = false.
Proof. intros Hs. unfold Regex.test. now rewrite search_plain. Qed.

End PlainTextFacts.

(** ** Parsing and rendering text without tags *)

Module PlainTextParsing.
Import JSString PlainTextFacts.

Lemma includes_false (s p : string) : includes s p = false -> indexOf s p 0 = None.
Proof. unfold includes. destruct (indexOf s p 0); [discriminate | reflexivity]. Qed.

Lemma parse_loop_done (fuel : nat) (o : TagParser.options) (content : string)
    (toks : list TagParser.token) :
  TagParser.parse_loop fuel o content
    {| TagParser.tokens := toks; TagParser.cursor := String.length content |}
  = Some toks.
Proof. destruct fuel; simpl; now rewrite Nat.ltb_irrefl. Qed.

Lemma parse_step_plain (content : string) :
  indexOf content "{" 0 = None ->
  TagParser.parse_step TagParser.default_options content
    {| TagParser.tokens := []; TagParser.cursor := 0 |}
  = {| TagParser.tokens := [TagParser.text content];
       TagParser.cursor := String.length content |}.
Proof.
  intros Hc. unfold TagParser.parse_step.
  cbn [TagParser.cursor TagParser.tokens]. rewrite substring_from_start.
  rewrite (_matchTag_plain content
             (TagParser.o_rawXmlDelimiter TagParser.default_options) "@" Hc eq_refl),
    (_matchTag_plain content
       (TagParser.o_moduleDelimiters TagParser.default_options) "%" Hc eq_refl),
    (_matchTag_plain content
       (TagParser.o_delimiters TagParser.default_options) "{" Hc eq_refl).
  unfold TagParser._findNextDelimiter. cbn [TagParser.default_options
    TagParser.o_rawXmlDelimiter TagParser.o_moduleDelimiters
    TagParser.o_delimiters TagParser.d_start].
  rewrite !indexOf_brace_pattern by exact Hc. reflexivity.
Qed.

(** X1.  On a text that holds no opening brace [TagParser.parse] leaves its
    loop after one iteration at most, with the whole text as a single text
    token (no token for the empty text), and the raw spans of the tokens
    give the text back. *)
Theorem TagParser_parse_plain_text (content : string) (fuel : nat) :
  includes content "{" = false ->
  TagParser.parse (S fuel) content
  = Some (match content with
          | EmptyString => []
          | _ => [TagParser.text content]
          end)
  /\ (forall ts, TagParser.parse (S fuel) content = Some ts ->
                 TagParser.reconstruct ts = content).
Proof.
  intros Hc. apply includes_false in Hc.
  assert (Hparse : TagParser.parse (S fuel) content
                   = Some (match content with
                           | EmptyString => []
                           | _ => [TagParser.text content]
                           end)).
  { unfold TagParser.parse. destruct content as [|c content]; [reflexivity|].
    cbn [TagParser.parse_loop TagParser.cursor String.length Nat.ltb Nat.leb].
    rewrite parse_step_plain by exact Hc. apply parse_loop_done. }
  split; [exact Hparse|].
  intros ts Hts. rewrite Hparse in Hts. injection Hts as <-.
  destruct content as [|c content]; [reflexivity|].
  unfold TagParser.reconstruct. cbn [map TagParser.raw_span JSString.concat].
  apply StringFacts.append_nil_r.
Qed.

Lemma _findAllMatches_plain (content : string) :
  indexOf content "{" 0 = None -> TemplateParser._findAllMatches content = [].
Proof.
  intros Hc. unfold TemplateParser._findAllMatches, TemplateParser.collect.
  unfold TemplateParser.loop_re, TemplateParser.conditional_re,
    TemplateParser.moduleTag_re, TemplateParser.placeholder_re,
    TemplateParser.rawXml_re, TemplateParser.paragraphPlaceholder_re.
  cbn [Regex.seq Regex.lit].
  rewrite !exec_all_plain by exact Hc. reflexivity.
Qed.

Lemma parse_plain (content : string) :
  indexOf content "{" 0 = None ->
  TemplateParser.parse content
  = {| Template.tokens := match content with
                          | EmptyString => []
                          | _ => [Template.text content (Some 0)]
                          end;
       Template.originalContent := content |}.
Proof.
  intros Hc. unfold TemplateParser.parse. rewrite _findAllMatches_plain by exact Hc.
  cbn [JSArray.sort fold_left TemplateParser.build].
  rewrite substring_from_start.
  destruct content as [|c content]; reflexivity.
Qed.

(** X2.  On a text that holds no opening brace [TemplateParser.parse]
    returns the whole text as one text token at index 0 (no token for the
    empty text), and the raw spans of the tokens give the text back. *)
Theorem TemplateParser_parse_plain_text (content : string) :
  includes content "{" = false ->
  TemplateParser.parse content
  = {| Template.tokens := match content with
                          | EmptyString => []
                          | _ => [Template.text content (Some 0)]
                          end;
       Template.originalContent := content |}
  /\ TemplateParser.reconstruct (TemplateParser.parse content) = content.
Proof.
  intros Hc. apply includes_false in Hc.
  rewrite (parse_plain content Hc). split; [reflexivity|].
  unfold TemplateParser.reconstruct.
  destruct content as [|c content]; [reflexivity|].
  cbn [Template.tokens map Template.raw_span JSString.concat].
  apply StringFacts.append_nil_r.
Qed.

Section WithHost.
Context `{H : Host}.

Lemma process_plain (o : ContextProcessor.options) (content : string) (ctx : value) :
  includes content "{" = false ->
  ContextProcessor.process o (TemplateParser.parse content) ctx = Ok content.
Proof.
  intros Hc. rewrite (parse_plain content (includes_false _ _ Hc)).
  destruct content as [|c content]; reflexivity.
Qed.
End WithHost.

End PlainTextParsing.

(** ** Validation of templates *)

Module ValidationFacts.
Import JSString Regex TemplateValidator PlainTextFacts.

Lemma count_plain (r1 r2 : re) (content : string) :
  indexOf content "{" 0 = None ->
  count (Seq (Seq (Chr "{") r1) r2) content = 0.
Proof. intros Hc. unfold count. now rewrite exec_all_plain. Qed.

Lemma index_char_cons (a b : ascii) (s : string) :
  String.index 0 (String a "") (String b s) = None ->
  a <> b /\ String.index 0 (String a "") s = None.
Proof.
  cbn [String.index String.prefix].
  destruct (ascii_dec a b) as [_|Hab].
  - replace (String.prefix "" s) with true by (destruct s; reflexivity).
    discriminate.
  - destruct (String.index 0 (String a "") s); [discriminate|]. now split.
Qed.

Lemma search_either_plain (input rest : string) :
  indexOf rest "{" 0 = None -> indexOf rest "}" 0 = None ->
  forall pos, search_either input opened_re closed_re rest pos = None.
Proof.
  unfold indexOf. induction rest as [|b rest IH]; intros Ho Hc pos.
  - reflexivity.
  - apply index_char_cons in Ho as [Hob Ho].
    apply index_char_cons in Hc as [Hcb Hc].
    cbn [search_either]. unfold match_at, opened_re, closed_re, none_of.
    cbn [run].
    destruct (Ascii.eqb_spec "{"%char b) as [|_]; [contradiction|].
    destruct (negb _); [|now apply IH].
    destruct rest as [|b' rest]; [now apply IH|].
    destruct (index_char_cons _ _ _ Hc) as [Hcb' _].
    destruct (Ascii.eqb_spec "}"%char b') as [|_]; [contradiction|].
    now apply IH.
Qed.

(** X24.  A text without braces validates: [validate] returns no error. *)
Theorem validate_accepts_text_without_braces (content : string) :
  includes content "{" = false -> includes content "}" = false ->
  validate content = [].
Proof.
  intros Ho Hc.
  apply PlainTextParsing.includes_false in Ho.
  apply PlainTextParsing.includes_false in Hc.
  unfold validate, loopStart_re, loopEnd_re, ifStart_re, ifEnd_re.
  cbn [seq lit]. rewrite !count_plain by exact Ho.
  cbn [Nat.eqb app match_either].
  change (String.length content <? 0)%nat with false. cbn iota.
  rewrite substring_from_start, search_either_plain by assumption.
  reflexivity.
Qed.

Lemma search_either_finds (input before after : string) (c : ascii) :
  existsb (Ascii.eqb c) ["{"; "%"; "@"]%char = false ->
  forall pos,
    search_either input opened_re closed_re
      (before ++ String "{" (String c after)) pos <> None.
Proof.
  intros Hc. induction before as [|b before IH]; intros pos; cbn [append search_either].
  - unfold match_at at 1. unfold opened_re, none_of. cbn [run].
    rewrite Ascii.eqb_refl, Hc. discriminate.
  - destruct (match_at input opened_re _ pos) as [[e caps]|]; [discriminate|].
    destruct (match_at input closed_re _ pos) as [[e caps]|]; [discriminate|].
    apply IH.
Qed.

(** X25.  [validate] reports a malformed placeholder for every template
    in which an opening brace is followed by a character other than an
    opening brace, a percent sign and an at sign; the second brace of an
    ordinary placeholder, followed by the name of the variable, is such a
    place. *)
Theorem validate_reports_ordinary_placeholders
    (before after : string) (c : ascii) :
  existsb (Ascii.eqb c) ["{"; "%"; "@"]%char = false ->
  exists found,
    found <> []
    /\ In (syntax ("Malformed placeholders found: " ++ join ", " found))
          (validate (before ++ String "{" (String c after))).
Proof.
  intros Hc. unfold validate.
  set (content := before ++ String "{" (String c after)).
  set (found := match_either (S (String.length content)) opened_re closed_re
                             content 0).
  assert (Hfound : found <> []).
  { unfold found. cbn [match_either].
    change (String.length content <? 0)%nat with false. cbn iota.
    rewrite substring_from_start.
    pose proof (search_either_finds content before after c Hc 0) as Hs.
    fold content in Hs.
    destruct (search_either content opened_re closed_re content 0) as [[i e]|];
      [discriminate | contradiction]. }
  exists found. split; [exact Hfound|].
  apply in_or_app. right. apply in_or_app. right.
  destruct found; [contradiction | now left].
Qed.

End ValidationFacts.

(** ** When the regular-expression tokenizer gives the input back *)

Module TilingFacts.
Import JSString Regex Template TemplateParser Notions PlainTextFacts.

Lemma length_substring (s : string) :
  forall i k,
    String.length (String.substring i k s) = Nat.min k (String.length s - i).
Proof.
  induction s as [|c s IH]; intros [|i] [|k]; simpl; try reflexivity.
  - now rewrite IH, Nat.sub_0_r.
  - apply IH.
  - apply IH.
Qed.

Lemma substring_append (s : string) :
  forall p k,
    String.substring 0 p s ++ String.substring p k s = String.substring 0 (p + k) s.
Proof.
  induction s as [|c s IH]; intros p k.
  - destruct p, k; reflexivity.
  - destruct p as [|p]; simpl.
    + destruct k; reflexivity.
    + now rewrite IH.
Qed.

Lemma substring_of_its_length (s : string) :
  forall i k,
    String.substring i (String.length (String.substring i k s)) s
    = String.substring i k s.
Proof.
  induction s as [|c s IH]; intros [|i] [|k]; simpl; try reflexivity.
  - now rewrite (IH 0 k).
  - apply IH.
  - apply IH.
Qed.

Lemma substring_between (s : string) (a b : nat) :
  a <= b -> b <= String.length s ->
  JSString.substring s a b = String.substring a (b - a) s.
Proof.
  intros Hab Hb. unfold JSString.substring.
  rewrite (Nat.min_l a), (Nat.min_l b), (Nat.min_l a b), (Nat.max_r a b) by lia.
  reflexivity.
Qed.

Lemma concat_snoc (l : list string) (x : string) :
  JSString.concat (l ++ [x]) = JSString.concat l ++ x.
Proof.
  induction l as [|y l IH]; simpl.
  - apply StringFacts.append_nil_r.
  - now rewrite IH, StringFacts.append_assoc.
Qed.

Lemma length_append (a b : string) :
  String.length (a ++ b) = String.length a + String.length b.
Proof. induction a as [|c a IH]; simpl; [reflexivity | now rewrite IH]. Qed.

(** *** What the matcher hands back *)

Lemma search_bounds (input : string) (r : re) (rest : string) :
  forall pos i e c,
    search input r rest pos = Some (i, e, c) ->
    pos <= i /\ i <= pos + String.length rest.
Proof.
  induction rest as [|b rest IH]; intros pos i e c; cbn [search].
  - destruct (match_at input r "" pos) as [[e' c']|]; [|discriminate].
    intros [= <- _ _]. simpl. lia.
  - destruct (match_at input r (String b rest) pos) as [[e' c']|].
    + intros [= <- _ _]. simpl. lia.
    + intros Hs. apply IH in Hs. simpl. lia.
Qed.

Lemma exec_span (r : re) (s : string) (lastIndex : nat) (m : regex_match) (e : nat) :
  exec r s lastIndex = Some (m, e) ->
  rm_index m <= String.length s
  /\ exists k, rm_text m = String.substring (rm_index m) k s.
Proof.
  unfold exec. destruct (String.length s <? lastIndex)%nat eqn:Hlast; [discriminate|].
  apply Nat.ltb_ge in Hlast.
  destruct (search s r (substring_from s lastIndex) lastIndex)
    as [[[i e'] c]|] eqn:Hs; [|discriminate].
  intros [= <- _]. cbn [rm_index rm_text].
  apply search_bounds in Hs as [_ Hi].
  unfold substring_from in Hi.
  rewrite substring_between, length_substring in Hi by lia.
  split; [lia | eauto].
Qed.

Lemma exec_all_spans (r : re) (s : string) (fuel : nat) :
  forall lastIndex,
    Forall (fun m => rm_index m <= String.length s
                     /\ exists k, rm_text m = String.substring (rm_index m) k s)
           (exec_all fuel r s lastIndex).
Proof.
  induction fuel as [|fuel IH]; intros lastIndex; cbn [exec_all]; [constructor|].
  destruct (exec r s lastIndex) as [[m e]|] eqn:He; [|constructor].
  constructor; [eapply exec_span; exact He | apply IH].
Qed.

Lemma span_of_read_off (content : string) (m : regex_match) (t : token) :
  token_span t = Some (span_of m) ->
  rm_index m <= String.length content ->
  (exists k, rm_text m = String.substring (rm_index m) k content) ->
  read_off content t.
Proof.
  intros Ht Hi [k Hk]. exists (span_of m). split; [exact Ht|].
  unfold span_of. cbn [index length fullMatch].
  split; [exact Hi | split; [reflexivity|]].
  rewrite Hk at 1 2. now rewrite substring_of_its_length.
Qed.

Lemma collect_read_off (guarded : bool) (r : re) (mk : regex_match -> token)
    (content : string) (matches : list token) :
  (forall m, token_span (mk m) = Some (span_of m)) ->
  Forall (read_off content) matches ->
  Forall (read_off content) (collect guarded r mk content matches).
Proof.
  intros Hmk. unfold collect.
  pose proof (exec_all_spans r content (S (String.length content)) 0) as Hall.
  revert matches.
  induction Hall as [|m ms [Hi Hk] _ IH]; intros matches Hmatches; cbn [fold_left].
  - exact Hmatches.
  - apply IH.
    destruct (guarded && _isPartOfLargerConstruct (rm_index m) matches);
      [exact Hmatches|].
    apply Forall_app. split; [exact Hmatches|].
    constructor; [|constructor].
    eapply span_of_read_off; [apply Hmk | exact Hi | exact Hk].
Qed.

Lemma _findAllMatches_read_off (content : string) :
  Forall (read_off content) (_findAllMatches content).
Proof.
  unfold _findAllMatches.
  repeat (apply collect_read_off; [intros m; reflexivity|]).
  constructor.
Qed.

Lemma sorted_read_off (content : string) :
  Forall (read_off content)
         (JSArray.sort (fun t => Z.of_nat (token_index t)) (_findAllMatches content)).
Proof.
  apply Forall_forall. intros t Ht. apply SortFacts.in_sort in Ht.
  exact (proj1 (Forall_forall _ _) (_findAllMatches_read_off content) t Ht).
Qed.

(** *** The loop that builds the tokens *)

Lemma span_fields (t : token) (s : span) :
  token_span t = Some s ->
  token_index t = index s /\ raw_span t = fullMatch s /\ token_length t = length s.
Proof.
  intros Ht. unfold token_length. rewrite Ht.
  destruct t; try discriminate; injection Ht as <-; repeat split.
Qed.

Lemma build_step (content : string) (m : token) (rest tokens : list token)
    (position : nat) :
  build content (m :: rest) tokens position
  = build content rest
      ((if (position <? token_index m)%nat
        then (tokens ++ [text (JSString.substring content position (token_index m))
                              (Some position)])%list
        else tokens) ++ [m])%list
      (token_index m + token_length m).
Proof. reflexivity. Qed.

(** Constructs that lie apart are laid end to end, with the text between
    them. *)
Lemma build_tiles (content : string) (ms : list token) :
  forall tokens position,
    Forall (read_off content) ms ->
    position <= String.length content ->
    apart position ms = true ->
    JSString.concat (map raw_span tokens) = String.substring 0 position content ->
    JSString.concat (map raw_span (fst (build content ms tokens position)))
    = String.substring 0 (snd (build content ms tokens position)) content
    /\ snd (build content ms tokens position) <= String.length content.
Proof.
  induction ms as [|m ms IH]; intros tokens position Hms Hpos Hapart Htokens.
  - split; [exact Htokens | exact Hpos].
  - apply Forall_cons_iff in Hms as [(s & Hs & Hi & Hlen & Hfull) Hms].
    destruct (span_fields m s Hs) as (Hindex & Hraw & Hlength).
    cbn [apart] in Hapart. apply andb_prop in Hapart as [Hle Hapart].
    apply Nat.leb_le in Hle. rewrite build_step.
    assert (Hend : index s + length s <= String.length content).
    { rewrite Hlen, Hfull, length_substring. lia. }
    apply IH; [exact Hms | rewrite Hindex, Hlength; exact Hend | exact Hapart |].
    rewrite map_app. cbn [map]. rewrite concat_snoc.
    rewrite Hraw, Hindex, Hlength, <- substring_append, <- Hfull. f_equal.
    rewrite Hindex in Hle.
    destruct (position <? index s)%nat eqn:Hlt.
    + rewrite map_app. cbn [map raw_span]. rewrite concat_snoc, Htokens.
      rewrite substring_between by lia.
      rewrite substring_append. f_equal. lia.
    + apply Nat.ltb_ge in Hlt. rewrite Htokens. f_equal. lia.
Qed.

(** Every construct that starts before the end of the one before adds to
    the length of what the tokens spell. *)
Lemma build_excess (content : string) (ms : list token) :
  forall tokens position d,
    Forall (read_off content) ms ->
    position <= String.length content ->
    String.length (JSString.concat (map raw_span tokens)) = position + d ->
    exists d',
      String.length
        (JSString.concat (map raw_span (fst (build content ms tokens position))))
      = snd (build content ms tokens position) + d'
      /\ snd (build content ms tokens position) <= String.length content
      /\ d <= d'
      /\ (apart position ms = false -> d < d').
Proof.
  induction ms as [|m ms IH]; intros tokens position d Hms Hpos Htokens.
  - exists d. cbn [build fst snd apart].
    repeat split; try assumption; try lia; discriminate.
  - apply Forall_cons_iff in Hms as [(s & Hs & Hi & Hlen & Hfull) Hms].
    destruct (span_fields m s Hs) as (Hindex & Hraw & Hlength).
    assert (Hend : index s + length s <= String.length content).
    { rewrite Hlen, Hfull, length_substring. lia. }
    rewrite build_step. cbn [apart]. rewrite Hindex, Hlength.
    destruct (position <? index s)%nat eqn:Hlt.
    + apply Nat.ltb_lt in Hlt.
      destruct (IH ((tokens ++ [text (JSString.substring content position (index s))
                                     (Some position)]) ++ [m])%list
                   (index s + length s) d Hms Hend) as (d' & Hd' & Hle & Hdd & Hstrict).
      { rewrite !map_app. cbn [map raw_span]. rewrite !concat_snoc.
        rewrite !length_append, Htokens, Hraw, <- Hlen.
        rewrite substring_between, length_substring by lia. lia. }
      exists d'. repeat split; try assumption.
      replace (position <=? index s)%nat with true
        by (symmetry; apply Nat.leb_le; lia).
      exact Hstrict.
    + apply Nat.ltb_ge in Hlt.
      destruct (IH (tokens ++ [m])%list (index s + length s)
                   (d + (position - index s)) Hms Hend)
        as (d' & Hd' & Hle & Hdd & Hstrict).
      { rewrite map_app. cbn [map]. rewrite concat_snoc.
        rewrite length_append, Htokens, Hraw, <- Hlen. lia. }
      exists d'. repeat split; try assumption; [lia|].
      intros Hapart. apply andb_false_iff in Hapart as [Hover | Hrest].
      * apply Nat.leb_gt in Hover. lia.
      * specialize (Hstrict Hrest). lia.
Qed.

(** X3.  [TemplateParser.parse] gives the input back, as the raw spans
    of its tokens in order, exactly when the constructs it has matched, in
    the order of their start, lie apart: none of them starts before the end
    of the one before. *)
Theorem TemplateParser_parse_reconstructs_iff_apart (content : string) :
  reconstruct (parse content) = content
  <-> apart 0 (JSArray.sort (fun t => Z.of_nat (token_index t))
                            (_findAllMatches content)) = true.
Proof.
  pose proof (sorted_read_off content) as Hread.
  unfold reconstruct, parse.
  set (ms := JSArray.sort (fun t => Z.of_nat (token_index t))
                          (_findAllMatches content)) in *.
  destruct (build_excess content ms [] 0 0 Hread (Nat.le_0_l _) eq_refl)
    as (d' & Hd' & Hle & _ & Hstrict).
  pose proof (build_tiles content ms [] 0 Hread (Nat.le_0_l _)) as Htiles.
  destruct (build content ms [] 0) as [tokens position].
  cbn [fst snd] in *. cbn [Template.tokens].
  split.
  - intros Hsame. destruct (apart 0 ms); [reflexivity|].
    specialize (Hstrict eq_refl). apply (f_equal String.length) in Hsame.
    destruct (position <? String.length content)%nat eqn:Hlt.
    + apply Nat.ltb_lt in Hlt. rewrite map_app in Hsame. cbn [map raw_span] in Hsame.
      rewrite concat_snoc, length_append, Hd' in Hsame.
      unfold substring_from in Hsame.
      rewrite substring_between, length_substring in Hsame by lia. lia.
    + apply Nat.ltb_ge in Hlt. rewrite Hd' in Hsame. lia.
  - intros Hapart.
    assert (Hempty : JSString.concat (map raw_span []) = String.substring 0 0 content)
      by (destruct content; reflexivity).
    destruct (Htiles Hapart Hempty) as [Hspell _].
    destruct (position <? String.length content)%nat eqn:Hlt.
    + apply Nat.ltb_lt in Hlt. rewrite map_app. cbn [map raw_span].
      rewrite concat_snoc, Hspell. unfold substring_from.
      rewrite substring_between by lia. rewrite substring_append.
      replace (position + (String.length content - position))
        with (String.length content) by lia.
      apply substring_whole.
    + apply Nat.ltb_ge in Hlt. rewrite Hspell.
      replace position with (String.length content) by lia.
      apply substring_whole.
Qed.

End TilingFacts.

(** ** What [_matchTag] returns *)

Module DelimiterFacts.
Import JSString TagParser.

Lemma index_from (s1 s2 : string) :
  forall n m, String.index n s1 s2 = Some m -> n <= m.
Proof.
  induction s2 as [|b s2 IH]; intros n m; cbn [String.index].
  - destruct n; [|discriminate]. lia.
  - destruct n as [|n]; [lia|].
    destruct (String.index n s1 s2) as [k|] eqn:Hk; [|discriminate].
    intros [= <-]. apply IH in Hk. lia.
Qed.

Lemma prefix_length (s1 s2 : string) :
  String.prefix s1 s2 = true -> String.length s1 <= String.length s2.
Proof.
  revert s1. induction s2 as [|b s2 IH]; intros [|a s1]; cbn [String.prefix];
    try discriminate; simpl; try lia.
  destruct (ascii_dec a b); [|discriminate].
  intros Hp. apply IH in Hp. lia.
Qed.

Lemma index_within (s1 s2 : string) :
  forall n m,
    String.index n s1 s2 = Some m -> m + String.length s1 <= String.length s2.
Proof.
  induction s2 as [|b s2 IH]; intros n m; cbn [String.index].
  - destruct n; [|discriminate]. destruct s1; [|discriminate].
    intros [= <-]. simpl. lia.
  - destruct n as [|n].
    + destruct (String.prefix s1 (String b s2)) eqn:Hp.
      * intros [= <-]. apply prefix_length in Hp. simpl in *. lia.
      * destruct (String.index 0 s1 s2) as [k|] eqn:Hk; [|discriminate].
        intros [= <-]. apply IH in Hk. simpl. lia.
    + destruct (String.index n s1 s2) as [k|] eqn:Hk; [|discriminate].
      intros [= <-]. apply IH in Hk. simpl. lia.
Qed.

Lemma substring_append_at (s : string) :
  forall i p k,
    String.substring i p s ++ String.substring (i + p) k s
    = String.substring i (p + k) s.
Proof.
  induction s as [|c s IH]; intros i p k.
  - destruct i, p, k; reflexivity.
  - destruct i as [|i]; [apply TilingFacts.substring_append|].
    cbn [Nat.add String.substring]. apply IH.
Qed.

(** X23.  The full match that [_matchTag] returns is the opening
    delimiter, the value and the closing delimiter, one after the other,
    and it is the text found at the first occurrence of the opening
    delimiter in the text that is searched, wherever that is. *)
Theorem _matchTag_spells_the_tag (text_ : string) (d : delimiters) (m : tag_match) :
  _matchTag text_ d = Some m ->
  m_fullMatch m = d_start d ++ m_value m ++ d_end d
  /\ exists startIndex,
       indexOf text_ (d_start d) 0 = Some startIndex
       /\ m_fullMatch m
          = String.substring startIndex (String.length (m_fullMatch m)) text_.
Proof.
  unfold _matchTag, indexOf.
  destruct (String.index 0 (d_start d) text_) as [i|] eqn:Hi; [|discriminate].
  destruct (String.index (i + String.length (d_start d)) (d_end d) text_)
    as [j|] eqn:Hj; [|discriminate].
  intros [= <-]. cbn [m_fullMatch m_value].
  pose proof (index_from _ _ _ _ Hj) as Hij.
  pose proof (index_within _ _ _ _ Hj) as Hjb.
  pose proof (String.index_correct1 _ _ _ _ Hi) as Hstart.
  pose proof (String.index_correct1 _ _ _ _ Hj) as Hend.
  rewrite !TilingFacts.substring_between by lia.
  split.
  - remember (String.length (d_start d)) as a eqn:Ha.
    remember (String.length (d_end d)) as b eqn:Hb.
    rewrite <- Hstart, <- Hend.
    replace (String.substring j b text_)
      with (String.substring (i + a + (j - (i + a))) b text_) by (f_equal; lia).
    rewrite !substring_append_at. f_equal. lia.
  - exists i. split; [reflexivity|].
    now rewrite TilingFacts.substring_of_its_length.
Qed.

End DelimiterFacts.

(** ** Rendering token lists *)

Module RenderingFacts.
Import JSString JSValue Template ContextProcessor Notions.
Local Open Scope js_scope.

Section WithHost.
Context `{H : Host}.

Lemma process_tokens_from (self : parsed -> value -> result string) (o : options)
    (ctx : value) (ts : list token) :
  forall acc,
    process_tokens self o ts ctx acc
    = (s <- process_tokens self o ts ctx "" ;; Ok (acc ++ s)).
Proof.
  induction ts as [|t ts IH]; intros acc; cbn [process_tokens bind].
  - now rewrite StringFacts.append_nil_r.
  - destruct (process_token self o t ctx) as [piece|e]; cbn [bind]; [|reflexivity].
    rewrite (IH (acc ++ piece)), (IH ("" ++ piece)). cbn [append].
    destruct (process_tokens self o ts ctx "") as [s|e]; cbn [bind]; [|reflexivity].
    now rewrite StringFacts.append_assoc.
Qed.

Lemma process_tokens_app (self : parsed -> value -> result string) (o : options)
    (ctx : value) (ts1 ts2 : list token) :
  forall acc,
    process_tokens self o (ts1 ++ ts2) ctx acc
    = (acc' <- process_tokens self o ts1 ctx acc ;;
       process_tokens self o ts2 ctx acc').
Proof.
  induction ts1 as [|t ts1 IH]; intros acc; cbn [process_tokens app bind].
  - reflexivity.
  - destruct (process_token self o t ctx) as [piece|e]; cbn [bind]; [|reflexivity].
    apply IH.
Qed.

(** X4.  Rendering is compositional: the rendering of two token lists put
    one after the other is the rendering of the first followed by the
    rendering of the second, and it raises the first error met, that of
    the first list if there is one. *)
Theorem process_of_appended_tokens (o : options) (ts1 ts2 : list token)
    (c c1 c2 : string) (ctx : value) :
  process o {| tokens := ts1 ++ ts2; originalContent := c |} ctx
  = (a <- process o {| tokens := ts1; originalContent := c1 |} ctx ;;
     b <- process o {| tokens := ts2; originalContent := c2 |} ctx ;;
     Ok (a ++ b)).
Proof.
  unfold process, process_with. cbn [tokens].
  rewrite process_tokens_app.
  destruct (process_tokens (process_nested o) o ts1 ctx "") as [a|e]; cbn [bind];
    [|reflexivity].
  apply process_tokens_from.
Qed.

Lemma _evaluateCondition_returns (condition : string) (ctx : value) :
  exists taken, _evaluateCondition condition ctx = Ok taken.
Proof.
  unfold _evaluateCondition.
  destruct (evaluate_operators operators condition ctx); cbn [try_catch]; eauto.
Qed.

(** X5.  A conditional never raises, in strict mode either, and it
    renders to the source text of the branch that the condition selects:
    the text of the branch is emitted as it stands, tags included. *)
Theorem conditional_emits_the_chosen_branch (o : options)
    (condition ifContent elseContent src : string) (m : span) (ctx : value) :
  exists taken,
    _evaluateCondition condition ctx = Ok taken
    /\ process o {| tokens := [conditional condition ifContent elseContent m];
                    originalContent := src |} ctx
       = Ok (if taken : bool then ifContent else elseContent).
Proof.
  destruct (_evaluateCondition_returns condition ctx) as [taken Htaken].
  exists taken. split; [exact Htaken|].
  unfold process, process_with. cbn [tokens process_tokens process_token].
  unfold _processConditional. rewrite Htaken. cbn [bind].
  destruct (String.eqb_spec (if taken then ifContent else elseContent) "") as [->|_];
    reflexivity.
Qed.

(** X6.  What a loop does when its collection is not an array or cannot be
    resolved: in lenient mode it renders to the empty text, in strict
    mode it raises, "Loop collection is not an array: ..." in the first
    case and the error of the lookup in the second.  An empty array
    renders to the empty text in both modes. *)
Theorem loop_without_a_sequence (o : options)
    (variable collection content src : string) (m : span) (ctx : value) :
  let template := {| tokens := [loop variable collection content m];
                     originalContent := src |} in
  (forall v, _getValue collection ctx = Ok v -> isArray v = false ->
             process o template ctx
             = if errorOnMissingData o
               then Throw (Error ("Loop collection is not an array: " ++ collection))
               else Ok "")
  /\ (forall e, _getValue collection ctx = Throw e ->
                process o template ctx
                = if errorOnMissingData o then Throw e else Ok "")
  /\ (_getValue collection ctx = Ok (VArray []) -> process o template ctx = Ok "").
Proof.
  cbv zeta. unfold process, process_with.
  cbn [tokens process_tokens process_token]. unfold _processLoop.
  split; [|split].
  - intros v Hv Harray. rewrite Hv. cbn [bind].
    destruct v; try discriminate Harray; cbn [try_catch];
      destruct (errorOnMissingData o); reflexivity.
  - intros e He. rewrite He. cbn [bind try_catch].
    destruct (errorOnMissingData o); reflexivity.
  - intros Hv. rewrite Hv. reflexivity.
Qed.

Lemma process_token_lenient (o : options) (t : token) (ctx : value) :
  errorOnMissingData o = false ->
  (forall v, exists s, ToString_object v = Ok s) ->
  exists s, process_token (process_nested o) o t ctx = Ok s.
Proof.
  intros Hmode Hstring. destruct t; cbn [process_token].
  - eauto.
  - unfold _processPlaceholder. rewrite Hmode.
    destruct (value_ <- _getValue variable ctx ;; _formatValue o value_);
      cbn [try_catch]; eauto.
  - unfold _processLoop. rewrite Hmode.
    match goal with |- exists s, try_catch ?r _ = _ => destruct r end;
      cbn [try_catch]; eauto.
  - unfold _processConditional. rewrite Hmode.
    match goal with |- exists s, try_catch ?r _ = _ => destruct r end;
      cbn [try_catch]; eauto.
  - eauto.
  - unfold _processRawXml. rewrite Hmode.
    match goal with |- exists s, bind (try_catch ?r _) _ = _ =>
      assert (Hv : exists v, try_catch r (fun _ => Ok (VString "")) = Ok v)
        by (destruct r; cbn [try_catch]; eauto)
    end.
    destruct Hv as [v Hv]. rewrite Hv. cbn [bind].
    destruct v as [| |[]| | | | |]; cbn [ToString]; eauto.
  - unfold _processParagraphPlaceholder. rewrite Hmode.
    match goal with |- exists s, try_catch ?r _ = _ => destruct r end;
      cbn [try_catch]; eauto.
Qed.

(** X7.  In lenient mode the context processor does not raise: whatever
    the tokens and the context are, [process] returns a text, provided that
    the conversion of objects to strings does not raise in the host (it is
    reached for a raw-XML tag whose value is an object, outside every
    [try] block).  [nullGetter] is a function that returns a string, as
    in [options]. *)
Theorem lenient_process_returns (o : options) (p : parsed) (ctx : value) :
  errorOnMissingData o = false ->
  (forall v, exists s, ToString_object v = Ok s) ->
  exists s, process o p ctx = Ok s.
Proof.
  intros Hmode Hstring. unfold process, process_with.
  generalize "". induction (tokens p) as [|t ts IH]; intros acc;
    cbn [process_tokens]; [eauto|].
  destruct (process_token_lenient o t ctx Hmode Hstring) as [piece ->].
  cbn [bind]. apply IH.
Qed.

End WithHost.
End RenderingFacts.

(** ** Paths that are found *)

Module ResolutionFacts.
Import JSString JSValue Notions ContextResolver.

Section WithHost.
Context `{H : Host}.

Lemma own_property_object (current : value) (key : string) (x : value) :
  own_property current key = Some x ->
  truthy current = true /\ typeof current = "object".
Proof. destruct current; try discriminate; intros _; split; reflexivity. Qed.

Lemma get_keys_found (keys : list string) :
  forall current v,
    own_path keys current = Some v ->
    ContextProcessor.get_keys keys current = Ok v.
Proof.
  induction keys as [|key keys IH]; intros current v; cbn [own_path].
  - now intros [= ->].
  - destruct (own_property current key) as [x|] eqn:Hx; [|discriminate].
    intros Hv. destruct (own_property_object current key x Hx) as [_ Htype].
    assert (Hstep : (String.eqb (typeof current) "object"
                     && has_property current key = true)
                    /\ get_property current key = x).
    { unfold has_property, get_property. rewrite Hx, Htype. split; reflexivity. }
    destruct Hstep as [Hhas Hget].
    destruct current; try discriminate Hx; cbn [ContextProcessor.get_keys];
      rewrite Hhas, Hget; now apply IH.
Qed.


End WithHost.
End ResolutionFacts.

(** ** The context of a loop iteration *)

Module LoopContextFacts.
Import JSString JSValue ContextProcessor Notions.

Section WithHost.
Context `{H : Host}.

Lemma _getValue_own (path key : string) (current x : value) :
  split path "." = [key] -> own_property current key = Some x ->
  _getValue path current = Ok x.
Proof.
  intros Hsplit Hx. unfold _getValue. apply ResolutionFacts.get_keys_found.
  rewrite Hsplit. cbn [own_path]. now rewrite Hx.
Qed.

(** X22.  The context that [_processLoop] builds for the element at index
    [i] of [n] resolves the loop variable to the element, [$index] to [i],
    [$first] to [i === 0], [$last] to [i === n - 1] and [$length] to [n];
    every other path that is found in the outer context, an object,
    through own properties is found there with the same value. *)
Theorem loop_context_resolves (ctx : value) (variable : string) (item : value)
    (i n : nat) :
  ~ In variable ["$index"; "$first"; "$last"; "$length"] ->
  split variable "." = [variable] ->
  let inner := loopContext ctx variable item i n in
  _getValue variable inner = Ok item
  /\ _getValue "$index" inner = Ok (VNumber (num_of_nat i))
  /\ _getValue "$first" inner = Ok (VBool (i =? 0)%nat)
  /\ _getValue "$last" inner = Ok (VBool (i =? n - 1)%nat)
  /\ _getValue "$length" inner = Ok (VNumber (num_of_nat n))
  /\ (forall props path key rest v,
        ctx = VObject props ->
        split path "." = key :: rest ->
        ~ In key [variable; "$index"; "$first"; "$last"; "$length"] ->
        own_path (split path ".") ctx = Some v ->
        _getValue path inner = Ok v).
Proof.
  intros Hvar Hsplit inner.
  destruct (ContextProcessorFacts.loopContext_bindings ctx variable item i n Hvar)
    as (Hitem & Hindex & Hfirst & Hlast & Hlength & Houter).
  fold inner in Hitem, Hindex, Hfirst, Hlast, Hlength, Houter.
  split; [now apply (_getValue_own variable variable)|].
  split; [now apply (_getValue_own "$index" "$index")|].
  split; [now apply (_getValue_own "$first" "$first")|].
  split; [now apply (_getValue_own "$last" "$last")|].
  split; [now apply (_getValue_own "$length" "$length")|].
  intros props path key rest v -> Hpath Hkey Hv.
  unfold _getValue. apply ResolutionFacts.get_keys_found.
  rewrite Hpath in *. cbn [own_path] in *.
  rewrite (Houter key Hkey). exact Hv.
Qed.

End WithHost.
End LoopContextFacts.

(** ** One document part: errors and plain text *)

Module PartFacts.
Import DocxTemplaterPro.

Section WithHost.
Context `{H : Host}.


(** X10.  A part without an opening brace holds no tag: the context
    processor returns it as it is, for every context and in both modes, and
    a templater without modules hands it back unchanged, recording and
    printing nothing. *)
Theorem plain_text_passes_through
    (t : templater) (xmlContent documentType : string) :
  JSString.includes xmlContent "{" = false ->
  ContextProcessor.process (options t) (TemplateParser.parse xmlContent) (context t)
  = Ok xmlContent
  /\ (ModuleManager.processingOrder (moduleManager t) = [] ->
      _processXmlContent t xmlContent documentType
      = {| returned := Ok xmlContent; after := t; printed := [] |}).
Proof.
  intros Hplain.
  pose proof (PlainTextParsing.process_plain (options t) xmlContent (context t) Hplain)
    as Hrendered.
  split; [exact Hrendered|].
  intros Horder. unfold _processXmlContent. rewrite Hrendered.
  unfold ModuleManager.process. rewrite Horder. reflexivity.
Qed.

End WithHost.
End PartFacts.

(** ** The registry of modules *)

Module RegistryFacts.
Import ModuleManager Notions.
Local Open Scope list_scope.

Section WithNumbers.
Context `{N : Numbers}.

(** *** The map *)

Lemma map_get_key (k : string) (m : list (string * module_)) (v : module_) :
  map_get k m = Some v -> In (k, v) m.
Proof.
  induction m as [|[k' w] m IH]; simpl; [discriminate|].
  destruct (String.eqb_spec k' k) as [->|_].
  - intros [= ->]. now left.
  - intros Hv. right. now apply IH.
Qed.

Lemma map_get_absent (k : string) (m : list (string * module_)) :
  map_get k m = None <-> ~ In k (map fst m).
Proof.
  induction m as [|[k' w] m IH]; simpl; [tauto|].
  destruct (String.eqb_spec k' k) as [->|Hne].
  - split; [discriminate | tauto].
  - rewrite IH. tauto.
Qed.

Lemma map_set_fresh (k : string) (v : module_) (m : list (string * module_)) :
  ~ In k (map fst m) -> map_set k v m = m ++ [(k, v)].
Proof.
  induction m as [|[k' w] m IH]; simpl; [reflexivity|].
  intros Hk. destruct (String.eqb_spec k' k) as [->|_]; [tauto|].
  rewrite IH by tauto. reflexivity.
Qed.

Lemma map_set_keys (k : string) (v : module_) (m : list (string * module_)) :
  In k (map fst m) -> map fst (map_set k v m) = map fst m.
Proof.
  induction m as [|[k' w] m IH]; simpl; [tauto|].
  destruct (String.eqb_spec k' k) as [->|Hne]; [reflexivity|].
  intros [Hk | Hk]; [congruence|]. simpl. now rewrite IH.
Qed.

Lemma map_set_entries (k : string) (v : module_) (m : list (string * module_))
    (n : string) (x : module_) :
  In (n, x) (map_set k v m) -> (n = k /\ x = v) \/ In (n, x) m.
Proof.
  induction m as [|[k' w] m IH]; simpl.
  - intros [[= <- <-] | []]. now left.
  - destruct (String.eqb_spec k' k) as [->|_]; simpl.
    + intros [[= <- <-] | Hin]; [now left | right; now right].
    + intros [Heq | Hin]; [right; now left|].
      destruct (IH Hin) as [Hnew | Hold]; [now left | right; now right].
Qed.

Lemma map_delete_keys (k : string) (m : list (string * module_)) :
  map fst (map_delete k m) = filter (fun n => negb (String.eqb n k)) (map fst m).
Proof.
  unfold map_delete. induction m as [|[k' w] m IH]; simpl; [reflexivity|].
  destruct (String.eqb k' k); simpl; now rewrite IH.
Qed.

Lemma map_get_delete_same (k : string) (m : list (string * module_)) :
  map_get k (map_delete k m) = None.
Proof.
  apply map_get_absent. rewrite map_delete_keys. intros Hin.
  apply filter_In in Hin as [_ Hk]. now rewrite String.eqb_refl in Hk.
Qed.

Lemma map_get_delete_other (k k' : string) (m : list (string * module_)) :
  k' <> k -> map_get k' (map_delete k m) = map_get k' m.
Proof.
  intros Hne. unfold map_delete. induction m as [|[k0 w] m IH]; simpl; [reflexivity|].
  destruct (String.eqb_spec k0 k) as [->|Hk0]; simpl.
  - destruct (String.eqb_spec k k'); [congruence | exact IH].
  - destruct (String.eqb k0 k'); [reflexivity | exact IH].
Qed.

Lemma map_delete_fresh (k : string) (m : list (string * module_)) :
  ~ In k (map fst m) -> map_delete k m = m.
Proof.
  unfold map_delete. induction m as [|[k' w] m IH]; simpl; [reflexivity|].
  intros Hk. destruct (String.eqb_spec k' k) as [->|_]; [tauto|].
  simpl. rewrite IH by tauto. reflexivity.
Qed.

Lemma map_delete_added (k : string) (v : module_) (m : list (string * module_)) :
  ~ In k (map fst m) -> map_delete k (m ++ [(k, v)]) = m.
Proof.
  intros Hk. unfold map_delete. rewrite filter_app. simpl.
  rewrite String.eqb_refl. simpl. rewrite app_nil_r.
  now apply map_delete_fresh.
Qed.

(** *** The order *)

Lemma splice_insert_permutation {A : Type} (i : nat) (x : A) (l : list A) :
  Permutation (x :: l) (splice_insert i x l).
Proof.
  unfold splice_insert. rewrite <- (firstn_skipn i l) at 1.
  apply Permutation_middle.
Qed.

Lemma remove_first_absent (x : string) (l : list string) :
  ~ In x l -> remove_first x l = l.
Proof.
  induction l as [|y l IH]; simpl; [reflexivity|].
  intros Hx. destruct (String.eqb_spec y x) as [->|_]; [tauto|].
  rewrite IH by tauto. reflexivity.
Qed.

Lemma remove_first_added (i : nat) (x : string) (l : list string) :
  ~ In x l -> remove_first x (splice_insert i x l) = l.
Proof.
  intros Hx. unfold splice_insert.
  assert (Hfirst : ~ In x (firstn i l)).
  { intros Hin. apply Hx. rewrite <- (firstn_skipn i l). apply in_app_iff. now left. }
  rewrite <- (firstn_skipn i l) at 3. revert Hfirst.
  generalize (firstn i l) as l1. induction l1 as [|y l1 IH]; simpl; intros Hfirst.
  - now rewrite String.eqb_refl.
  - destruct (String.eqb_spec y x) as [->|_]; [tauto|].
    rewrite IH by tauto. reflexivity.
Qed.

Lemma remove_first_filter (x : string) (l : list string) :
  NoDup l -> remove_first x l = filter (fun n => negb (String.eqb n x)) l.
Proof.
  induction l as [|y l IH]; simpl; [reflexivity|].
  intros Hnd. apply NoDup_cons_iff in Hnd as [Hy Hnd].
  destruct (String.eqb_spec y x) as [->|_]; simpl.
  - rewrite <- IH by exact Hnd. now rewrite remove_first_absent.
  - now rewrite IH.
Qed.

Lemma find_insertIndex_returns (mods : list (string * module_)) (p : Z) :
  forall order i0,
    (forall n, In n order -> In n (map fst mods)) ->
    exists i, find_insertIndex mods p order i0 = Ok i.
Proof.
  induction order as [|n order IH]; intros i0 Hin; simpl; [eauto|].
  destruct (map_get n mods) as [existing|] eqn:Hn.
  - destruct (p <? priority_or_100 (priority existing))%Z; [eauto|].
    apply IH. intros n' Hn'. apply Hin. now right.
  - apply map_get_absent in Hn. destruct Hn. apply Hin. now left.
Qed.

(** *** Consistency *)

Lemma constructor_consistent : consistent constructor.
Proof.
  repeat split; simpl; try constructor; try tauto.
Qed.

Lemma register_consistent (m : module_) (mgr mgr' : manager) :
  consistent mgr -> register m mgr = Ok mgr' ->
  consistent mgr'
  /\ getModule (name m) mgr' = Some m
  /\ (forall n, n <> name m -> getModule n mgr' = getModule n mgr)
  /\ (forall n, In n (processingOrder mgr')
                <-> n = name m \/ In n (processingOrder mgr)).
Proof.
  intros (Hkeys & Horder & Hsame & Hnames). unfold register, getModule.
  destruct (String.eqb (name m) ""); [discriminate|].
  destruct (process_ m) as [f|]; [|discriminate].
  destruct (existsb (String.eqb (name m)) (processingOrder mgr)) eqn:Hex.
  - intros [= <-]. cbn [modules processingOrder].
    apply existsb_exists in Hex as (n & Hn & Heq).
    apply String.eqb_eq in Heq. subst n.
    assert (Hkey : In (name m) (map fst (modules mgr))) by now apply Hsame.
    split; [|split; [|split]].
    + unfold consistent. cbn [modules processingOrder].
      rewrite map_set_keys by exact Hkey.
      split; [exact Hkeys | split; [exact Horder | split; [exact Hsame|]]].
      intros n x Hin. apply map_set_entries in Hin as [[-> ->] | Hin];
        [reflexivity | now apply Hnames].
    + apply ModuleManagerFacts.map_get_set_same.
    + intros n Hn'. now apply ModuleManagerFacts.map_get_set_other.
    + intros n. split; [tauto|]. intros [-> | Hin]; assumption.
  - assert (Hfresh : ~ In (name m) (processingOrder mgr)).
    { intros Hin. apply Bool.not_true_iff_false in Hex. apply Hex.
      apply existsb_exists. exists (name m). split; [exact Hin|].
      apply String.eqb_refl. }
    assert (Hnokey : ~ In (name m) (map fst (modules mgr))) by now rewrite <- Hsame.
    destruct (find_insertIndex (map_set (name m) m (modules mgr))
                (priority_or_100 (priority m)) (processingOrder mgr) 0)
      as [i|e]; [|discriminate].
    intros [= <-]. cbn [modules processingOrder].
    pose proof (splice_insert_permutation i (name m) (processingOrder mgr)) as Hperm.
    assert (Hin : forall n, In n (splice_insert i (name m) (processingOrder mgr))
                            <-> n = name m \/ In n (processingOrder mgr)).
    { intros n. split.
      - intros Hn. apply (Permutation_in _ (Permutation_sym Hperm)) in Hn.
        destruct Hn as [<- | Hn]; [now left | now right].
      - intros Hn. apply (Permutation_in _ Hperm).
        destruct Hn as [-> | Hn]; [now left | now right]. }
    split; [|split; [|split]].
    + unfold consistent. cbn [modules processingOrder].
      rewrite map_set_fresh by exact Hnokey. rewrite map_app. cbn [map fst].
      split; [|split; [|split]].
      * apply (Permutation_NoDup (Permutation_cons_append _ _)).
        now constructor.
      * apply (Permutation_NoDup Hperm). now constructor.
      * intros n. rewrite Hin, in_app_iff, Hsame. simpl. intuition.
      * intros n x Hx. apply in_app_iff in Hx as [Hx | [[= <- <-] | []]];
          [now apply Hnames | reflexivity].
    + apply ModuleManagerFacts.map_get_set_same.
    + intros n Hn'. now apply ModuleManagerFacts.map_get_set_other.
    + exact Hin.
Qed.

Lemma register_returns (m : module_) (mgr : manager) :
  consistent mgr -> name m <> "" -> process_ m <> None ->
  exists mgr', register m mgr = Ok mgr'.
Proof.
  intros (_ & _ & Hsame & _) Hname Hproc. unfold register.
  destruct (String.eqb_spec (name m) "") as [|_]; [contradiction|].
  destruct (process_ m) as [f|]; [|contradiction].
  destruct (existsb (String.eqb (name m)) (processingOrder mgr)); [eauto|].
  destruct (find_insertIndex_returns (map_set (name m) m (modules mgr))
              (priority_or_100 (priority m)) (processingOrder mgr) 0) as [i ->];
    [|eauto].
  intros n Hn. apply Hsame in Hn.
  destruct (in_dec string_dec (name m) (map fst (modules mgr))) as [Hk | Hk].
  - now rewrite map_set_keys.
  - rewrite map_set_fresh, map_app, in_app_iff by exact Hk. now left.
Qed.

Lemma unregister_consistent (moduleName : string) (mgr : manager) :
  consistent mgr -> consistent (unregister moduleName mgr).
Proof.
  intros (Hkeys & Horder & Hsame & Hnames). unfold consistent, unregister.
  cbn [modules processingOrder].
  rewrite map_delete_keys, remove_first_filter by exact Horder.
  split; [|split; [|split]].
  - now apply NoDup_filter.
  - now apply NoDup_filter.
  - intros n. rewrite !filter_In, Hsame. tauto.
  - intros n x Hx. apply filter_In in Hx as [Hx _]. now apply Hnames.
Qed.

(** X11.  On a consistent registry [register] rejects exactly the modules
    without a name or without a [process] method; every other module is
    stored under its name, where [getModule] finds it, the entries under
    other names are left as they were, the name is in [processingOrder]
    beside the names that were there, and the registry stays consistent. *)
Theorem register_on_a_consistent_registry (m : module_) (mgr : manager) :
  consistent mgr ->
  (name m = "" ->
   register m mgr = Throw (Error "Module must have a name property"))
  /\ (name m <> "" -> process_ m = None ->
      register m mgr = Throw (Error "Module must have a process method"))
  /\ (name m <> "" -> process_ m <> None ->
      exists mgr',
        register m mgr = Ok mgr'
        /\ consistent mgr'
        /\ getModule (name m) mgr' = Some m
        /\ (forall n, n <> name m -> getModule n mgr' = getModule n mgr)
        /\ (forall n, In n (processingOrder mgr')
                      <-> n = name m \/ In n (processingOrder mgr))).
Proof.
  intros Hmgr. split; [|split].
  - intros Hname. unfold register. now rewrite Hname.
  - intros Hname Hproc. unfold register.
    destruct (String.eqb_spec (name m) "") as [|_]; [contradiction|].
    now rewrite Hproc.
  - intros Hname Hproc.
    destruct (register_returns m mgr Hmgr Hname Hproc) as [mgr' Hreg].
    exists mgr'. split; [exact Hreg|]. now apply (register_consistent m mgr).
Qed.

Lemma calls_are_applicable (mods : list (string * module_)) (ctx : pcontext)
    (n : string) :
  forall order c console_ calls_,
    In n (calls (process_loop mods order c ctx console_ calls_)) ->
    In n calls_ \/ (In n order /\ applicable mods ctx n = true).
Proof.
  induction order as [|moduleName order IH]; intros c console_ calls_;
    cbn [process_loop calls]; [tauto|].
  assert (Hskip : forall c' console',
            In n (calls (process_loop mods order c' ctx console' calls_)) ->
            In n calls_
            \/ (In n (moduleName :: order) /\ applicable mods ctx n = true)).
  { intros c' console' Hin. apply IH in Hin as [Hin | [Hin Happ]];
      [now left | right; split; [now right | exact Happ]]. }
  destruct (map_get moduleName mods) as [module|] eqn:Hget; [|apply Hskip].
  destruct (_shouldProcessModule module ctx) eqn:Hshould; [|apply Hskip].
  assert (Happ : applicable mods ctx moduleName = true)
    by (unfold applicable; now rewrite Hget).
  assert (Hcalled : forall c' console',
            In n (calls (process_loop mods order c' ctx console'
                           (calls_ ++ [moduleName]))) ->
            In n calls_
            \/ (In n (moduleName :: order) /\ applicable mods ctx n = true)).
  { intros c' console' Hin. apply IH in Hin as [Hin | [Hin Hn]].
    - apply in_app_iff in Hin as [Hin | [<- | []]];
        [now left | right; split; [now left | exact Happ]].
    - right. split; [now right | exact Hn]. }
  destruct (match process_ module with
            | Some f => f c ctx
            | None => Throw (TypeError "module.process is not a function")
            end) as [c'|e]; [apply Hcalled|].
  destruct (errorOnMissingData ctx); [|apply Hcalled].
  cbn [calls]. intros Hin.
  apply in_app_iff in Hin as [Hin | [<- | []]];
    [now left | right; split; [now left | exact Happ]].
Qed.

(** X12.  [unregister] removes a module for good: the registry stays
    consistent, [getModule] no longer finds the name, the name has left
    [processingOrder], [processWithModule] raises "Module ... not found",
    and no run calls the module; the entries under other names and their
    places in the order are left as they were. *)
Theorem unregister_removes_the_module (moduleName : string) (mgr : manager)
    (c : string) (ctx : pcontext) :
  consistent mgr ->
  consistent (unregister moduleName mgr)
  /\ getModule moduleName (unregister moduleName mgr) = None
  /\ ~ In moduleName (processingOrder (unregister moduleName mgr))
  /\ processWithModule moduleName c ctx (unregister moduleName mgr)
     = Throw (Error ("Module " ++ moduleName ++ " not found"))
  /\ ~ In moduleName (calls (process (unregister moduleName mgr) c ctx))
  /\ (forall n, n <> moduleName ->
        getModule n (unregister moduleName mgr) = getModule n mgr)
  /\ processingOrder (unregister moduleName mgr)
     = filter (fun n => negb (String.eqb n moduleName)) (processingOrder mgr).
Proof.
  intros Hmgr. pose proof Hmgr as (Hkeys & Horder & Hsame & Hnames).
  assert (Hgone : ~ In moduleName (processingOrder (unregister moduleName mgr))).
  { unfold unregister. cbn [processingOrder].
    rewrite remove_first_filter by exact Horder. intros Hin.
    apply filter_In in Hin as [_ Hk]. now rewrite String.eqb_refl in Hk. }
  split; [now apply unregister_consistent|].
  split; [apply map_get_delete_same|].
  split; [exact Hgone|].
  split; [unfold processWithModule, unregister; cbn [modules];
          now rewrite map_get_delete_same|].
  split.
  - unfold process. intros Hin.
    apply calls_are_applicable in Hin as [[] | [Hin _]]. now apply Hgone.
  - split.
    + intros n Hn. now apply map_get_delete_other.
    + unfold unregister. cbn [processingOrder]. now apply remove_first_filter.
Qed.

(** X13.  Registering a module under a name that the registry does not
    hold and unregistering that name again gives the registry back as it
    was. *)
Theorem unregister_undoes_register (m : module_) (mgr mgr' : manager) :
  consistent mgr ->
  ~ In (name m) (processingOrder mgr) ->
  register m mgr = Ok mgr' ->
  unregister (name m) mgr' = mgr.
Proof.
  intros (Hkeys & Horder & Hsame & Hnames) Hfresh. unfold register.
  destruct (String.eqb (name m) ""); [discriminate|].
  destruct (process_ m) as [f|]; [|discriminate].
  rewrite ModuleManagerFacts.existsb_name_absent by exact Hfresh.
  destruct (find_insertIndex _ _ _ 0) as [i|e]; [|discriminate].
  intros [= <-]. unfold unregister. cbn [modules processingOrder].
  assert (Hnokey : ~ In (name m) (map fst (modules mgr))) by now rewrite <- Hsame.
  rewrite map_set_fresh, map_delete_added, remove_first_added by assumption.
  now destruct mgr.
Qed.

(** X14.  On a consistent registry [getStats] counts as many modules as
    [processingOrder] has names and [getAllModules] returns modules, and
    the names it lists are those of [processingOrder], up to their order
    (the map keeps the order of first registration). *)
Theorem getStats_counts_the_order (mgr : manager) :
  consistent mgr ->
  totalModules (getStats mgr) = List.length (processingOrder mgr)
  /\ Permutation (moduleNames (getStats mgr)) (processingOrder mgr)
  /\ List.length (getAllModules mgr) = List.length (processingOrder mgr)
  /\ s_processingOrder (getStats mgr) = processingOrder mgr.
Proof.
  intros (Hkeys & Horder & Hsame & _).
  assert (Hperm : Permutation (map fst (modules mgr)) (processingOrder mgr)).
  { apply NoDup_Permutation; [exact Hkeys | exact Horder|].
    intros n. symmetry. apply Hsame. }
  unfold getStats, getAllModules. cbn [totalModules moduleNames s_processingOrder].
  split; [|split; [exact Hperm | split; [|reflexivity]]].
  - rewrite <- (Permutation_length Hperm). now rewrite length_map.
  - rewrite <- (Permutation_length Hperm). now rewrite !length_map.
Qed.

(** X15.  Every registry that calls of [register], [unregister] and
    [clear] lead to, from a new one, is consistent: the map holds one
    module per name, under the module's own name, and [processingOrder]
    lists exactly the names of the map, each of them once. *)
Theorem reachable_registries_are_consistent (mgr : manager) :
  reachable mgr -> consistent mgr.
Proof.
  induction 1 as [|m mgr mgr' _ IH Hreg|moduleName mgr _ IH|mgr _ _].
  - apply constructor_consistent.
  - exact (proj1 (register_consistent m mgr mgr' IH Hreg)).
  - now apply unregister_consistent.
  - apply constructor_consistent.
Qed.

(** X16.  A run calls no module out of turn: every module that [process]
    calls is named in [processingOrder], is stored in the map, supports the
    document type of the context and, when it has the method
    [hasTagsToProcess], has answered yes. *)
Theorem process_calls_applicable_modules (mgr : manager) (c : string)
    (ctx : pcontext) (n : string) :
  In n (calls (process mgr c ctx)) ->
  In n (processingOrder mgr)
  /\ exists module,
       getModule n mgr = Some module
       /\ _shouldProcessModule module ctx = true.
Proof.
  unfold process, getModule. intros Hin.
  apply calls_are_applicable in Hin as [[] | [Hin Happ]].
  split; [exact Hin|]. unfold applicable in Happ.
  destruct (map_get n (modules mgr)) as [module|]; [eauto | discriminate].
Qed.

(** X17.  The run over a list of names is the run over its first part
    followed by the run over the rest, which takes up the text, the
    console and the record of calls where the first run leaves them, and
    which does not take place when the first run raises. *)
Theorem process_loop_of_appended_orders (mods : list (string * module_))
    (ctx : pcontext) (order1 order2 : list string) (c : string)
    (console_ calls_ : list string) :
  process_loop mods (order1 ++ order2) c ctx console_ calls_
  = let r := process_loop mods order1 c ctx console_ calls_ in
    match output r with
    | Ok c' => process_loop mods order2 c' ctx (console r) (calls r)
    | Throw _ => r
    end.
Proof.
  revert c console_ calls_.
  induction order1 as [|moduleName order1 IH]; intros c console_ calls_.
  - reflexivity.
  - cbn [app process_loop].
    destruct (map_get moduleName mods) as [module|]; [|apply IH].
    destruct (_shouldProcessModule module ctx); [|apply IH].
    destruct (match process_ module with
              | Some f => f c ctx
              | None => Throw (TypeError "module.process is not a function")
              end) as [c'|e]; [apply IH|].
    destruct (errorOnMissingData ctx); [reflexivity | apply IH].
Qed.

(** X18.  Names without a module in the map and modules that do not apply
    to the context have no effect on a run: leaving them out of the order
    gives the same text, the same warnings and the same calls. *)
Theorem inapplicable_modules_are_transparent (mods : list (string * module_))
    (ctx : pcontext) (order : list string) (c : string)
    (console_ calls_ : list string) :
  process_loop mods order c ctx console_ calls_
  = process_loop mods (filter (applicable mods ctx) order) c ctx console_ calls_.
Proof.
  revert c console_ calls_.
  induction order as [|moduleName order IH]; intros c console_ calls_;
    [reflexivity|].
  cbn [filter]. unfold applicable at 1.
  cbn [process_loop].
  destruct (map_get moduleName mods) as [module|] eqn:Hget; [|apply IH].
  destruct (_shouldProcessModule module ctx) eqn:Hshould; [|apply IH].
  cbn [process_loop]. rewrite Hget, Hshould.
  destruct (match process_ module with
            | Some f => f c ctx
            | None => Throw (TypeError "module.process is not a function")
            end) as [c'|e]; [apply IH|].
  destruct (errorOnMissingData ctx); [reflexivity | apply IH].
Qed.

End WithNumbers.
End RegistryFacts.

(** ** Modules that find nothing to do, and asset identifiers in documents *)

Module ModulePhaseFacts.
Import PlainTextFacts Notions.

Lemma exec_all_without_match (r : Regex.re) (s : string) (fuel : nat) :
  Regex.test r s = false -> Regex.exec_all fuel r s 0 = [].
Proof.
  unfold Regex.test. intros Htest. destruct fuel as [|fuel]; [reflexivity|].
  cbn [Regex.exec_all]. unfold Regex.exec.
  change (String.length s <? 0)%nat with false. cbn iota.
  rewrite substring_from_start.
  destruct (Regex.search s r s 0) as [[[i e] c]|]; [discriminate | reflexivity].
Qed.

Section WithNumbers.
Context `{N : Numbers}.

Lemma default_shouldProcess_no (tags_ supported : list string)
    (content fileType : string) :
  tags_ = [] \/ ~ In fileType supported \/ JSString.includes content "{" = false ->
  BaseModule.default_shouldProcess tags_ supported content fileType = false.
Proof.
  unfold BaseModule.default_shouldProcess.
  intros [-> | [Htype | Hplain]].
  - now destruct (negb _).
  - destruct (existsb (String.eqb fileType) supported) eqn:Hex; [|reflexivity].
    apply existsb_exists in Hex as (x & Hx & Heq).
    apply String.eqb_eq in Heq. subst x. contradiction.
  - destruct (negb _); [reflexivity|].
    apply Bool.not_true_iff_false. intros Hex.
    apply existsb_exists in Hex as (tag & _ & Htest).
    unfold BaseModule.tagPattern in Htest. cbn [Regex.seq Regex.lit] in Htest.
    rewrite test_plain in Htest; [discriminate|].
    unfold JSString.includes in Hplain.
    destruct (JSString.indexOf content "{" 0); [discriminate | reflexivity].
Qed.

(** X19.  A phase of [NewTemplaterCore.render] leaves the text as it is
    and calls no module when every module keeps the [shouldProcess] of
    [BaseModule] and either declares no tags, or does not support the file
    type, or is given a text without an opening brace (the tags being
    words, as [tagPattern] reads them). *)
Theorem phase_skips_modules_without_work
    (phase : BaseModule.t -> string -> result string) (fileType : string)
    (ms : list BaseModule.t) (xmlContent : string) (calls : list string) :
  Forall (fun m =>
            (forall c f, BaseModule.shouldProcess m c f
                         = BaseModule.default_shouldProcess
                             (BaseModule.tags m) (BaseModule.supportedFileTypes m) c f)
            /\ (BaseModule.tags m = []
                \/ ~ In fileType (BaseModule.supportedFileTypes m)
                \/ JSString.includes xmlContent "{" = false)) ms ->
  NewTemplaterCore.run_phase phase fileType ms xmlContent calls
  = (Ok xmlContent, calls).
Proof.
  induction 1 as [|m ms [Hdefault Hno] _ IH]; cbn [NewTemplaterCore.run_phase];
    [reflexivity|].
  rewrite Hdefault, default_shouldProcess_no by exact Hno. exact IH.
Qed.

End WithNumbers.

Section Image.
Context `{C : ImageModule.Collaborators}.
Import ImageModule.

Lemma image_ids_repeat_refl (w : world) : image_ids_repeat w w.
Proof. split; [reflexivity|]. exists []. now rewrite app_nil_r. Qed.

Lemma image_ids_repeat_trans (w0 w1 w2 : world) :
  image_ids_repeat w0 w1 -> image_ids_repeat w1 w2 -> image_ids_repeat w0 w2.
Proof.
  intros (Hc1 & new1 & Ha1 & Hall1) (Hc2 & new2 & Ha2 & Hall2).
  split; [congruence|]. exists (new1 ++ new2)%list. split.
  - now rewrite Ha2, Ha1, app_assoc.
  - apply Forall_app. split; [exact Hall1|]. now rewrite Hc1 in Hall2.
Qed.

Lemma createImageXml_repeats (imageData : value) (ctx : pcontext) (w : world) :
  documentType ctx = "docx" \/ documentType ctx = "pptx" ->
  image_ids_repeat w (snd (_createImageXml imageData ctx w)).
Proof.
  intros Htype. unfold _createImageXml.
  destruct (_getImageBuffer (JSValue.get_property imageData "src")) as [imageBuffer|e];
    [|split; [reflexivity|]; exists []; cbn [snd warn allocated];
      rewrite app_nil_r; split; [reflexivity | constructor]].
  destruct (_addImageToDocument _ _ _ _) as [archive' [e|]].
  - split; [reflexivity|]. eexists. split; [reflexivity|].
    constructor; [reflexivity | constructor].
  - destruct Htype as [Ht | Ht]; rewrite Ht; cbn [String.eqb Ascii.eqb Bool.eqb andb];
      (split; [reflexivity|]; eexists; split; [reflexivity|];
       constructor; [reflexivity | constructor]).
Qed.

Lemma image_fold_repeats (ctx : pcontext) (ms : list Regex.regex_match) :
  documentType ctx = "docx" \/ documentType ctx = "pptx" ->
  forall acc,
    image_ids_repeat (snd acc) (snd (fold_left (process_match ctx) ms acc)).
Proof.
  intros Htype. induction ms as [|m ms IH]; intros acc; cbn [fold_left];
    [apply image_ids_repeat_refl|].
  eapply image_ids_repeat_trans; [|apply IH].
  destruct acc as [processedContent w]. unfold process_match.
  destruct (_getImageData _ _) as [imageData|]; [|apply image_ids_repeat_refl].
  pose proof (createImageXml_repeats imageData ctx w Htype) as Hstep.
  destruct (_createImageXml imageData ctx w) as [imageXml w']. exact Hstep.
Qed.
End Image.

Section Qr.
Context `{C : QrCodeModule.Collaborators}.
Import QrCodeModule.

Lemma qr_ids_repeat_refl (w : world) : qr_ids_repeat w w.
Proof. split; [reflexivity|]. exists []. now rewrite app_nil_r. Qed.

Lemma qr_ids_repeat_trans (w0 w1 w2 : world) :
  qr_ids_repeat w0 w1 -> qr_ids_repeat w1 w2 -> qr_ids_repeat w0 w2.
Proof.
  intros (Hc1 & new1 & Ha1 & Hall1) (Hc2 & new2 & Ha2 & Hall2).
  split; [congruence|]. exists (new1 ++ new2)%list. split.
  - now rewrite Ha2, Ha1, app_assoc.
  - apply Forall_app. split; [exact Hall1|]. now rewrite Hc1 in Hall2.
Qed.

Lemma createQrCodeXml_repeats (qrData : value) (ctx : pcontext) (w : world) :
  documentType ctx = "docx" \/ documentType ctx = "pptx" ->
  qr_ids_repeat w (snd (_createQrCodeXml qrData ctx w)).
Proof.
  intros Htype. unfold _createQrCodeXml.
  destruct (QRCode_toBuffer _ _) as [qrBuffer|e];
    [|split; [reflexivity|]; exists []; cbn [snd warn allocated];
      rewrite app_nil_r; split; [reflexivity | constructor]].
  destruct (_addQrCodeToDocument _ _ _ _) as [archive' [e|]].
  - split; [reflexivity|]. eexists. split; [reflexivity|].
    constructor; [reflexivity | constructor].
  - destruct Htype as [Ht | Ht]; rewrite Ht; cbn [String.eqb Ascii.eqb Bool.eqb andb];
      (split; [reflexivity|]; eexists; split; [reflexivity|];
       constructor; [reflexivity | constructor]).
Qed.

Lemma qr_fold_repeats (ctx : pcontext) (ms : list Regex.regex_match) :
  documentType ctx = "docx" \/ documentType ctx = "pptx" ->
  forall acc,
    qr_ids_repeat (snd acc) (snd (fold_left (process_match ctx) ms acc)).
Proof.
  intros Htype. induction ms as [|m ms IH]; intros acc; cbn [fold_left];
    [apply qr_ids_repeat_refl|].
  eapply qr_ids_repeat_trans; [|apply IH].
  destruct acc as [processedContent w]. unfold process_match.
  destruct (_getQrData _ _) as [qrData|]; [|apply qr_ids_repeat_refl].
  pose proof (createQrCodeXml_repeats qrData ctx w Htype) as Hstep.
  destruct (_createQrCodeXml qrData ctx w) as [qrImageXml w']. exact Hstep.
Qed.
End Qr.

Section Both.
Context `{H : Host}.
Context {CI : ImageModule.Collaborators} {CQ : QrCodeModule.Collaborators}.

(** X20.  A module whose [hasTagsToProcess] answers no has nothing to do:
    on such a text [process] returns the text as it is and leaves the
    module, the archive and the console untouched. *)
Theorem untagged_content_is_left_alone :
  (forall content ctx w,
     ImageModule.hasTagsToProcess content = false ->
     ImageModule.process content ctx w = (content, w))
  /\ (forall content ctx w,
        QrCodeModule.hasTagsToProcess content = false ->
        QrCodeModule.process content ctx w = (content, w)).
Proof.
  split; intros content ctx w Hno.
  - unfold ImageModule.process.
    now rewrite (exec_all_without_match _ _ _ Hno).
  - unfold QrCodeModule.process.
    now rewrite (exec_all_without_match _ _ _ Hno).
Qed.

(** X21.  In a docx or pptx document the counters do not advance: the
    increment stands behind the two [return] statements.  So [process]
    leaves the counter as it finds it, every image of the call is given
    the same relationship identifier, and every QR code the same file name
    and the same relationship identifier. *)
Theorem asset_ids_repeat_in_documents :
  (forall content ctx w,
     ImageModule.documentType ctx = "docx" \/ ImageModule.documentType ctx = "pptx" ->
     image_ids_repeat w (snd (ImageModule.process content ctx w)))
  /\ (forall content ctx w,
        QrCodeModule.documentType ctx = "docx"
        \/ QrCodeModule.documentType ctx = "pptx" ->
        qr_ids_repeat w (snd (QrCodeModule.process content ctx w))).
Proof.
  split; intros content ctx w Htype.
  - unfold ImageModule.process.
    apply (image_fold_repeats ctx _ Htype (content, w)).
  - unfold QrCodeModule.process.
    apply (qr_fold_repeats ctx _ Htype (content, w)).
Qed.

End Both.
End ModulePhaseFacts.

(** ** The scenarios, run on the example host *)

Module ScenarioFacts.
Import IntegerHost Examples PipelineFacts.

(** C2.  The loop body is not rendered: [_parseContent] wraps it
    in a single text token, so every iteration emits the body's source
    text.  The two loop scenarios of the specification come out as the raw
    body repeated, not as "1,2,3," and "123". *)
Theorem loop_body_is_emitted_unrendered :
  DocxTemplaterPro.returned
    (DocxTemplaterPro._processXmlContent
       (templater lenient scenario2_context) scenario2 "docx")
  = Ok "{{x}},{{x}},{{x}},"
  /\ DocxTemplaterPro.returned
       (DocxTemplaterPro._processXmlContent
          (templater lenient scenario6_context) scenario6 "docx")
     = Ok "{%loop c in a%}{{c}}{%loop c in a%}{{c}}{%endloop%}".
Proof. split; vm_compute; reflexivity. Qed.

(** The theorem on the missing placeholder, lenient half, at the empty
    context. *)
Lemma missing_placeholder_witness :
  DocxTemplaterPro.returned
    (DocxTemplaterPro._processXmlContent (templater lenient (VObject []))
       "{{missing}}" "docx")
  = Ok ""
  /\ DocxTemplaterPro.errors
       (DocxTemplaterPro.after
          (DocxTemplaterPro._processXmlContent (templater lenient (VObject []))
             "{{missing}}" "docx"))
     = [].
Proof.
  exact (proj1 (missing_placeholder_lenient_quiet_strict_raises
                  (templater lenient (VObject [])) "docx" eq_refl eq_refl)
               eq_refl).
Defined.

(** C5, the claim as stated: the lenient run records no error at all, not
    one. *)
Lemma lenient_missing_placeholder_records_nothing :
  let r := DocxTemplaterPro._processXmlContent (templater lenient (VObject []))
             "{{missing}}" "docx" in
  DocxTemplaterPro.returned r = Ok ""
  /\ DocxTemplaterPro.errors (DocxTemplaterPro.after r) = []
  /\ List.length (DocxTemplaterPro.errors (DocxTemplaterPro.after r)) <> 1.
Proof. cbv zeta. split; [|split]; [reflexivity | reflexivity | discriminate]. Qed.

(** C6.  Paragraph placeholders are not implemented.  [_removeParagraph]
    returns the empty string for every token and removes nothing, and the
    tokenizer reads "{{?bio}}" as the ordinary placeholder of the variable
    "?bio", because the placeholder pattern matches the tag first.  With
    [bio] empty, the lenient outcome of rendering "{{?bio}}" is, in every
    component, the outcome of rendering the empty part, so nothing that
    could tell a caller to remove a block comes back, and in strict mode the
    call raises.  With [bio] set to "hi" the part "{{?bio}}" renders empty
    (strict mode: raises) while "{{bio}}" renders "hi".  A token of type
    paragraphPlaceholder built by hand renders to the empty text and
    nothing else. *)
Theorem paragraph_placeholder_is_not_implemented :
  (forall token_ : Template.token, ContextProcessor._removeParagraph token_ = "")
  /\ Template.tokens (TemplateParser.parse "{{?bio}}")
     = [Template.placeholder "?bio"
          {| Template.index := 0; Template.length := 8;
             Template.fullMatch := "{{?bio}}" |}]
  /\ DocxTemplaterPro._processXmlContent
       (templater lenient (VObject [("bio", VString "")])) "{{?bio}}" "docx"
     = DocxTemplaterPro._processXmlContent
         (templater lenient (VObject [("bio", VString "")])) "" "docx"
  /\ DocxTemplaterPro.returned
       (DocxTemplaterPro._processXmlContent
          (templater strict (VObject [("bio", VString "")])) "{{?bio}}" "docx")
     = Throw (Error "Missing data for placeholder: ?bio")
  /\ DocxTemplaterPro.returned
       (DocxTemplaterPro._processXmlContent
          (templater lenient (VObject [("bio", VString "hi")])) "{{?bio}}" "docx")
     = Ok ""
  /\ DocxTemplaterPro.returned
       (DocxTemplaterPro._processXmlContent
          (templater strict (VObject [("bio", VString "hi")])) "{{?bio}}" "docx")
     = Throw (Error "Missing data for placeholder: ?bio")
  /\ DocxTemplaterPro.returned
       (DocxTemplaterPro._processXmlContent
          (templater lenient (VObject [("bio", VString "hi")])) "{{bio}}" "docx")
     = Ok "hi"
  /\ ContextProcessor.process lenient
       {| Template.tokens :=
            [Template.paragraphPlaceholder "bio"
               {| Template.index := 0; Template.length := 8;
                  Template.fullMatch := "{{?bio}}" |}];
          Template.originalContent := "{{?bio}}" |}
       (VObject [("bio", VString "")])
     = Ok "".
Proof.
  split; [intros token_; reflexivity|].
  repeat split; vm_compute; reflexivity.
Qed.

(** The lemma on paragraph placeholder tokens built by hand, at [bio]
    empty and at [bio] set. *)
Lemma paragraph_placeholder_examples :
  ContextProcessor.process lenient
    {| Template.tokens :=
         [Template.paragraphPlaceholder "bio"
            {| Template.index := 0; Template.length := 8;
               Template.fullMatch := "{{?bio}}" |}];
       Template.originalContent := "{{?bio}}" |}
    (VObject [("bio", VString "")])
  = Ok ""
  /\ ContextProcessor.process lenient
       {| Template.tokens :=
            [Template.paragraphPlaceholder "bio"
               {| Template.index := 0; Template.length := 8;
                  Template.fullMatch := "{{?bio}}" |}];
          Template.originalContent := "{{?bio}}" |}
       (VObject [("bio", VString "hi")])
     = Ok "hi".
Proof.
  split.
  - exact (proj1 (ParagraphFacts.paragraph_placeholder_renders_text_only
                    lenient "bio" "{{?bio}}" _ (VObject [("bio", VString "")]))
                 (VString "") eq_refl eq_refl).
  - exact (proj1 (proj2 (proj2
             (ParagraphFacts.paragraph_placeholder_renders_text_only
                lenient "bio" "{{?bio}}" _ (VObject [("bio", VString "hi")])))
             (VString "hi") "hi" eq_refl eq_refl eq_refl)).
Defined.

(** The theorem on module failures, at the module "boom" and the
    templater that has it attached. *)
Lemma module_failure_witness :
  (ModuleManager.process_loop [("boom", failing_module)] ["boom"] "text"
     docx_context [] []
   = ModuleManager.process_loop [("boom", failing_module)] [] "text"
       docx_context ["Module boom failed: no luck"] ["boom"])
  /\ DocxTemplaterPro.errors
       (DocxTemplaterPro.after
          (DocxTemplaterPro._processXmlContent faulty_templater "text" "docx"))
     = [].
Proof.
  pose proof (ModuleFailureFacts.module_failure_is_warned_or_raised
                [("boom", failing_module)] "boom" [] failing_module
                (fun _ _ => Throw (Error "no luck")) "text" docx_context [] []
                (Error "no luck") faulty_templater "text" "docx" "text"
                eq_refl eq_refl eq_refl eq_refl) as (Hlenient & _ & Hpipeline).
  split.
  - exact (proj1 (Hlenient eq_refl)).
  - exact (proj1 (Hpipeline eq_refl eq_refl)).
Defined.

(** C8, the claim as stated: in a lenient run the failure of "boom" is
    printed and the next module still runs, but the error list stays
    empty. *)
Lemma module_failure_is_not_recorded :
  let r := DocxTemplaterPro._processXmlContent faulty_templater "text" "docx" in
  DocxTemplaterPro.returned r = Ok "text!"
  /\ DocxTemplaterPro.printed r = ["Module boom failed: no luck"]
  /\ DocxTemplaterPro.errors (DocxTemplaterPro.after r) = []
  /\ List.length (DocxTemplaterPro.errors (DocxTemplaterPro.after r)) <> 1.
Proof. cbv zeta. repeat split; try (vm_compute; reflexivity). discriminate. Qed.



(** The theorem on the guard of [resolve], at the empty path on a context
    that has the empty key. *)
Lemma resolve_empty_path_witness :
  ContextResolver.resolve (VObject [("", VString "empty key")]) (VString "")
    (Some (VString "fallback"))
  = Ok (VString "fallback").
Proof.
  exact (ContextResolverFacts.resolve_guard_returns_default
           (VObject [("", VString "empty key")]) (VString "")
           (Some (VString "fallback")) (or_introl eq_refl)).
Defined.


(** The third scenario, in strict mode as well. *)
Lemma scenario3_renders_minor :
  DocxTemplaterPro.returned
    (DocxTemplaterPro._processXmlContent
       (templater strict (VObject [("age", num 15)]))
       "{%if age>=18%}adult{%else%}minor{%endif%}" "docx")
  = Ok "minor"
  /\ DocxTemplaterPro.returned
       (DocxTemplaterPro._processXmlContent
          (templater strict (VObject []))
          "{%if age>=18%}adult{%else%}minor{%endif%}" "docx")
     = Ok "minor".
Proof. split; vm_compute; reflexivity. Qed.

(** The theorem on the order of modules: three managed modules, two of
    them with the same priority, and the three modules of the test
    "should attach a module and sort by priority". *)
Lemma module_order_witness :
  (exists mgr,
      ModuleManager.register_all
        [plain_module "a" 20; plain_module "b" 10; plain_module "c" 20]
        ModuleManager.constructor = Ok mgr
      /\ ModuleManager.processingOrder mgr = ["b"; "a"; "c"])
  /\ exists core',
       NewTemplaterCore.attach_all
         [base_module "ModuleA" 50; base_module "ModuleC" 100;
          base_module "ModuleB" 10] empty_core = Ok core'
       /\ map BaseModule.name (NewTemplaterCore.modules core')
          = ["ModuleB"; "ModuleA"; "ModuleC"].
Proof.
  destruct (ModuleManagerFacts.modules_run_by_priority_then_registration
              [plain_module "a" 20; plain_module "b" 10; plain_module "c" 20]
              [base_module "ModuleA" 50; base_module "ModuleC" 100;
               base_module "ModuleB" 10])
    as ((mgr & Hreg & Horder & _) & _ & _ & Hattach & _).
  - repeat (constructor; [repeat split; discriminate|]). constructor.
  - repeat constructor; simpl; intuition discriminate.
  - split.
    + exists mgr. split; [exact Hreg | exact Horder].
    + destruct (Hattach empty_core eq_refl) as (core' & Ha & Hm).
      exists core'. split; [exact Ha|]. rewrite Hm. reflexivity.
Defined.

(** C7, the claim as stated: a module re-registered under its name with a
    larger priority keeps its place, ahead of a module whose priority is
    now smaller; and a module of priority 0 is placed as if it had
    priority 100, behind a module of priority 50. *)
Lemma priority_order_can_be_broken :
  (exists mgr,
      ModuleManager.register_all
        [plain_module "a" 10; plain_module "b" 20; plain_module "a" 30]
        ModuleManager.constructor = Ok mgr
      /\ ModuleManager.processingOrder mgr = ["a"; "b"]
      /\ option_map ModuleManager.priority
           (ModuleManager.map_get "a" (ModuleManager.modules mgr))
         = Some (Some 30%Z)
      /\ option_map ModuleManager.priority
           (ModuleManager.map_get "b" (ModuleManager.modules mgr))
         = Some (Some 20%Z))
  /\ (exists mgr,
        ModuleManager.register_all
          [plain_module "zero" 0; plain_module "fifty" 50]
          ModuleManager.constructor = Ok mgr
        /\ ModuleManager.processingOrder mgr = ["fifty"; "zero"]).
Proof.
  split; eexists; repeat split; reflexivity.
Qed.

(** C9, the claim as stated: after one call of [process] that reaches the
    increment (a document type other than docx and pptx), the next call on
    the same instance names its image [image2] and not [image1]; likewise
    for the QR module. *)
Lemma asset_counter_survives_process :
  let w1 := snd (ImageModule.process "{%image pic%}"
                   {| ImageModule.context := pictures;
                      ImageModule.documentType := "xlsx" |} image_world) in
  let w2 := snd (ImageModule.process "{%image pic%}"
                   {| ImageModule.context := pictures;
                      ImageModule.documentType := "docx" |} w1) in
  let q1 := snd (QrCodeModule.process "{%qrcode code%}"
                   {| QrCodeModule.context := pictures;
                      QrCodeModule.documentType := "xlsx" |} qr_world) in
  let q2 := snd (QrCodeModule.process "{%qrcode code%}"
                   {| QrCodeModule.context := pictures;
                      QrCodeModule.documentType := "docx" |} q1) in
  ImageModule.allocated w1 = [("image1.png", "rId1001")]
  /\ ImageModule.imageCounter (ImageModule.this w1) = 2
  /\ ImageModule.allocated w2
     = [("image1.png", "rId1001"); ("image2.png", "rId1002")]
  /\ QrCodeModule.allocated q1 = [("qrcode1.png", "rId2001")]
  /\ QrCodeModule.qrCounter (QrCodeModule.this q1) = 2
  /\ QrCodeModule.allocated q2
     = [("qrcode1.png", "rId2001"); ("qrcode2.png", "rId2002")].
Proof. cbv zeta. repeat split; vm_compute; reflexivity. Qed.

(** The theorem on the counters, at a first call that reaches the
    increment. *)
Lemma asset_counter_witness :
  Notions.image_continues image_world
    (snd (ImageModule.process "{%image pic%}"
            {| ImageModule.context := pictures;
               ImageModule.documentType := "xlsx" |} image_world)).
Proof.
  exact (proj1 (proj2 (proj2 AssetCounterFacts.asset_counters_are_instance_state))
               "{%image pic%}"
               {| ImageModule.context := pictures;
                  ImageModule.documentType := "xlsx" |} image_world).
Defined.

End ScenarioFacts.

(** ** The further results at examples *)

Module FurtherScenarioFacts.
Import IntegerHost Examples.

(** The tokenizers on the text of the test "should handle text without
    tags". *)
Lemma TagParser_plain_text_witness :
  TagParser.parse 1 "Just some plain text."
  = Some [TagParser.text "Just some plain text."].
Proof.
  exact (proj1 (PlainTextParsing.TagParser_parse_plain_text
                  "Just some plain text." 0 eq_refl)).
Defined.

Lemma TemplateParser_plain_text_witness :
  TemplateParser.reconstruct (TemplateParser.parse "Just some plain text.")
  = "Just some plain text.".
Proof.
  exact (proj2 (PlainTextParsing.TemplateParser_parse_plain_text
                  "Just some plain text." eq_refl)).
Defined.

(** A lenient rendering of the second scenario returns. *)
Lemma lenient_process_witness :
  exists s,
    ContextProcessor.process lenient (TemplateParser.parse scenario2)
      scenario2_context = Ok s.
Proof.
  apply (RenderingFacts.lenient_process_returns lenient
           (TemplateParser.parse scenario2) scenario2_context).
  - reflexivity.
  - intros v. exists (to_string v). reflexivity.
Defined.


(** The first iteration of the loop of the second scenario. *)
Lemma loop_context_witness :
  ContextProcessor._getValue "x"
    (ContextProcessor.loopContext scenario2_context "x" (num 1) 0 3)
  = Ok (num 1)
  /\ ContextProcessor._getValue "$last"
       (ContextProcessor.loopContext scenario2_context "x" (num 1) 0 3)
     = Ok (VBool false).
Proof.
  assert (Hx : ~ In "x" ["$index"; "$first"; "$last"; "$length"])
    by (intros [Hx | [Hx | [Hx | [Hx | []]]]]; discriminate Hx).
  destruct (LoopContextFacts.loop_context_resolves scenario2_context "x" (num 1)
              0 3 Hx eq_refl) as (Hitem & _ & _ & Hlast & _).
  split; [exact Hitem | exact Hlast].
Defined.

(** A part of plain markup in a templater without modules. *)
Lemma plain_text_witness :
  DocxTemplaterPro._processXmlContent (templater strict (VObject []))
    "<w:t>Hello</w:t>" "docx"
  = {| DocxTemplaterPro.returned := Ok "<w:t>Hello</w:t>";
       DocxTemplaterPro.after := templater strict (VObject []);
       DocxTemplaterPro.printed := [] |}.
Proof.
  exact (proj2 (PartFacts.plain_text_passes_through
                  (templater strict (VObject [])) "<w:t>Hello</w:t>" "docx" eq_refl)
               eq_refl).
Defined.

(** The match of the placeholder in "Hello {{name}}!". *)
Lemma _matchTag_witness :
  "{{name}}" = "{{" ++ "name" ++ "}}"
  /\ exists startIndex,
       JSString.indexOf hello "{{" 0 = Some startIndex
       /\ "{{name}}" = String.substring startIndex 8 hello.
Proof.
  exact (DelimiterFacts._matchTag_spells_the_tag hello
           (TagParser.o_delimiters TagParser.default_options)
           {| TagParser.m_value := "name"; TagParser.m_fullMatch := "{{name}}" |}
           eq_refl).
Defined.

(** *** The registry *)

Lemma two_modules_consistent : Notions.consistent two_modules.
Proof.
  unfold Notions.consistent, two_modules.
  cbn [ModuleManager.modules ModuleManager.processingOrder map fst].
  assert (Hnames : NoDup ["a"; "b"]).
  { repeat constructor; simpl; intuition discriminate. }
  split; [exact Hnames | split; [exact Hnames | split; [tauto|]]].
  intros n m [[= <- <-] | [[= <- <-] | []]]; reflexivity.
Qed.

(** A module of priority 15 registered between the two. *)
Lemma register_witness :
  exists mgr',
    ModuleManager.register (plain_module "c" 15) two_modules = Ok mgr'
    /\ Notions.consistent mgr'
    /\ ModuleManager.getModule "c" mgr' = Some (plain_module "c" 15).
Proof.
  destruct (proj2 (proj2 (RegistryFacts.register_on_a_consistent_registry
                            (plain_module "c" 15) two_modules
                            two_modules_consistent)))
    as (mgr' & Hreg & Hconsistent & Hget & _); [discriminate | discriminate|].
  exists mgr'. split; [exact Hreg | split; [exact Hconsistent | exact Hget]].
Defined.

Lemma unregister_witness :
  ModuleManager.getModule "a" (ModuleManager.unregister "a" two_modules) = None
  /\ ModuleManager.processWithModule "a" "text" docx_context
       (ModuleManager.unregister "a" two_modules)
     = Throw (Error "Module a not found")
  /\ ModuleManager.processingOrder (ModuleManager.unregister "a" two_modules)
     = ["b"].
Proof.
  destruct (RegistryFacts.unregister_removes_the_module "a" two_modules "text"
              docx_context two_modules_consistent)
    as (_ & Hget & _ & Hwith & _ & _ & Horder).
  split; [exact Hget | split; [exact Hwith | exact Horder]].
Defined.

Lemma register_unregister_witness :
  ModuleManager.unregister "c"
    {| ModuleManager.modules :=
         [("a", plain_module "a" 10); ("b", plain_module "b" 20);
          ("c", plain_module "c" 15)];
       ModuleManager.processingOrder := ["a"; "c"; "b"] |}
  = two_modules.
Proof.
  refine (RegistryFacts.unregister_undoes_register (plain_module "c" 15)
            two_modules _ two_modules_consistent _ eq_refl).
  simpl. intuition discriminate.
Defined.

Lemma getStats_witness :
  ModuleManager.totalModules (ModuleManager.getStats two_modules) = 2.
Proof.
  exact (proj1 (RegistryFacts.getStats_counts_the_order two_modules
                  two_modules_consistent)).
Defined.

(** The registry with two modules is reached by two calls of [register]. *)
Lemma reachable_witness : Notions.consistent two_modules.
Proof.
  apply RegistryFacts.reachable_registries_are_consistent.
  exact (Notions.reach_register (plain_module "b" 20) _ two_modules
           (Notions.reach_register (plain_module "a" 10)
              ModuleManager.constructor _ Notions.reach_new eq_refl)
           eq_refl).
Defined.

(** The module "mark" of the templater with a failing module is called,
    and it is registered and applies to a docx part. *)
Lemma process_calls_witness :
  In "mark" (ModuleManager.processingOrder (DocxTemplaterPro.moduleManager faulty_templater))
  /\ exists module,
       ModuleManager.getModule "mark" (DocxTemplaterPro.moduleManager faulty_templater)
       = Some module
       /\ ModuleManager._shouldProcessModule module docx_context = true.
Proof.
  exact (RegistryFacts.process_calls_applicable_modules
           (DocxTemplaterPro.moduleManager faulty_templater) "text" docx_context
           "mark" (or_intror (or_introl eq_refl))).
Defined.

(** The modules of the test "should attach a module and sort by priority"
    declare no tags. *)
Lemma phase_witness :
  NewTemplaterCore.run_phase (fun m c => BaseModule.preparse m c "docx") "docx"
    [base_module "ModuleB" 10; base_module "ModuleA" 50]
    "<w:t>{%ModuleA x%}</w:t>" []
  = (Ok "<w:t>{%ModuleA x%}</w:t>", []).
Proof.
  apply ModulePhaseFacts.phase_skips_modules_without_work.
  repeat (constructor; [split; [intros c f; reflexivity | left; reflexivity]|]).
  constructor.
Defined.

(** *** Validation *)

Lemma validate_plain_witness : TemplateValidator.validate "<w:t>Hello</w:t>" = [].
Proof.
  exact (ValidationFacts.validate_accepts_text_without_braces "<w:t>Hello</w:t>"
           eq_refl eq_refl).
Defined.

(** The template "{{name}}" is reported. *)
Lemma validate_placeholder_witness :
  exists found,
    found <> []
    /\ In (TemplateValidator.syntax
             ("Malformed placeholders found: " ++ TemplateValidator.join ", " found))
          (TemplateValidator.validate "{{name}}").
Proof.
  exact (ValidationFacts.validate_reports_ordinary_placeholders "{" "ame}}" "n"
           eq_refl).
Defined.

End FurtherScenarioFacts.
